(** * Titanic survival dashboards: data preparation and aggregation

    A shallow embedding of the data pipeline of the dashboard scripts

      - [src/app.py]               (module [App]),
      - [src/titanic/app.py]       (module [TitanicApp]),
      - [src/titanic/app1.py]      (module [App1]),
      - [src/titanic/survival.py]  (module [SurvivalPy]),
      - [src/titanic/graph.py]     (module [Graph]),

    together with a model of the data-table and charting operations they
    call (modules [pd] and [px]).

    Conventions.
      - A table is column oriented, as in the code: an ordered list of
        named columns, each column a list of cells.
      - A missing cell is [NaN].  An integer cell is a 64-bit signed
        integer, and integer arithmetic wraps around.
      - A floating-point cell is modelled by an exact rational, kept in
        lowest terms, and floating-point arithmetic by exact arithmetic:
        a cell [VNum q] stands for the double that the code computes where
        exact arithmetic gives [q], which is [q] up to the rounding error
        of the operations involved.  Where the last bits of a double
        decide an outcome (a rounding on a tie, bin edges a few units in
        the last place apart) the exact value does not tell what the code
        does, and a statement about a rounded value leaves a margin for
        it.
      - The columns read by the arithmetic (ages, fares, counts of
        relatives, outcomes) hold numbers or missing cells, as the data
        set has them.
      - A call that may raise returns [res]; [Raise e] is a Python
        exception that reaches the caller. *)

From Stdlib Require Import ZArith QArith Qround Qreduction Bool List Lia Lqa.
From Stdlib Require Import Strings.String Strings.Ascii.
From Stdlib Require Import Numbers.DecimalString.
From Stdlib Require Import Sorting.Permutation Sorting.Sorted.
From Stdlib Require Import Structures.OrderedTypeEx.
Import ListNotations.

Local Open Scope string_scope.
Local Open Scope Z_scope.

(* ================================================================== *)
(** * Exceptions and fallible results *)

Inductive exn : Type :=
| KeyError (key : string)
| ValueError (msg : string)
| TypeError (msg : string).

Inductive res (A : Type) : Type :=
| Ok (a : A)
| Raise (e : exn).

Arguments Ok {A} a.
Arguments Raise {A} e.

Definition bind {A B : Type} (c : res A) (k : A -> res B) : res B :=
  match c with
  | Ok a => k a
  | Raise e => Raise e
  end.

Notation "x <- c ;; k" := (bind c (fun x => k))
  (at level 61, c at next level, right associativity).

(** [try c except ValueError: h] -- only a [ValueError] is caught. *)
Definition try_except_ValueError {A : Type} (c : res A) (h : res A) : res A :=
  match c with
  | Raise (ValueError _) => h
  | other => other
  end.

(* ================================================================== *)
(** * Cells *)

Inductive value : Type :=
| NaN
| VInt (z : Z)
| VNum (q : Q)
| VStr (s : string).

Definition isna (v : value) : bool :=
  match v with NaN => true | _ => false end.

Definition notna (v : value) : bool := negb (isna v).

(** The numeric reading of a cell, when it has one. *)
Definition to_Q (v : value) : option Q :=
  match v with
  | VInt z => Some (inject_Z z)
  | VNum q => Some q
  | _ => None
  end.

(** Cell equality as [==] computes it: numbers by value, strings by
    content, and a missing cell equal to nothing. *)
Definition value_eqb (a b : value) : bool :=
  match a, b with
  | VStr s, VStr t => String.eqb s t
  | VStr _, _ | _, VStr _ => false
  | NaN, _ | _, NaN => false
  | _, _ =>
      match to_Q a, to_Q b with
      | Some p, Some q => Qeq_bool p q
      | _, _ => false
      end
  end.

(** The order used to sort cells: numbers by value, strings by code
    point.  Sorting a column that mixes numbers and strings is not defined
    by the library; the columns of this data set are homogeneous, and the
    model places numbers before strings and missing cells last. *)
Definition value_leb (a b : value) : bool :=
  match a, b with
  | _, NaN => true
  | NaN, _ => false
  | VStr s, VStr t => String.leb s t
  | VStr _, _ => false
  | _, VStr _ => true
  | _, _ =>
      match to_Q a, to_Q b with
      | Some p, Some q => Qle_bool p q
      | _, _ => true
      end
  end.

(** The 64-bit signed integer that an integer result wraps around to. *)
Definition wrap64 (z : Z) : Z := (z + 2 ^ 63) mod 2 ^ 64 - 2 ^ 63.

(** Arithmetic on cells: integers stay (64-bit) integers, anything else
    numeric is a float, and a missing or non-numeric operand gives a
    missing cell. *)
Definition vadd (a b : value) : value :=
  match a, b with
  | VInt x, VInt y => VInt (wrap64 (x + y))
  | _, _ =>
      match to_Q a, to_Q b with
      | Some p, Some q => VNum (Qred (p + q))
      | _, _ => NaN
      end
  end.

Definition vmul (a b : value) : value :=
  match a, b with
  | VInt x, VInt y => VInt (wrap64 (x * y))
  | _, _ =>
      match to_Q a, to_Q b with
      | Some p, Some q => VNum (Qred (p * q))
      | _, _ => NaN
      end
  end.

(** [str(v)] for the cells that [astype(str)] is applied to. *)
Definition str_of_Z (z : Z) : string := NilZero.string_of_int (Z.to_int z).

Definition vstr (v : value) : value :=
  match v with
  | VInt z => VStr (str_of_Z z)
  | VStr s => VStr s
  | VNum q => VNum q
  | NaN => VStr "nan"
  end.

(* ================================================================== *)
(** * Series and frames *)

Inductive dtype : Type :=
| Plain
| Categorical (categories : list string).

Record Series : Type := mkSeries {
  s_dtype : dtype;
  s_values : list value
}.

Definition plain (vs : list value) : Series := mkSeries Plain vs.

(** A frame is its columns in order.  A frame without columns has no rows. *)
Definition DataFrame : Type := list (string * Series).

Definition nrows (df : DataFrame) : nat :=
  match df with
  | [] => 0%nat
  | (_, s) :: _ => List.length (s_values s)
  end.

(** [df.empty]: true when either axis has length zero. *)
Definition empty (df : DataFrame) : bool :=
  match df with
  | [] => true
  | _ => Nat.eqb (nrows df) 0
  end.

Fixpoint lookup_col (df : DataFrame) (c : string) : option Series :=
  match df with
  | [] => None
  | (n, s) :: rest => if String.eqb n c then Some s else lookup_col rest c
  end.

(** [df[c]] *)
Definition getitem (df : DataFrame) (c : string) : res Series :=
  match lookup_col df c with
  | Some s => Ok s
  | None => Raise (KeyError c)
  end.

(** [df[c] = s]: replaces the column in place, or appends a new last
    column.  Every series assigned in the scripts is derived from columns
    of the same frame, so it carries the frame's own index. *)
Fixpoint setitem (df : DataFrame) (c : string) (s : Series) : DataFrame :=
  match df with
  | [] => [(c, s)]
  | (n, s0) :: rest =>
      if String.eqb n c then (n, s) :: rest else (n, s0) :: setitem rest c s
  end.

(** The cell of column [c] at row position [i]. *)
Definition cell (df : DataFrame) (c : string) (i : nat) : option value :=
  match lookup_col df c with
  | Some s => nth_error (s_values s) i
  | None => None
  end.

(** Row [i] of a frame: its cells, column by column. *)
Definition row_at (df : DataFrame) (i : nat) : list (string * value) :=
  map (fun cs => (fst cs, nth i (s_values (snd cs)) NaN)) df.

Definition rows (df : DataFrame) : list (list (string * value)) :=
  map (row_at df) (seq 0 (nrows df)).

Definition row_get (r : list (string * value)) (c : string) : value :=
  match find (fun kv => String.eqb (fst kv) c) r with
  | Some kv => snd kv
  | None => NaN
  end.

(* ================================================================== *)
(** * The data-table library

    The operations of the table library that the scripts call, each with
    the behaviour the library documents for it. *)

Module pd.

(** ** Generic list helpers *)

Section Sorting.
Context {A : Type} (leb : A -> A -> bool).

Fixpoint insert (x : A) (l : list A) : list A :=
  match l with
  | [] => [x]
  | y :: r => if leb x y then x :: y :: r else y :: insert x r
  end.

(** A stable sort: among cells that compare equal, the earlier stays
    first. *)
Fixpoint sort (l : list A) : list A :=
  match l with
  | [] => []
  | x :: r => insert x (sort r)
  end.
End Sorting.

(** Distinct cells in order of first appearance. *)
Fixpoint uniq (xs : list value) : list value :=
  match xs with
  | [] => []
  | x :: r => x :: filter (fun y => negb (value_eqb x y)) (uniq r)
  end.

(** [s.unique()]: the distinct cells in order of first appearance, the
    missing cell counting as one value. *)
Definition same_cell (a b : value) : bool :=
  value_eqb a b || (isna a && isna b).

Fixpoint unique (xs : list value) : list value :=
  match xs with
  | [] => []
  | x :: r => x :: filter (fun y => negb (same_cell x y)) (unique r)
  end.

Definition count (v : value) (xs : list value) : nat :=
  List.length (filter (value_eqb v) xs).

Definition dropna (xs : list value) : list value := filter notna xs.

Definition maximum (ns : list nat) : nat := fold_right Nat.max 0%nat ns.

(** ** Reductions and element-wise operations *)

Fixpoint numeric (xs : list value) : list Q :=
  match xs with
  | [] => []
  | x :: r => match to_Q x with
              | Some q => q :: numeric r
              | None => numeric r
              end
  end.

Definition Qsum (qs : list Q) : Q := fold_right Qplus 0%Q qs.

(** [mean] of a list of cells, missing cells skipped; missing when nothing
    is left.  The sum and the quotient are exact: the rounding of the
    summation in doubles is not modelled. *)
Definition mean_values (xs : list value) : value :=
  match numeric xs with
  | [] => NaN
  | qs => VNum (Qred (Qsum qs / inject_Z (Z.of_nat (List.length qs))))
  end.

(** [s.mean()] *)
Definition mean (s : Series) : value := mean_values (s_values s).

(** [s.fillna(v)] *)
Definition fillna (s : Series) (v : value) : Series :=
  mkSeries (s_dtype s) (map (fun x => if isna x then v else x) (s_values s)).

(** [s.mode()]: the most frequent non-missing cells, in ascending order. *)
Definition mode (s : Series) : Series :=
  let xs := dropna (s_values s) in
  let ks := uniq xs in
  let top := maximum (map (fun k => count k xs) ks) in
  mkSeries (s_dtype s)
    (sort value_leb (filter (fun k => Nat.eqb (count k xs) top) ks)).

(** [s[0]] on a series with the default integer index. *)
Definition at0 (s : Series) : res value :=
  match s_values s with
  | v :: _ => Ok v
  | [] => Raise (KeyError "0")
  end.

Fixpoint dict_get (d : list (string * string)) (k : string) : option string :=
  match d with
  | [] => None
  | (k', v) :: r => if String.eqb k' k then Some v else dict_get r k
  end.

(** [s.map(d)] for a dictionary [d]: a cell that is not a key of [d]
    becomes missing. *)
Definition map_dict (s : Series) (d : list (string * string)) : Series :=
  plain (map (fun x => match x with
                       | VStr k => match dict_get d k with
                                   | Some v => VStr v
                                   | None => NaN
                                   end
                       | _ => NaN
                       end) (s_values s)).

(** [a + b] on two columns of one frame, and [a + k] with a scalar. *)
Definition add (a b : Series) : Series :=
  plain (map (fun p => vadd (fst p) (snd p)) (combine (s_values a) (s_values b))).

Definition add_scalar (a : Series) (k : value) : Series :=
  plain (map (fun x => vadd x k) (s_values a)).

Definition mul_scalar (a : Series) (k : value) : Series :=
  plain (map (fun x => vmul x k) (s_values a)).

(** [numpy.rint]: round to the nearest integer, halves to the even one. *)
Definition rint (x : Q) : Z :=
  let f := Qfloor x in
  match Qcompare (x - inject_Z f) (1 # 2) with
  | Lt => f
  | Gt => f + 1
  | Eq => if Z.even f then f else f + 1
  end.

Definition pow10 (d : nat) : Q := inject_Z (10 ^ Z.of_nat d).

(** [numpy.round(x, d)], computed as [rint(x * 10^d) / 10^d].  The model
    applies it to the exact value; the library applies it to a double,
    which on a tie of the exact value may lie on either side of the tie. *)
Definition round_decimals (d : nat) (x : Q) : Q :=
  Qred (inject_Z (rint (x * pow10 d)) / pow10 d).

Definition vround (d : nat) (v : value) : value :=
  match v with
  | VNum q => VNum (round_decimals d q)
  | other => other
  end.

(** [s.round(d)] *)
Definition round (s : Series) (d : nat) : Series :=
  mkSeries (s_dtype s) (map (vround d) (s_values s)).

(** [s == k] *)
Definition eq_scalar (s : Series) (k : value) : list bool :=
  map (fun x => value_eqb x k) (s_values s).

(** The row positions a boolean mask selects. *)
Fixpoint nonzero_from (i : nat) (mask : list bool) : list nat :=
  match mask with
  | [] => []
  | b :: r => if b then i :: nonzero_from (S i) r else nonzero_from (S i) r
  end.

Definition nonzero (mask : list bool) : list nat := nonzero_from 0 mask.

Definition take_values (vs : list value) (idx : list nat) : list value :=
  map (fun i => nth i vs NaN) idx.

(** [df.take(idx)]: the rows at the given positions, every column alike. *)
Definition take (df : DataFrame) (idx : list nat) : DataFrame :=
  map (fun cs => (fst cs, mkSeries (s_dtype (snd cs))
                            (take_values (s_values (snd cs)) idx))) df.

(** [df[mask]] *)
Definition getitem_mask (df : DataFrame) (mask : list bool) : DataFrame :=
  take df (nonzero mask).

(** [df.copy()]: frames are values here, a copy is the frame itself. *)
Definition copy (df : DataFrame) : DataFrame := df.

(** ** Binning *)

Fixpoint uniqQ (bs : list Q) : list Q :=
  match bs with
  | [] => []
  | b :: r => b :: filter (fun y => negb (Qeq_bool b y)) (uniqQ r)
  end.

Fixpoint is_monotonic_increasing (bs : list Q) : bool :=
  match bs with
  | a :: (b :: _) as r => Qle_bool a b && is_monotonic_increasing r
  | _ => true
  end.

Fixpoint nodup_labels (ls : list string) : bool :=
  match ls with
  | [] => true
  | l :: r => negb (existsb (String.eqb l) r) && nodup_labels r
  end.

(** [bins.searchsorted(x, side)] on ascending edges: the number of edges
    below [x], those equal to [x] included when [side] is ['right']. *)
Definition searchsorted (bins : list Q) (x : Q) (side_right : bool) : nat :=
  List.length
    (filter (fun b => if side_right then Qle_bool b x else negb (Qle_bool x b))
            bins).

(** The bin of one cell.  [ids == 0] and [ids == len(bins)] are outside
    every bin.  A cell without a numeric reading has no bin. *)
Definition bin_of (bins : list Q) (right include_lowest : bool)
    (labels : list string) (v : value) : value :=
  match to_Q v with
  | None => NaN
  | Some x =>
      let id0 := searchsorted bins x (negb right) in
      let id := match bins with
                | b0 :: _ => if include_lowest && Qeq_bool x b0 then 1%nat else id0
                | [] => id0
                end in
      if Nat.eqb id 0 || Nat.eqb id (List.length bins) then NaN
      else match nth_error labels (id - 1) with
           | Some l => VStr l
           | None => NaN
           end
  end.

(** The library's [_bins_to_cuts], for a list of labels. *)
Definition bins_to_cuts (x : list value) (bins : list Q)
    (right include_lowest : bool) (labels : list string)
    (duplicates_drop ordered : bool) : res Series :=
  let unique_bins := uniqQ bins in
  bins' <- (if Nat.ltb (List.length unique_bins) (List.length bins)
               && negb (Nat.eqb (List.length bins) 2)
            then if duplicates_drop then Ok unique_bins
                 else Raise (ValueError "Bin edges must be unique")
            else Ok bins) ;;
  if ordered && negb (nodup_labels labels) then
    Raise (ValueError "labels must be unique if ordered=True")
  else if negb (Nat.eqb (List.length labels) (List.length bins' - 1)) then
    Raise (ValueError "Bin labels must be one fewer than the number of bin edges")
  else
    Ok (mkSeries (Categorical labels)
          (map (bin_of bins' right include_lowest labels) x)).

(** [pd.cut(x, bins=[...], labels=[...], right=..., ordered=...,
    include_lowest=...)] with explicit edges. *)
Definition cut (x : Series) (bins : list Q) (labels : list string)
    (right ordered include_lowest : bool) : res Series :=
  if negb (is_monotonic_increasing bins) then
    Raise (ValueError "bins must increase monotonically.")
  else bins_to_cuts (s_values x) bins right include_lowest labels false ordered.

(** [numpy.linspace(a, b, n)], with exact edges. *)
Definition linspace (a b : Q) (n : nat) : list Q :=
  map (fun i => Qred (a + inject_Z (Z.of_nat i) * (b - a)
                          / inject_Z (Z.of_nat (n - 1))))
      (seq 0 n).

(** A quantile of an ascending, non-empty list by linear interpolation
    between the two nearest ranks. *)
Definition quantile (sorted : list Q) (q : Q) : Q :=
  let pos := (q * inject_Z (Z.of_nat (List.length sorted - 1)))%Q in
  let lo := Z.to_nat (Qfloor pos) in
  let frac := (pos - inject_Z (Qfloor pos))%Q in
  let a := nth lo sorted 0%Q in
  let b := nth (S lo) sorted a in
  Qred (a + frac * (b - a)).

(** [pd.qcut(x, q=n, labels=[...], duplicates=...)].  With no numeric cell
    every quantile is missing and the edges collapse to a single one. *)
Definition qcut (x : Series) (q : nat) (labels : list string)
    (duplicates_drop : bool) : res Series :=
  match sort Qle_bool (numeric (s_values x)) with
  | [] => if duplicates_drop
          then Raise (ValueError "Bin labels must be one fewer than the number of bin edges")
          else Raise (ValueError "Bin edges must be unique")
  | xs => bins_to_cuts (s_values x) (map (quantile xs) (linspace 0 1 (q + 1)))
            true true labels duplicates_drop true
  end.

Definition Qminimum (x : Q) (xs : list Q) : Q :=
  fold_right (fun a m => if Qle_bool a m then a else m) x xs.

Definition Qmaximum (x : Q) (xs : list Q) : Q :=
  fold_right (fun a m => if Qle_bool m a then a else m) x xs.

Definition Qabs' (x : Q) : Q := if Qle_bool 0 x then x else (- x)%Q.

Definition map_first (f : Q -> Q) (l : list Q) : list Q :=
  match l with
  | [] => []
  | a :: r => f a :: r
  end.

Definition map_last (f : Q -> Q) (l : list Q) : list Q :=
  rev (map_first f (rev l)).

(** The library's [_nbins_to_bins]: [nbins] equal-width bins over the range
    of the data, the range widened by 0.1% on one side (or on both sides
    when all cells are equal).  The edges are exact; in doubles the
    widening of a range of a few units in the last place can vanish. *)
Definition nbins_to_bins (xs : list Q) (nbins : nat) (right : bool) : list Q :=
  match xs with
  | [] => []
  | x0 :: r =>
      let mn := Qminimum x0 r in
      let mx := Qmaximum x0 r in
      if Qeq_bool mn mx then
        let mn' := (mn - (if Qeq_bool mn 0 then 1 # 1000 else (1 # 1000) * Qabs' mn))%Q in
        let mx' := (mx + (if Qeq_bool mx 0 then 1 # 1000 else (1 # 1000) * Qabs' mx))%Q in
        linspace mn' mx' (nbins + 1)
      else
        let bins := linspace mn mx (nbins + 1) in
        let adj := ((mx - mn) * (1 # 1000))%Q in
        if right then map_first (fun b => Qred (b - adj)) bins
        else map_last (fun b => Qred (b + adj)) bins
  end.

(** [pd.cut(x, bins=n, labels=[...])] with a number of bins.  A column
    with no cell cannot be cut; a column whose cells are all missing has
    missing edges, which are not distinct. *)
Definition cut_nbins (x : Series) (nbins : nat) (labels : list string) : res Series :=
  if Nat.ltb nbins 1 then Raise (ValueError "`bins` should be a positive integer.")
  else match s_values x with
  | [] => Raise (ValueError "Cannot cut empty array")
  | _ =>
      match numeric (s_values x) with
      | [] => Raise (ValueError "Bin edges must be unique")
      | xs => bins_to_cuts (s_values x) (nbins_to_bins xs nbins true)
                true false labels false true
      end
  end.

(** ** Grouping and counting *)

(** The group keys of [df.groupby(by_)]: missing keys are dropped; a plain
    column gives its distinct cells in ascending order, a categorical
    column its categories in their declared order -- all of them, or with
    [observed] only those that occur. *)
Definition group_keys (keys : Series) (observed : bool) : list value :=
  match s_dtype keys with
  | Categorical cats =>
      map VStr
        (if observed
         then filter (fun c => existsb (value_eqb (VStr c)) (s_values keys)) cats
         else cats)
  | Plain => sort value_leb (uniq (dropna (s_values keys)))
  end.

(** The cells of [vals] on the rows whose key is [k]. *)
Definition group_values (keys vals : list value) (k : value) : list value :=
  map snd (filter (fun p => value_eqb (fst p) k) (combine keys vals)).

(** [df.groupby(by_, observed=...)[col].mean().reset_index()], which is also
    [df.groupby(by_, observed=..., as_index=False)[col].mean()]: a frame
    with the key column [by_] and the column [col] of group means. *)
Definition groupby_mean (df : DataFrame) (by_ col : string) (observed : bool)
    : res DataFrame :=
  keys <- getitem df by_ ;;
  vals <- getitem df col ;;
  let ks := group_keys keys observed in
  Ok [ (by_, mkSeries (s_dtype keys) ks);
       (col, plain (map (fun k => mean_values
                                    (group_values (s_values keys) (s_values vals) k))
                        ks)) ].

(** Descending order on a column of numbers, missing cells last. *)
Definition desc_leb (a b : value) : bool :=
  match a, b with
  | _, NaN => true
  | NaN, _ => false
  | _, _ => value_leb b a
  end.

(** [df.sort_values(by=c, ascending=False)].  The library's default sort
    does not promise an order among rows with equal cells; the model keeps
    the order of the input there. *)
Definition sort_values_desc (df : DataFrame) (c : string) : res DataFrame :=
  s <- getitem df c ;;
  let vs := s_values s in
  Ok (take df (sort (fun i j => desc_leb (nth i vs NaN) (nth j vs NaN))
                    (seq 0 (List.length vs)))).

(** [s.value_counts()]: one entry per distinct non-missing cell -- and,
    for a categorical column, one entry per category, observed or not --
    by descending count. *)
Definition value_counts (s : Series) : list (value * nat) :=
  let xs := dropna (s_values s) in
  let ks := match s_dtype s with
            | Categorical cats => map VStr cats
            | Plain => uniq xs
            end in
  sort (fun a b => Nat.leb (snd b) (snd a))
       (map (fun k => (k, count k xs)) ks).

(** [counts.reset_index(name=n)] for the counts of column [c]: a frame
    with the categories under [c] (older library versions call that column
    ['index'], which the scripts rename to [c]) and the counts under [n]. *)
Definition reset_index_counts (c : string) (d : dtype) (n : string)
    (vc : list (value * nat)) : DataFrame :=
  [ (c, mkSeries d (map fst vc));
    (n, plain (map (fun kc => VInt (Z.of_nat (snd kc))) vc)) ].

(** [s.astype(str)] *)
Definition astype_str (s : Series) : Series := plain (map vstr (s_values s)).

End pd.

(* ================================================================== *)
(** * Figures

    What a chart-construction call hands to the renderer: the plotted
    data, the title, the bar-label template and the annotations.  Colours
    and layout are not modelled. *)

Inductive plot : Type :=
| NoPlot
| BarPlot (pts : list (value * value))
| HistPlot (traces : list (value * list value))
| PiePlot (wedges : list (string * nat)).

Record Figure : Type := mkFigure {
  fig_plot : plot;
  fig_title : string;
  fig_texttemplate : option string;
  fig_annotations : list string
}.

Module px.

Definition not_a_column (arg : string) : exn :=
  ValueError ("Value of '" ++ arg ++ "' is not the name of a column in 'data_frame'").

(** [px.bar(df, x=x, y=y, title=title)] *)
Definition bar (df : DataFrame) (x y title : string) : res Figure :=
  match lookup_col df x with
  | None => Raise (not_a_column "x")
  | Some xs =>
      match lookup_col df y with
      | None => Raise (not_a_column "y")
      | Some ys =>
          Ok (mkFigure (BarPlot (combine (s_values xs) (s_values ys))) title None [])
      end
  end.

(** [px.histogram(df, x=x, color=color, title=title)].  The rows are
    grouped by the colour column, rows with a missing colour left out:
    one trace per distinct colour, in order of first appearance, named by
    the colour and carrying the [x] cells of its rows, which the renderer
    counts.  When the colour column holds one distinct cell the library
    skips the grouping and gives a single trace with every row. *)
Definition histogram (df : DataFrame) (x color title : string) : res Figure :=
  match lookup_col df x with
  | None => Raise (not_a_column "x")
  | Some xs =>
      match lookup_col df color with
      | None => Raise (not_a_column "color")
      | Some cs =>
          let rows := combine (s_values cs) (s_values xs) in
          let groups :=
            match pd.unique (s_values cs) with
            | [u] => [(u, s_values xs)]
            | _ =>
                map (fun k =>
                       (k, map snd (filter (fun r => value_eqb k (fst r)) rows)))
                    (pd.uniq (pd.dropna (s_values cs)))
            end in
          Ok (mkFigure (HistPlot groups) title None [])
      end
  end.

(** [fig.update_traces(texttemplate=t)] *)
Definition update_traces (fig : Figure) (t : string) : Figure :=
  mkFigure (fig_plot fig) (fig_title fig) (Some t) (fig_annotations fig).

(** [go.Figure().add_annotation(text=t)] *)
Definition annotated_empty_figure (t : string) : Figure :=
  mkFigure NoPlot "" None [t].

End px.

(** The plotted data of a figure as a sequence of (category, value). *)
Definition fig_points (fig : Figure) : list (value * value) :=
  match fig_plot fig with
  | BarPlot pts => pts
  | _ => []
  end.

(* ================================================================== *)
(** * [src/app.py] *)

Module App.

(** Lines 12-17: the loader's exceptions are caught and replaced by
    [pd.DataFrame()], a frame without columns. *)
Definition load (dataset : res DataFrame) : DataFrame :=
  match dataset with
  | Ok df => df
  | Raise _ => []
  end.

Definition sex_labels : list (string * string) :=
  [("male", "Male"); ("female", "Female")].

Definition bins : list Q := [0%Q; 13%Q; 19%Q; 60%Q; 100%Q].
Definition labels : list string := ["Child"; "Teenager"; "Adult"; "Senior"].

Definition quartile_labels : list string := ["Q1 (Low)"; "Q2"; "Q3"; "Q4 (High)"].
Definition fallback_labels : list string := ["Low"; "Medium"; "High"].

(** Lines 41-47: quartile binning of the fares, with the equal-width
    fallback on [ValueError]. *)
Definition fare_group (df : DataFrame) : res Series :=
  try_except_ValueError
    (fare <- getitem df "fare" ;;
     pd.qcut fare 4 quartile_labels true)
    (fare <- getitem df "fare" ;;
     pd.cut_nbins fare 3 fallback_labels).

(** Lines 21-47, the body of [if not df.empty]. *)
Definition clean_and_engineer (df : DataFrame) : res DataFrame :=
  age <- getitem df "age" ;;
  let mean_age := pd.mean age in
  let df := setitem df "age" (pd.fillna age mean_age) in
  embarked <- getitem df "embarked" ;;
  most_common_embarked <- pd.at0 (pd.mode embarked) ;;
  let df := setitem df "embarked" (pd.fillna embarked most_common_embarked) in
  sex <- getitem df "sex" ;;
  let df := setitem df "sex_label" (pd.map_dict sex sex_labels) in
  age <- getitem df "age" ;;
  age_group <- pd.cut age bins labels false true true ;;
  let df := setitem df "age_group" age_group in
  sibsp <- getitem df "sibsp" ;;
  parch <- getitem df "parch" ;;
  let df := setitem df "family_size"
              (pd.add_scalar (pd.add sibsp parch) (VInt 1)) in
  fare_bins <- fare_group df ;;
  Ok (setitem df "fare_group" fare_bins).

(** Line 52: [df_after = df[df['survived'] == 1].copy()] *)
Definition df_after (df : DataFrame) : res DataFrame :=
  survived <- getitem df "survived" ;;
  Ok (pd.copy (pd.getitem_mask df (pd.eq_scalar survived (VInt 1)))).

(** Lines 19-52: the module's preparation of the loaded frame, giving the
    two module-level tables [df] and [df_after]. *)
Definition prepare (df : DataFrame) : res (DataFrame * DataFrame) :=
  df <- (if negb (empty df) then clean_and_engineer df else Ok df) ;;
  df_after <- df_after df ;;
  Ok (df, df_after).

Definition no_data : Figure :=
  px.annotated_empty_figure "No data available for this chart.".

Definition get_composition_fig (data_df : DataFrame) (feature title : string)
    : res Figure :=
  if empty data_df then Ok no_data
  else px.histogram data_df feature feature (title ++ " Distribution (Count)").

Section WithModuleState.
(** The module-level table [df], and the library's default for
    [observed] in [groupby] (false before version 3 of the library). *)
Variable df : DataFrame.
Variable observed_default : bool.

(** Lines 81-112.  The grouping reads the module-level [df]; the
    argument [data_df] is only tested for emptiness. *)
Definition get_survival_fig (data_df : DataFrame) (feature title : string)
    : res Figure :=
  if empty data_df then Ok no_data
  else
    survival_rate_df <- pd.groupby_mean df feature "survived" observed_default ;;
    survived <- getitem survival_rate_df "survived" ;;
    let survival_rate_df :=
      setitem survival_rate_df "survival_rate"
        (pd.round (pd.mul_scalar survived (VInt 100)) 2) in
    survival_rate_df <- pd.sort_values_desc survival_rate_df "survival_rate" ;;
    fig <- px.bar survival_rate_df feature "survival_rate"
             (title ++ " Survival Rate (%)") ;;
    Ok (px.update_traces fig "%{y:.1f}%").

Definition FEATURE_OPTIONS : list (string * (string * string)) :=
  [ ("Passenger Class", ("pclass", "Passenger Class"));
    ("Sex", ("sex_label", "Sex"));
    ("Age Group", ("age_group", "Age Group"));
    ("Embarked Location", ("embarked", "Embarked Location"));
    ("Family Size", ("family_size", "Family Size"));
    ("Fare Group", ("fare_group", "Fare Group")) ].

Fixpoint options_get (d : list (string * (string * string))) (k : string)
    : option (string * string) :=
  match d with
  | [] => None
  | (k', v) :: r => if String.eqb k' k then Some v else options_get r k
  end.

(** Lines 176-205, with the module-level [df_after]. *)
Definition update_graphs (df_after : DataFrame) (selected_feature_title : string)
    : res (Figure * Figure * Figure) :=
  match options_get FEATURE_OPTIONS selected_feature_title with
  | None => Raise (TypeError "cannot unpack non-iterable NoneType object")
  | Some (feature_col, display_title) =>
      fig_before <- get_composition_fig df feature_col display_title ;;
      fig_after <- get_composition_fig df_after feature_col display_title ;;
      fig_rate <- get_survival_fig df feature_col display_title ;;
      Ok (fig_before, fig_after, fig_rate)
  end.
End WithModuleState.

End App.

(* ================================================================== *)
(** * [src/titanic/app.py] *)

Module TitanicApp.

Definition sex_labels := App.sex_labels.
Definition bins := App.bins.
Definition labels := App.labels.
Definition quartile_labels := App.quartile_labels.

(** Lines 15-27: cleaning and feature engineering, run on whatever was
    loaded, and quartile binning without a fallback. *)
Definition clean_and_engineer (df : DataFrame) : res DataFrame :=
  age <- getitem df "age" ;;
  let mean_age := pd.mean age in
  let df := setitem df "age" (pd.fillna age mean_age) in
  embarked <- getitem df "embarked" ;;
  most_common_embarked <- pd.at0 (pd.mode embarked) ;;
  let df := setitem df "embarked" (pd.fillna embarked most_common_embarked) in
  sex <- getitem df "sex" ;;
  let df := setitem df "sex_label" (pd.map_dict sex sex_labels) in
  age <- getitem df "age" ;;
  age_group <- pd.cut age bins labels false true true ;;
  let df := setitem df "age_group" age_group in
  sibsp <- getitem df "sibsp" ;;
  parch <- getitem df "parch" ;;
  let df := setitem df "family_size"
              (pd.add_scalar (pd.add sibsp parch) (VInt 1)) in
  fare <- getitem df "fare" ;;
  fare_bins <- pd.qcut fare 4 quartile_labels true ;;
  Ok (setitem df "fare_group" fare_bins).

(** Line 32 *)
Definition df_after (df : DataFrame) : res DataFrame :=
  survived <- getitem df "survived" ;;
  Ok (pd.copy (pd.getitem_mask df (pd.eq_scalar survived (VInt 1)))).

(** Lines 12-32: the two module-level tables [df] and [df_after]. *)
Definition prepare (df : DataFrame) : res (DataFrame * DataFrame) :=
  df <- clean_and_engineer df ;;
  df_after <- df_after df ;;
  Ok (df, df_after).

(** Lines 37-41 *)
Definition calculate_survival_rate (data : DataFrame) (group_col : string)
    : res DataFrame :=
  grouped_df <- pd.groupby_mean data group_col "survived" true ;;
  survived <- getitem grouped_df "survived" ;;
  Ok (setitem grouped_df "survived" (pd.mul_scalar survived (VInt 100))).

(** Lines 45-71 *)
Definition get_composition_fig (data_df : DataFrame) (feature title subtitle : string)
    : res Figure :=
  col <- getitem data_df feature ;;
  let plot_df :=
    pd.reset_index_counts feature (s_dtype col) "Count" (pd.value_counts col) in
  plot_df <- (if String.eqb feature "pclass"
              then (c <- getitem plot_df feature ;;
                    Ok (setitem plot_df feature (pd.astype_str c)))
              else Ok plot_df) ;;
  px.bar plot_df feature "Count" (subtitle ++ ": Composition by " ++ title).

(** Lines 73-91 *)
Definition get_survival_fig (data_df : DataFrame) (feature title : string)
    : res Figure :=
  survival_df <- calculate_survival_rate data_df feature ;;
  survival_df <- (if String.eqb feature "pclass"
                  then (c <- getitem survival_df feature ;;
                        Ok (setitem survival_df feature (pd.astype_str c)))
                  else Ok survival_df) ;;
  fig <- px.bar survival_df feature "survived"
           ("3. RATE: Survival Rate (%) by " ++ title) ;;
  Ok (px.update_traces fig "%{y:.1f}%").

Definition FEATURE_OPTIONS : list (string * (string * string)) :=
  [ ("Passenger Class", ("pclass", "Passenger Class"));
    ("Sex", ("sex_label", "Sex"));
    ("Age Group", ("age_group", "Age Group"));
    ("Fare Quartile", ("fare_group", "Fare Quartile"));
    ("Family Size", ("family_size", "Family Size")) ].

(** Lines 165-196, with the module-level [df] and [df_after]. *)
Definition update_graphs (df df_after : DataFrame) (selected_feature_title : string)
    : res (Figure * Figure * Figure) :=
  match App.options_get FEATURE_OPTIONS selected_feature_title with
  | None => Raise (TypeError "cannot unpack non-iterable NoneType object")
  | Some (feature_col, display_title) =>
      fig_before <- get_composition_fig df feature_col display_title
                      "1. Total Population" ;;
      fig_after <- get_composition_fig df_after feature_col display_title
                     "2. Survivors Only" ;;
      fig_rate <- get_survival_fig df feature_col display_title ;;
      Ok (fig_before, fig_after, fig_rate)
  end.

End TitanicApp.

(* ================================================================== *)
(** * [src/titanic/graph.py] *)

Module Graph.

(** [plt.pie(sizes, labels=labels)]: the labels are attached to the sizes
    by position, and a label list of another length is rejected. *)
Definition pie (sizes : list nat) (labels : list string) : res Figure :=
  if negb (Nat.eqb (List.length sizes) (List.length labels)) then
    Raise (ValueError "'label' must be of length 'x'")
  else Ok (mkFigure (PiePlot (combine labels sizes)) "" None []).

(** Lines 8-18 *)
Definition Survival (data_df : DataFrame) : res Figure :=
  survived <- getitem data_df "survived" ;;
  let sizes := map snd (pd.value_counts survived) in
  let labels := ["Did not survive"; "Survived"] in
  fig <- pie sizes labels ;;
  Ok (mkFigure (fig_plot fig) "Survival Distribution" None []).

(** The size of the wedge carrying a given label, if there is one. *)
Definition wedge (fig : Figure) (label : string) : option nat :=
  match fig_plot fig with
  | PiePlot ws =>
      match find (fun w => String.eqb (fst w) label) ws with
      | Some w => Some (snd w)
      | None => None
      end
  | _ => None
  end.

End Graph.


(* ================================================================== *)
(** * [src/titanic/app1.py] *)

Module App1.

(** Lines 18-41: as in [src/titanic/app.py], with [include_lowest] left at
    its default in the binning of the ages. *)
Definition clean_and_engineer (df : DataFrame) : res DataFrame :=
  age <- getitem df "age" ;;
  let mean_age := pd.mean age in
  let df := setitem df "age" (pd.fillna age mean_age) in
  embarked <- getitem df "embarked" ;;
  most_common_embarked <- pd.at0 (pd.mode embarked) ;;
  let df := setitem df "embarked" (pd.fillna embarked most_common_embarked) in
  sex <- getitem df "sex" ;;
  let df := setitem df "sex_label" (pd.map_dict sex App.sex_labels) in
  age <- getitem df "age" ;;
  age_group <- pd.cut age App.bins App.labels false true false ;;
  let df := setitem df "age_group" age_group in
  sibsp <- getitem df "sibsp" ;;
  parch <- getitem df "parch" ;;
  let df := setitem df "family_size"
              (pd.add_scalar (pd.add sibsp parch) (VInt 1)) in
  fare <- getitem df "fare" ;;
  fare_bins <- pd.qcut fare 4 App.quartile_labels true ;;
  Ok (setitem df "fare_group" fare_bins).

(** Lines 45-56 *)
Definition calculate_survival_rate (data : DataFrame) (group_col : string)
    : res DataFrame :=
  grouped_df <- pd.groupby_mean data group_col "survived" true ;;
  survived <- getitem grouped_df "survived" ;;
  Ok (setitem grouped_df "survived" (pd.mul_scalar survived (VInt 100))).

(** Line 66: [women = df[df['sex'] == 'female']] *)
Definition women (df : DataFrame) : res DataFrame :=
  sex <- getitem df "sex" ;;
  Ok (pd.getitem_mask df (pd.eq_scalar sex (VStr "female"))).

(** The tables pre-calculated at module level, lines 59-67. *)
Record Precalculated : Type := mkPrecalculated {
  sex_df : DataFrame;
  age_df : DataFrame;
  pclass_df : DataFrame;
  fare_df : DataFrame;
  family_df : DataFrame;
  women_class_df : DataFrame
}.

Definition precalculate (df : DataFrame) : res Precalculated :=
  sex_df <- calculate_survival_rate df "sex_label" ;;
  age_df <- calculate_survival_rate df "age_group" ;;
  pclass_df <- calculate_survival_rate df "pclass" ;;
  fare_df <- calculate_survival_rate df "fare_group" ;;
  family_df <- calculate_survival_rate df "family_size" ;;
  women <- women df ;;
  women_class_df <- calculate_survival_rate women "pclass" ;;
  Ok (mkPrecalculated sex_df age_df pclass_df fare_df family_df women_class_df).

(** Lines 14-67: everything the module computes when it is loaded. *)
Definition startup (df : DataFrame) : res Precalculated :=
  df <- clean_and_engineer df ;;
  precalculate df.

(** Lines 72-167: the six chart functions. *)
Definition get_sex_survival_fig (data_df : DataFrame) : res Figure :=
  fig <- px.bar data_df "sex_label" "survived" "Survival Percentage by Sex" ;;
  Ok (px.update_traces fig "%{y:.1f}%").

Definition get_age_survival_fig (data_df : DataFrame) : res Figure :=
  fig <- px.bar data_df "age_group" "survived"
           "Survival Percentage by Age Group" ;;
  Ok (px.update_traces fig "%{y:.1f}%").

Definition get_women_class_survival_fig (data_df : DataFrame) : res Figure :=
  fig <- px.bar data_df "pclass" "survived"
           "Women Survival Percentage by Passenger Class" ;;
  Ok (px.update_traces fig "%{y:.1f}%").

Definition get_pclass_survival_fig (data_df : DataFrame) : res Figure :=
  fig <- px.bar data_df "pclass" "survived"
           "Survival Percentage by Passenger Class" ;;
  Ok (px.update_traces fig "%{y:.1f}%").

Definition get_fare_survival_fig (data_df : DataFrame) : res Figure :=
  fig <- px.bar data_df "fare_group" "survived"
           "Survival Percentage by Fare Quartile" ;;
  Ok (px.update_traces fig "%{y:.1f}%").

Definition get_family_size_survival_fig (data_df : DataFrame) : res Figure :=
  fig <- px.bar data_df "family_size" "survived"
           "Survival Percentage by Family Size" ;;
  Ok (px.update_traces fig "%{y:.1f}%").

(** Lines 173-180: each title with its chart function and its table. *)
Definition GRAPH_OPTIONS (p : Precalculated)
    : list (string * ((DataFrame -> res Figure) * DataFrame)) :=
  [ ("Survival by Sex", (get_sex_survival_fig, sex_df p));
    ("Survival by Age Group", (get_age_survival_fig, age_df p));
    ("Survival by Passenger Class", (get_pclass_survival_fig, pclass_df p));
    ("Women Survival by Passenger Class",
     (get_women_class_survival_fig, women_class_df p));
    ("Survival by Fare Quartile", (get_fare_survival_fig, fare_df p));
    ("Survival by Family Size", (get_family_size_survival_fig, family_df p)) ].

Fixpoint graph_options_get
    (d : list (string * ((DataFrame -> res Figure) * DataFrame))) (k : string)
    : option ((DataFrame -> res Figure) * DataFrame) :=
  match d with
  | [] => None
  | (k', v) :: r => if String.eqb k' k then Some v else graph_options_get r k
  end.

(** Lines 218-225 *)
Definition update_graph (p : Precalculated) (selected_graph_title : string)
    : res Figure :=
  match graph_options_get (GRAPH_OPTIONS p) selected_graph_title with
  | None => Raise (TypeError "cannot unpack non-iterable NoneType object")
  | Some (fig_func, data_to_plot) => fig_func data_to_plot
  end.

End App1.

(* ================================================================== *)
(** * [src/titanic/survival.py] *)

Module SurvivalPy.

(** One violin of the age chart: its legend name and the ages it is drawn
    over. *)
Record Violin : Type := mkViolin {
  violin_name : string;
  violin_x : list value
}.

Definition survived_map : list (Z * string) :=
  [(0, "Not survived (0)"); (1, "Survived (1)")].

Fixpoint survived_map_get (d : list (Z * string)) (v : value) : option string :=
  match d with
  | [] => None
  | (k, l) :: r => if value_eqb v (VInt k) then Some l else survived_map_get r v
  end.

(** [df['survived'].map(survived_map)]: a cell that is not a key of the
    dictionary becomes missing. *)
Definition map_survived (s : Series) : Series :=
  plain (map (fun x => match survived_map_get survived_map x with
                       | Some l => VStr l
                       | None => NaN
                       end) (s_values s)).

(** The body of the loop of lines 102-115 for one status: the known ages
    of the rows with that outcome, and a violin over them unless there is
    none. *)
Definition violin_of (df : DataFrame) (status : Z) : res (list Violin) :=
  survived <- getitem df "survived" ;;
  age <- getitem (pd.getitem_mask df (pd.eq_scalar survived (VInt status))) "age" ;;
  let subset := pd.dropna (s_values age) in
  if Nat.eqb (List.length subset) 0 then Ok []
  else Ok [mkViolin (match survived_map_get survived_map (VInt status) with
                     | Some l => l
                     | None => ""
                     end) subset].

(** Lines 91-126.  The frame passed in is modified in place: it gains the
    column [survived_label]; the function's result is the list of violins
    of the figure, and the frame is returned with it. *)
Definition get_age_distribution_fig (df : DataFrame)
    : res (list Violin * DataFrame) :=
  survived <- getitem df "survived" ;;
  let df := setitem df "survived_label" (map_survived survived) in
  v0 <- violin_of df 0 ;;
  v1 <- violin_of df 1 ;;
  Ok ((v0 ++ v1)%list, df).

End SurvivalPy.
(* ================================================================== *)
(** * Sample tables *)

Module Samples.

(** Five passengers; one age and one port are missing, two ports tie for
    the most frequent, and one passenger is exactly 100 years old. *)
Definition passengers : DataFrame :=
  [ ("survived", plain [VInt 0; VInt 1; VInt 1; VInt 0; VInt 1]);
    ("pclass",   plain [VInt 3; VInt 1; VInt 3; VInt 2; VInt 1]);
    ("sex",      plain [VStr "male"; VStr "female"; VStr "female";
                        VStr "male"; VStr "male"]);
    ("age",      plain [VNum 22; NaN; VNum 100; VNum 4; VNum (121 # 2)]);
    ("sibsp",    plain [VInt 1; VInt 1; VInt 0; VInt 0; VInt 2]);
    ("parch",    plain [VInt 0; VInt 0; VInt 0; VInt 1; VInt 2]);
    ("fare",     plain [VNum (29 # 4); VNum 71; VNum 8; VNum 53; VNum 10]);
    ("embarked", plain [VStr "S"; VStr "C"; NaN; VStr "S"; VStr "C"]) ].

(** Two passengers who paid the same fare. *)
Definition same_fare : DataFrame :=
  [ ("survived", plain [VInt 0; VInt 1]);
    ("pclass",   plain [VInt 3; VInt 3]);
    ("sex",      plain [VStr "male"; VStr "female"]);
    ("age",      plain [VNum 30; VNum 40]);
    ("sibsp",    plain [VInt 0; VInt 0]);
    ("parch",    plain [VInt 0; VInt 0]);
    ("fare",     plain [VNum 10; VNum 10]);
    ("embarked", plain [VStr "S"; VStr "S"]) ].

(** The schema of the data set with no passenger at all. *)
Definition no_rows : DataFrame :=
  map (fun c => (c, plain []))
      ["survived"; "pclass"; "sex"; "age"; "sibsp"; "parch"; "fare"; "embarked"].

(** The example of the rate operation: two men, one of whom survived, and
    one woman, who survived. *)
Definition three_rows : DataFrame :=
  [ ("sex_label", plain [VStr "Male"; VStr "Male"; VStr "Female"]);
    ("survived",  plain [VInt 0; VInt 1; VInt 1]) ].

(** Three third-class passengers, one survivor. *)
Definition one_in_three : DataFrame :=
  [ ("pclass",   plain [VInt 3; VInt 3; VInt 3]);
    ("survived", plain [VInt 0; VInt 1; VInt 0]) ].

(** A table in which nobody survived. *)
Definition nobody_survived : DataFrame :=
  [ ("survived", plain [VInt 0; VInt 0]) ].

End Samples.


(* ================================================================== *)
(** * Auxiliary definitions for the statements below *)

(** The frame reached after the steps the two scripts share (imputation,
    [sex_label], [age_group], [family_size]), as a function of the columns
    read on the way. *)
Definition engineered (df : DataFrame)
    (age embarked sex age_group sibsp parch : Series)
    (most_common_embarked : value) : DataFrame :=
  setitem
    (setitem
      (setitem
        (setitem
          (setitem df "age" (pd.fillna age (pd.mean age)))
          "embarked" (pd.fillna embarked most_common_embarked))
        "sex_label" (pd.map_dict sex App.sex_labels))
      "age_group" age_group)
    "family_size" (pd.add_scalar (pd.add sibsp parch) (VInt 1)).

(** [engineering df df']: [df'] is [df] after a successful run of the
    cleaning and feature-engineering steps of either script. *)
Inductive engineering (df : DataFrame) : DataFrame -> Prop :=
| Engineering (age embarked sex age_group sibsp parch fare fare_group : Series)
              (most_common_embarked : value) :
    lookup_col df "age" = Some age ->
    lookup_col df "embarked" = Some embarked ->
    lookup_col df "sex" = Some sex ->
    lookup_col df "sibsp" = Some sibsp ->
    lookup_col df "parch" = Some parch ->
    lookup_col df "fare" = Some fare ->
    pd.at0 (pd.mode embarked) = Ok most_common_embarked ->
    pd.cut (pd.fillna age (pd.mean age)) App.bins App.labels false true true
      = Ok age_group ->
    List.length (s_values fare_group) = List.length (s_values fare) ->
    engineering df
      (setitem (engineered df age embarked sex age_group sibsp parch
                           most_common_embarked)
               "fare_group" fare_group).

(** The test [survived == 1] on a row. *)
Definition survived_is_1 (r : list (string * value)) : bool :=
  value_eqb (row_get r "survived") (VInt 1).

(** The age bands in the words of the specification:
    [0,13) Child, [13,19) Teenager, [19,60) Adult, [60,100] Senior. *)
Definition age_band_spec (a : Q) : option string :=
  if Qle_bool 0 a && negb (Qle_bool 13 a) then Some "Child"
  else if Qle_bool 13 a && negb (Qle_bool 19 a) then Some "Teenager"
  else if Qle_bool 19 a && negb (Qle_bool 60 a) then Some "Adult"
  else if Qle_bool 60 a && Qle_bool a 100 then Some "Senior"
  else None.

(** The number of cells equal to 1. *)
Definition ones (vs : list value) : nat :=
  List.length (filter (fun v => value_eqb v (VInt 1)) vs).

(** The survival rate of category [k] in the words of the specification:
    100 times the share of rows with [survived == 1] among the rows of the
    category (in lowest terms). *)
Definition rate_spec (keys survived : list value) (k : value) : Q :=
  let group := pd.group_values keys survived k in
  Qred (100 * (inject_Z (Z.of_nat (ones group))
               / inject_Z (Z.of_nat (List.length group)))).

(** The rate that [src/app.py] plots for category [k] of the table [df]:
    the group mean of [survived], times 100, rounded to two decimals. *)
Definition app_rate (keys survived : list value) (k : value) : value :=
  pd.vround 2 (vmul (pd.mean_values (pd.group_values keys survived k)) (VInt 100)).

(** The rate that [src/titanic/app.py] plots: the group mean times 100. *)
Definition titanic_rate (keys survived : list value) (k : value) : value :=
  vmul (pd.mean_values (pd.group_values keys survived k)) (VInt 100).

Definition is_01 (v : value) : Prop := v = VInt 0 \/ v = VInt 1.

(** A number with at most two decimals: a whole number of hundredths. *)
Definition two_decimals (r : Q) : Prop := exists j : Z, (r == j # 100)%Q.

(** How far a value rounded to two decimals may lie from the exact value:
    half a hundredth, and a margin for the doubles that the code rounds
    (a few operations on numbers below 10^4, each exact to within one part
    in 2^53). *)
Definition rounding_distance : Q := (1 # 200) + (1 # 1000000000).

(** [r] is [x] rounded to two decimals. *)
Definition rounded_to_hundredths (x r : Q) : Prop :=
  two_decimals r /\
  (x - rounding_distance <= r)%Q /\ (r <= x + rounding_distance)%Q.

(** [most_common_least vals m]: [m] is a non-missing cell of the column,
    no non-missing cell occurs more often, and [m] sorts first among the
    cells that occur as often. *)
Definition most_common_least (vals : list value) (m : value) : Prop :=
  In m vals /\ notna m = true /\
  (forall v, In v vals -> notna v = true ->
             (pd.count v (pd.dropna vals) <= pd.count m (pd.dropna vals))%nat) /\
  (forall v, In v vals -> notna v = true ->
             pd.count v (pd.dropna vals) = pd.count m (pd.dropna vals) ->
             value_leb m v = true).


(** No two of the cells are equal. *)
Definition distinct (ks : list value) : Prop :=
  ForallOrdPairs (fun a b => value_eqb a b = false) ks.

(** The cells of a categorical column are categories of the column, or
    missing, and the categories are distinct. *)
Definition categorical_ok (cats : list string) (vals : list value) : Prop :=
  pd.nodup_labels cats = true /\
  forall v, In v vals -> notna v = true -> exists c, In c cats /\ v = VStr c.


(** The column that each chart of [src/titanic/app1.py] is about. *)
Definition graph_column (title : string) : string :=
  if String.eqb title "Survival by Sex" then "sex_label"
  else if String.eqb title "Survival by Age Group" then "age_group"
  else if String.eqb title "Survival by Fare Quartile" then "fare_group"
  else if String.eqb title "Survival by Family Size" then "family_size"
  else "pclass".

(** The table that each chart of [src/titanic/app1.py] is computed from:
    the prepared table, or its female rows for the chart about women. *)
Definition graph_table (df : DataFrame) (title : string) : res DataFrame :=
  if String.eqb title "Women Survival by Passenger Class" then App1.women df
  else Ok df.

(** The outcomes of the women of class [k], read off three columns of one
    table row by row. *)
Definition women_of_class (sex pclass survived : list value) (k : value)
    : list value :=
  map (fun r => snd (snd r))
      (filter (fun r => value_eqb (fst r) (VStr "female")
                        && value_eqb (fst (snd r)) k)
              (combine sex (combine pclass survived))).

(** All the ages drawn by the violins of a figure, violin after violin. *)
Definition drawn (violins : list SurvivalPy.Violin) : list value :=
  List.concat (map SurvivalPy.violin_x violins).
(* ================================================================== *)
(** * Frames: lookup, update, shape *)

Lemma bind_ok {A B : Type} (c : res A) (k : A -> res B) (b : B) :
  bind c k = Ok b -> exists a, c = Ok a /\ k a = Ok b.
Proof.
  destruct c as [a|e]; simpl; intros H; [exists a; auto | discriminate].
Qed.

Lemma getitem_ok (df : DataFrame) (c : string) (s : Series) :
  getitem df c = Ok s <-> lookup_col df c = Some s.
Proof.
  unfold getitem. destruct (lookup_col df c); split; intros H;
    inversion H; reflexivity.
Qed.

Lemma lookup_col_setitem (df : DataFrame) (c c' : string) (s : Series) :
  lookup_col (setitem df c s) c' =
  if String.eqb c c' then Some s else lookup_col df c'.
Proof.
  induction df as [|[n s0] rest IH]; simpl.
  - reflexivity.
  - destruct (String.eqb_spec n c) as [->|Hn]; simpl.
    + destruct (String.eqb c c'); reflexivity.
    + rewrite IH. destruct (String.eqb_spec n c') as [->|Hn'].
      * apply String.eqb_neq in Hn. rewrite String.eqb_sym in Hn.
        rewrite Hn. reflexivity.
      * reflexivity.
Qed.

(** Inversion of a successful monadic step, for the proofs below. *)
Ltac inv_bind H :=
  let a := fresh "a" in
  let Ha := fresh "Ha" in
  apply bind_ok in H; destruct H as (a & Ha & H).

(** Every column has as many cells as the frame has rows. *)
Definition well_formed (df : DataFrame) : bool :=
  forallb (fun cs => Nat.eqb (List.length (s_values (snd cs))) (nrows df)) df.

Lemma well_formed_lookup (df : DataFrame) (c : string) (s : Series) :
  well_formed df = true -> lookup_col df c = Some s ->
  List.length (s_values s) = nrows df.
Proof.
  unfold well_formed. generalize (nrows df) as n. intros n.
  induction df as [|[k s0] rest IH]; simpl; intros Hwf Hl.
  - discriminate.
  - apply andb_prop in Hwf. destruct Hwf as [H0 Hr].
    destruct (String.eqb k c).
    + inversion Hl; subst. apply Nat.eqb_eq. exact H0.
    + apply IH; assumption.
Qed.

Lemma forallb_setitem (n : nat) (df : DataFrame) (c : string) (s : Series) :
  forallb (fun cs => Nat.eqb (List.length (s_values (snd cs))) n) df = true ->
  List.length (s_values s) = n ->
  forallb (fun cs => Nat.eqb (List.length (s_values (snd cs))) n)
          (setitem df c s) = true.
Proof.
  intros Hwf Hs. induction df as [|[k s0] rest IH]; simpl in *.
  - rewrite Hs, Nat.eqb_refl. reflexivity.
  - apply andb_prop in Hwf. destruct Hwf as [H0 Hr].
    destruct (String.eqb k c); simpl.
    + rewrite Hs, Nat.eqb_refl. exact Hr.
    + rewrite H0. apply IH. exact Hr.
Qed.

Lemma nrows_setitem (df : DataFrame) (c : string) (s : Series) :
  List.length (s_values s) = nrows df -> nrows (setitem df c s) = nrows df.
Proof.
  destruct df as [|[k s0] rest]; simpl; intros H.
  - exact H.
  - destruct (String.eqb k c); simpl; [exact H | reflexivity].
Qed.

Lemma well_formed_setitem (df : DataFrame) (c : string) (s : Series) :
  well_formed df = true -> List.length (s_values s) = nrows df ->
  well_formed (setitem df c s) = true.
Proof.
  intros Hwf Hs. unfold well_formed. rewrite (nrows_setitem _ _ _ Hs).
  apply forallb_setitem; assumption.
Qed.

Lemma empty_nrows (df : DataFrame) : empty df = true <-> nrows df = 0%nat.
Proof.
  destruct df as [|[k s] rest]; simpl.
  - split; reflexivity.
  - apply Nat.eqb_eq.
Qed.

Lemma Qle_bool_false (x y : Q) : Qle_bool x y = false -> (y < x)%Q.
Proof.
  intros H. apply Qnot_le_lt. intros Hle.
  apply Qle_bool_iff in Hle. congruence.
Qed.

Lemma nth_error_combine {A B : Type} (l : list A) (l' : list B) (i : nat)
    (a : A) (b : B) :
  nth_error l i = Some a -> nth_error l' i = Some b ->
  nth_error (combine l l') i = Some (a, b).
Proof.
  revert l' i. induction l as [|x l IH]; intros [|y l'] [|i]; simpl;
    try discriminate.
  - intros H1 H2. inversion H1; inversion H2; reflexivity.
  - apply IH.
Qed.


(* ================================================================== *)
(** * Empty tables and binning failures *)

(** C8.  For an empty table -- no rows, or no columns -- both figure
    functions of [src/app.py] return the annotated figure without plotted
    data, whatever the module-level table and the feature are: the result
    is an empty sequence of points, and nothing is raised. *)
Theorem empty_table_gives_empty_figures :
  forall (df data_df : DataFrame) (observed_default : bool)
         (feature title : string),
    empty data_df = true ->
    App.get_composition_fig data_df feature title = Ok App.no_data /\
    App.get_survival_fig df observed_default data_df feature title
      = Ok App.no_data /\
    fig_plot App.no_data = NoPlot /\
    fig_points App.no_data = [].
Proof.
  intros df data_df obs feature title He.
  unfold App.get_composition_fig, App.get_survival_fig.
  rewrite He. repeat split; reflexivity.
Qed.

Lemma empty_table_gives_empty_figures_witness :
  empty Samples.no_rows = true /\
  App.get_composition_fig Samples.no_rows "pclass" "Passenger Class"
    = Ok App.no_data /\
  App.get_survival_fig Samples.passengers false Samples.no_rows
      "pclass" "Passenger Class" = Ok App.no_data.
Proof.
  split; [reflexivity|].
  destruct (empty_table_gives_empty_figures Samples.passengers Samples.no_rows
              false "pclass" "Passenger Class" eq_refl) as (H1 & H2 & _).
  split; assumption.
Defined.

(** C5.  The frame that [src/app.py] substitutes when loading fails has no
    columns, and preparing it raises [KeyError] at the selection of the
    survivors; [src/titanic/app.py] raises on a table without rows when it
    takes the first mode of the ports.  A table with the columns of the data
    set and no rows is prepared by [src/app.py] into two empty tables. *)
Theorem prepare_empty_table :
  App.prepare (App.load (Raise (ValueError "dataset unavailable")))
    = Raise (KeyError "survived") /\
  TitanicApp.prepare Samples.no_rows = Raise (KeyError "0") /\
  App.prepare Samples.no_rows = Ok (Samples.no_rows, Samples.no_rows).
Proof. repeat split; vm_compute; reflexivity. Qed.


(* ================================================================== *)
(** * Shapes are preserved by the preparation *)

Lemma bins_to_cuts_values (x : list value) (bins : list Q) (r il : bool)
    (labels : list string) (dd ord : bool) (s : Series) :
  pd.bins_to_cuts x bins r il labels dd ord = Ok s ->
  exists bins', s = mkSeries (Categorical labels)
                             (map (pd.bin_of bins' r il labels) x).
Proof.
  unfold pd.bins_to_cuts. intros H. inv_bind H.
  destruct (ord && negb (pd.nodup_labels labels)); [discriminate|].
  destruct (negb (Nat.eqb (List.length labels) (List.length a - 1)));
    [discriminate|].
  inversion H. exists a. reflexivity.
Qed.

Lemma bins_to_cuts_length (x : list value) (bins : list Q) (r il : bool)
    (labels : list string) (dd ord : bool) (s : Series) :
  pd.bins_to_cuts x bins r il labels dd ord = Ok s ->
  List.length (s_values s) = List.length x.
Proof.
  intros H. apply bins_to_cuts_values in H. destruct H as [b ->].
  simpl. apply length_map.
Qed.

Lemma cut_length (x : Series) (bins : list Q) (labels : list string)
    (r ord il : bool) (s : Series) :
  pd.cut x bins labels r ord il = Ok s ->
  List.length (s_values s) = List.length (s_values x).
Proof.
  unfold pd.cut. destruct (negb (pd.is_monotonic_increasing bins));
    [discriminate|]. apply bins_to_cuts_length.
Qed.

Lemma qcut_length (x : Series) (q : nat) (labels : list string) (dd : bool)
    (s : Series) :
  pd.qcut x q labels dd = Ok s ->
  List.length (s_values s) = List.length (s_values x).
Proof.
  unfold pd.qcut. destruct (pd.sort Qle_bool (pd.numeric (s_values x))).
  - destruct dd; discriminate.
  - apply bins_to_cuts_length.
Qed.

Lemma cut_nbins_length (x : Series) (n : nat) (labels : list string)
    (s : Series) :
  pd.cut_nbins x n labels = Ok s ->
  List.length (s_values s) = List.length (s_values x).
Proof.
  unfold pd.cut_nbins. destruct (Nat.ltb n 1); [discriminate|].
  destruct (s_values x) eqn:Hx; [discriminate|]. rewrite <- Hx.
  destruct (pd.numeric (s_values x)); [discriminate|].
  apply bins_to_cuts_length.
Qed.

Lemma fare_group_fare (df : DataFrame) (s : Series) :
  App.fare_group df = Ok s ->
  exists fare, lookup_col df "fare" = Some fare /\
               List.length (s_values s) = List.length (s_values fare).
Proof.
  unfold App.fare_group, getitem.
  destruct (lookup_col df "fare") as [fare|] eqn:Hf; simpl; [|discriminate].
  destruct (pd.qcut fare 4 App.quartile_labels true) as [s'|[k|m|m]] eqn:Hq;
    simpl; intros H; try discriminate; exists fare; split; trivial.
  - inversion H; subst. eapply qcut_length; eassumption.
  - eapply cut_nbins_length; eassumption.
Qed.

Ltac lookup_through :=
  repeat (rewrite lookup_col_setitem in *; simpl String.eqb in * );
  cbv iota in *.

Lemma App_clean_and_engineer_engineering (df df' : DataFrame) :
  App.clean_and_engineer df = Ok df' -> engineering df df'.
Proof.
  unfold App.clean_and_engineer. intros H.
  inv_bind H. rename a into age, Ha into Hage.
  inv_bind H. rename a into emb, Ha into Hemb.
  inv_bind H. rename a into m, Ha into Hm.
  inv_bind H. rename a into sex, Ha into Hsex.
  inv_bind H. rename a into age', Ha into Hage'.
  inv_bind H. rename a into ag, Ha into Hag.
  inv_bind H. rename a into sibsp, Ha into Hsibsp.
  inv_bind H. rename a into parch, Ha into Hparch.
  inv_bind H. rename a into fg, Ha into Hfg.
  apply getitem_ok in Hage, Hemb, Hsex, Hage', Hsibsp, Hparch.
  apply fare_group_fare in Hfg. destruct Hfg as (fare & Hfare & Hlen).
  lookup_through.
  inversion Hage'; subst age'. inversion H; subst df'.
  eapply Engineering; eauto.
Qed.

Lemma TitanicApp_clean_and_engineer_engineering (df df' : DataFrame) :
  TitanicApp.clean_and_engineer df = Ok df' -> engineering df df'.
Proof.
  unfold TitanicApp.clean_and_engineer. intros H.
  inv_bind H. rename a into age, Ha into Hage.
  inv_bind H. rename a into emb, Ha into Hemb.
  inv_bind H. rename a into m, Ha into Hm.
  inv_bind H. rename a into sex, Ha into Hsex.
  inv_bind H. rename a into age', Ha into Hage'.
  inv_bind H. rename a into ag, Ha into Hag.
  inv_bind H. rename a into sibsp, Ha into Hsibsp.
  inv_bind H. rename a into parch, Ha into Hparch.
  inv_bind H. rename a into fare, Ha into Hfare.
  inv_bind H. rename a into fg, Ha into Hfg.
  apply getitem_ok in Hage, Hemb, Hsex, Hage', Hsibsp, Hparch, Hfare.
  apply qcut_length in Hfg.
  lookup_through.
  inversion Hage'; subst age'. inversion H; subst df'.
  eapply Engineering; eauto.
Qed.

Lemma engineering_shape (df df' : DataFrame) :
  engineering df df' -> well_formed df = true ->
  well_formed df' = true /\ nrows df' = nrows df.
Proof.
  intros [age emb sex ag sibsp parch fare fg m
          Hage Hemb Hsex Hsibsp Hparch Hfare Hm Hcut Hfg] Hwf.
  unfold engineered.
  pose proof (well_formed_lookup _ _ _ Hwf Hage) as Lage.
  pose proof (well_formed_lookup _ _ _ Hwf Hemb) as Lemb.
  pose proof (well_formed_lookup _ _ _ Hwf Hsex) as Lsex.
  pose proof (well_formed_lookup _ _ _ Hwf Hsibsp) as Lsibsp.
  pose proof (well_formed_lookup _ _ _ Hwf Hparch) as Lparch.
  pose proof (well_formed_lookup _ _ _ Hwf Hfare) as Lfare.
  apply cut_length in Hcut. simpl in Hcut. rewrite length_map in Hcut.
  set (d1 := setitem df "age" _).
  assert (W1 : well_formed d1 = true /\ nrows d1 = nrows df).
  { split; [apply well_formed_setitem | apply nrows_setitem];
      simpl; rewrite ?length_map; auto. }
  set (d2 := setitem d1 "embarked" _).
  assert (W2 : well_formed d2 = true /\ nrows d2 = nrows df).
  { destruct W1 as [W1 N1]. rewrite <- N1.
    split; [apply well_formed_setitem | apply nrows_setitem];
      simpl; rewrite ?length_map; auto; congruence. }
  set (d3 := setitem d2 "sex_label" _).
  assert (W3 : well_formed d3 = true /\ nrows d3 = nrows df).
  { destruct W2 as [W2 N2]. rewrite <- N2.
    split; [apply well_formed_setitem | apply nrows_setitem];
      simpl; rewrite ?length_map; auto; congruence. }
  set (d4 := setitem d3 "age_group" _).
  assert (W4 : well_formed d4 = true /\ nrows d4 = nrows df).
  { destruct W3 as [W3 N3]. rewrite <- N3.
    split; [apply well_formed_setitem | apply nrows_setitem];
      auto; congruence. }
  set (d5 := setitem d4 "family_size" _).
  assert (W5 : well_formed d5 = true /\ nrows d5 = nrows df).
  { destruct W4 as [W4 N4]. rewrite <- N4.
    split; [apply well_formed_setitem | apply nrows_setitem];
      simpl; rewrite ?length_map, ?length_combine; auto; lia. }
  destruct W5 as [W5 N5]. rewrite <- N5.
  split; [apply well_formed_setitem | apply nrows_setitem];
    auto; congruence.
Qed.

(** The columns of the engineered frame that the claims talk about. *)
Lemma engineering_columns (df df' : DataFrame) :
  engineering df df' ->
  exists age embarked age_group m,
    lookup_col df "age" = Some age /\
    lookup_col df "embarked" = Some embarked /\
    pd.at0 (pd.mode embarked) = Ok m /\
    pd.cut (pd.fillna age (pd.mean age)) App.bins App.labels false true true
      = Ok age_group /\
    lookup_col df' "age" = Some (pd.fillna age (pd.mean age)) /\
    lookup_col df' "embarked" = Some (pd.fillna embarked m) /\
    lookup_col df' "age_group" = Some age_group /\
    lookup_col df' "survived" = lookup_col df "survived".
Proof.
  intros [age emb sex ag sibsp parch fare fg m
          Hage Hemb Hsex Hsibsp Hparch Hfare Hm Hcut Hfg].
  exists age, emb, ag, m. unfold engineered.
  repeat (rewrite lookup_col_setitem; simpl String.eqb; cbv iota).
  auto 10.
Qed.

(* ================================================================== *)
(** * Row selection *)

Section RowSelection.

Lemma map_nth_seq {A : Type} (l : list A) (d : A) :
  map (fun j => nth j l d) (seq 0 (List.length l)) = l.
Proof.
  induction l as [|x l IH]; simpl.
  - reflexivity.
  - f_equal. rewrite <- seq_shift, map_map. exact IH.
Qed.

Lemma nth_take_values (vs : list value) (idx : list nat) (j : nat) :
  (j < List.length idx)%nat ->
  nth j (pd.take_values vs idx) NaN = nth (nth j idx 0%nat) vs NaN.
Proof.
  intros Hj. unfold pd.take_values.
  rewrite (nth_indep _ NaN (nth 0 vs NaN)) by (rewrite length_map; exact Hj).
  apply (map_nth (fun i => nth i vs NaN)).
Qed.

Lemma row_at_take (df : DataFrame) (idx : list nat) (j : nat) :
  (j < List.length idx)%nat ->
  row_at (pd.take df idx) j = row_at df (nth j idx 0%nat).
Proof.
  intros Hj. unfold row_at, pd.take. rewrite map_map.
  apply map_ext. intros [c s]. simpl.
  rewrite nth_take_values by exact Hj. reflexivity.
Qed.

Lemma nrows_take (df : DataFrame) (idx : list nat) :
  df <> [] -> nrows (pd.take df idx) = List.length idx.
Proof.
  destruct df as [|[c s] rest]; [congruence|]. intros _. simpl.
  unfold pd.take_values. apply length_map.
Qed.

Lemma rows_take (df : DataFrame) (idx : list nat) :
  df <> [] -> rows (pd.take df idx) = map (row_at df) idx.
Proof.
  intros Hne. unfold rows. rewrite (nrows_take _ _ Hne).
  transitivity (map (row_at df)
                    (map (fun j => nth j idx 0%nat) (seq 0 (List.length idx)))).
  - rewrite map_map. apply map_ext_in. intros j Hj. apply in_seq in Hj.
    apply row_at_take. lia.
  - rewrite map_nth_seq. reflexivity.
Qed.

Lemma nonzero_from_filter (mask : list bool) (i : nat) :
  pd.nonzero_from i mask
  = filter (fun j => nth (j - i) mask false) (seq i (List.length mask)).
Proof.
  revert i. induction mask as [|b mask IH]; intros i; simpl.
  - reflexivity.
  - rewrite Nat.sub_diag. rewrite IH.
    assert (E : filter (fun j => nth (j - S i) mask false)
                       (seq (S i) (List.length mask))
              = filter (fun j => match (j - i)%nat with
                                 | O => b
                                 | S m => nth m mask false
                                 end)
                       (seq (S i) (List.length mask))).
    { apply filter_ext_in. intros j Hj. apply in_seq in Hj.
      replace (j - i)%nat with (S (j - S i)) by lia. reflexivity. }
    rewrite E. destruct b; reflexivity.
Qed.

Lemma nonzero_filter (mask : list bool) :
  pd.nonzero mask = filter (fun j => nth j mask false) (seq 0 (List.length mask)).
Proof.
  unfold pd.nonzero. rewrite nonzero_from_filter.
  apply filter_ext. intros j. rewrite Nat.sub_0_r. reflexivity.
Qed.

Lemma nonzero_all_true (mask : list bool) :
  forallb (fun b => b) mask = true ->
  pd.nonzero mask = seq 0 (List.length mask).
Proof.
  unfold pd.nonzero. generalize 0%nat.
  induction mask as [|b mask IH]; intros i H; simpl in *.
  - reflexivity.
  - apply andb_prop in H. destruct H as [-> H]. f_equal. apply IH. exact H.
Qed.

Lemma row_get_row_at (df : DataFrame) (c : string) (i : nat) :
  row_get (row_at df i) c
  = match lookup_col df c with
    | Some s => nth i (s_values s) NaN
    | None => NaN
    end.
Proof.
  unfold row_get, row_at.
  induction df as [|[k s] rest IH]; simpl.
  - reflexivity.
  - destruct (String.eqb k c); [reflexivity | exact IH].
Qed.

Lemma filter_map_swap {A B : Type} (f : A -> B) (p : B -> bool) (l : list A) :
  filter p (map f l) = map f (filter (fun a => p (f a)) l).
Proof.
  induction l as [|a l IH]; simpl; [reflexivity|].
  destruct (p (f a)); simpl; rewrite IH; reflexivity.
Qed.

Lemma lookup_col_take (df : DataFrame) (idx : list nat) (c : string) :
  lookup_col (pd.take df idx) c
  = option_map (fun s => mkSeries (s_dtype s) (pd.take_values (s_values s) idx))
               (lookup_col df c).
Proof.
  induction df as [|[k s] rest IH]; simpl.
  - reflexivity.
  - destruct (String.eqb k c); [reflexivity | exact IH].
Qed.

Lemma take_take_seq (df : DataFrame) (idx : list nat) :
  pd.take (pd.take df idx) (seq 0 (List.length idx)) = pd.take df idx.
Proof.
  unfold pd.take. rewrite map_map. apply map_ext. intros [c s]. simpl.
  f_equal. f_equal. unfold pd.take_values at 1.
  rewrite <- (length_map (fun i => nth i (s_values s) NaN) idx).
  apply map_nth_seq.
Qed.

(** Selecting the rows with [survived == 1] keeps exactly those rows, in
    their order, and selecting again changes nothing. *)
Lemma survivors_spec (df df_after : DataFrame) :
  well_formed df = true ->
  App.df_after df = Ok df_after ->
  rows df_after = filter survived_is_1 (rows df) /\
  App.df_after df_after = Ok df_after.
Proof.
  intros Hwf H. unfold App.df_after in H. inv_bind H.
  rename a into surv. apply getitem_ok in Ha. inversion H; subst df_after.
  clear H. unfold pd.copy, pd.getitem_mask.
  assert (Hne : df <> []) by (destruct df; [discriminate | congruence]).
  pose proof (well_formed_lookup _ _ _ Hwf Ha) as Hlen.
  set (mask := pd.eq_scalar surv (VInt 1)).
  assert (Hmask : forall j, nth j mask false
                            = value_eqb (nth j (s_values surv) NaN) (VInt 1)).
  { intros j. unfold mask, pd.eq_scalar.
    change false with ((fun x => value_eqb x (VInt 1)) NaN).
    apply map_nth. }
  split.
  - rewrite rows_take by exact Hne. unfold rows.
    rewrite filter_map_swap. f_equal.
    rewrite nonzero_filter. unfold mask at 2, pd.eq_scalar.
    rewrite length_map, Hlen.
    apply filter_ext. intros j. rewrite Hmask.
    unfold survived_is_1. rewrite row_get_row_at, Ha. reflexivity.
  - unfold App.df_after, getitem. rewrite lookup_col_take, Ha. simpl.
    unfold pd.copy, pd.getitem_mask.
    assert (Hidx : forall j, In j (pd.nonzero mask) ->
                     value_eqb (nth j (s_values surv) NaN) (VInt 1) = true).
    { intros j Hj. rewrite nonzero_filter in Hj. apply filter_In in Hj.
      destruct Hj as [_ Hj]. rewrite Hmask in Hj. exact Hj. }
    revert Hidx. generalize (pd.nonzero mask) as idx. intros idx Hidx.
    assert (E : pd.nonzero
                  (pd.eq_scalar
                     (mkSeries (s_dtype surv)
                               (pd.take_values (s_values surv) idx))
                     (VInt 1))
                = seq 0 (List.length idx)).
    { rewrite nonzero_all_true.
      - unfold pd.eq_scalar, pd.take_values. simpl.
        rewrite !length_map. reflexivity.
      - unfold pd.eq_scalar, pd.take_values. simpl. rewrite map_map.
        apply forallb_forall. intros b Hb.
        apply in_map_iff in Hb. destruct Hb as (j & <- & Hj).
        apply Hidx. exact Hj. }
    rewrite E, take_take_seq. reflexivity.
Qed.

End RowSelection.

(** C7.  In both scripts the survivors table consists of exactly the rows
    of the prepared table whose [survived] cell equals 1, in the same
    order, and selecting the rows with [survived == 1] from the survivors
    table gives the survivors table again. *)
Theorem survivors_table_round_trip :
  forall raw df df_after : DataFrame,
    well_formed raw = true ->
    App.prepare raw = Ok (df, df_after) \/
    TitanicApp.prepare raw = Ok (df, df_after) ->
    rows df_after = filter survived_is_1 (rows df) /\
    (forall r, In r (rows df_after) <->
               In r (rows df) /\ survived_is_1 r = true) /\
    App.df_after df = Ok df_after /\
    App.df_after df_after = Ok df_after /\
    TitanicApp.df_after df_after = Ok df_after.
Proof.
  intros raw df df_after Hwf H.
  assert (Hs : well_formed df = true /\ App.df_after df = Ok df_after).
  { destruct H as [H|H].
    - unfold App.prepare in H. inv_bind H. inv_bind H.
      inversion H; subst. split; [|exact Ha0].
      destruct (negb (empty raw)).
      + apply App_clean_and_engineer_engineering in Ha.
        apply (engineering_shape _ _ Ha Hwf).
      + inversion Ha; subst. exact Hwf.
    - unfold TitanicApp.prepare in H. inv_bind H. inv_bind H.
      inversion H; subst. split; [|exact Ha0].
      apply TitanicApp_clean_and_engineer_engineering in Ha.
      apply (engineering_shape _ _ Ha Hwf). }
  destruct Hs as [Hwf' Hs].
  destruct (survivors_spec _ _ Hwf' Hs) as [Hrows Hagain].
  repeat split; try assumption.
  - rewrite Hrows in H0. apply filter_In in H0. tauto.
  - rewrite Hrows in H0. apply filter_In in H0. tauto.
  - intros [Hin Hv]. rewrite Hrows. apply filter_In. split; assumption.
Qed.

Lemma survivors_table_round_trip_witness :
  exists df df_after,
    well_formed Samples.passengers = true /\
    App.prepare Samples.passengers = Ok (df, df_after) /\
    rows df_after = filter survived_is_1 (rows df) /\
    App.df_after df_after = Ok df_after.
Proof.
  eexists. eexists. split; [reflexivity|].
  split; [vm_compute; reflexivity|].
  pose proof (survivors_table_round_trip Samples.passengers _ _ eq_refl
                (or_introl eq_refl)) as H.
  split; [exact (proj1 H) | exact (proj1 (proj2 (proj2 (proj2 H))))].
Defined.
(* ================================================================== *)
(** * Fare groups *)

(** C3.  On a table whose fares are all equal the quartile edges collapse
    and the labelled quartile binning raises [ValueError].  [src/app.py]
    catches it and bins the fares into three equal-width bins, here with
    every fare in the middle one; [src/titanic/app.py] has no handler and
    the error reaches the caller. *)
Theorem fare_group_constant_fare :
  TitanicApp.prepare Samples.same_fare
    = Raise (ValueError "Bin labels must be one fewer than the number of bin edges") /\
  (exists df df_after,
     App.prepare Samples.same_fare = Ok (df, df_after) /\
     lookup_col df "fare_group"
       = Some (mkSeries (Categorical ["Low"; "Medium"; "High"])
                        [VStr "Medium"; VStr "Medium"])).
Proof.
  split.
  - vm_compute. reflexivity.
  - eexists. eexists. split; vm_compute; reflexivity.
Qed.

(* ================================================================== *)
(** * Age groups *)

Section AgeGroups.

(** The library's binning with the script's edges and flags, on one
    cell: left-closed, right-open bands, nothing at or above the last
    edge. *)
Lemma bin_of_age (a : Q) :
  pd.bin_of App.bins false true App.labels (VNum a)
  = if Qle_bool 0 a && negb (Qle_bool 13 a) then VStr "Child"
    else if Qle_bool 13 a && negb (Qle_bool 19 a) then VStr "Teenager"
    else if Qle_bool 19 a && negb (Qle_bool 60 a) then VStr "Adult"
    else if Qle_bool 60 a && negb (Qle_bool 100 a) then VStr "Senior"
    else NaN.
Proof.
  unfold pd.bin_of, pd.searchsorted, App.bins, App.labels, to_Q.
  cbn [negb filter andb].
  destruct (Qle_bool 0 a) eqn:H0; destruct (Qle_bool 13 a) eqn:H13;
    destruct (Qle_bool 19 a) eqn:H19; destruct (Qle_bool 60 a) eqn:H60;
    destruct (Qle_bool 100 a) eqn:H100;
    destruct (Qeq_bool a 0) eqn:Hz;
    try reflexivity;
    exfalso;
    repeat match goal with
           | H : Qle_bool _ _ = true |- _ => apply Qle_bool_iff in H
           | H : Qle_bool _ _ = false |- _ => apply Qle_bool_false in H
           | H : Qeq_bool _ _ = true |- _ => apply Qeq_bool_iff in H
           | H : Qeq_bool _ _ = false |- _ => clear H
           end; lra.
Qed.

Lemma bin_of_to_Q (v : value) (a : Q) :
  to_Q v = Some a ->
  pd.bin_of App.bins false true App.labels v
  = pd.bin_of App.bins false true App.labels (VNum a).
Proof.
  intros H. unfold pd.bin_of. rewrite H. reflexivity.
Qed.

Lemma cut_ages (x : Series) :
  pd.cut x App.bins App.labels false true true
  = Ok (mkSeries (Categorical App.labels)
                 (map (pd.bin_of App.bins false true App.labels) (s_values x))).
Proof. reflexivity. Qed.

Lemma prepared_engineering (raw df df_after : DataFrame) :
  App.prepare raw = Ok (df, df_after) \/
  TitanicApp.prepare raw = Ok (df, df_after) ->
  engineering raw df \/ (empty raw = true /\ df = raw).
Proof.
  intros [H|H].
  - unfold App.prepare in H. inv_bind H. inv_bind H. inversion H; subst.
    destruct (empty raw) eqn:He; simpl in Ha.
    + right. inversion Ha. auto.
    + left. apply App_clean_and_engineer_engineering. exact Ha.
  - unfold TitanicApp.prepare in H. inv_bind H. inv_bind H. inversion H; subst.
    left. apply TitanicApp_clean_and_engineer_engineering. exact Ha.
Qed.

Lemma cell_empty (df : DataFrame) (c : string) (i : nat) :
  well_formed df = true -> empty df = true -> cell df c i = None.
Proof.
  intros Hwf He. unfold cell.
  destruct (lookup_col df c) as [s|] eqn:Hs; [|reflexivity].
  pose proof (well_formed_lookup _ _ _ Hwf Hs) as Hl.
  apply empty_nrows in He. rewrite He in Hl.
  destruct (s_values s); [destruct i; reflexivity | discriminate].
Qed.

End AgeGroups.

(** C2 (as amended).  After preparation by either script, a row whose
    (possibly imputed) age lies in [0,100) has the age group of its band:
    [0,13) Child, [13,19) Teenager, [19,60) Adult, [60,100) Senior -- which
    on [0,100) is the band the specification names.  A row whose age is
    below 0, or 100 or more, has no age group. *)
Theorem age_group_bands :
  forall (raw df df_after : DataFrame) (i : nat) (v : value) (a : Q),
    well_formed raw = true ->
    App.prepare raw = Ok (df, df_after) \/
    TitanicApp.prepare raw = Ok (df, df_after) ->
    cell df "age" i = Some v ->
    to_Q v = Some a ->
    ((0 <= a)%Q -> (a < 100)%Q ->
       exists l, age_band_spec a = Some l /\
                 In l ["Child"; "Teenager"; "Adult"; "Senior"] /\
                 cell df "age_group" i = Some (VStr l)) /\
    ((a < 0)%Q \/ (100 <= a)%Q -> cell df "age_group" i = Some NaN).
Proof.
  intros raw df df_after i v a Hwf Hprep Hcell Hv.
  apply prepared_engineering in Hprep. destruct Hprep as [He|[He ->]].
  2:{ rewrite (cell_empty _ _ _ Hwf He) in Hcell. discriminate. }
  apply engineering_columns in He.
  destruct He as (age & emb & ag & m & _ & _ & _ & Hcut & Hage & _ & Hag & _).
  rewrite cut_ages in Hcut. inversion Hcut; subst ag; clear Hcut.
  unfold cell in *. rewrite Hage in Hcell. rewrite Hag.
  change (s_values (mkSeries (Categorical App.labels) ?l)) with l.
  unfold pd.fillna in Hcell. cbn [s_values] in Hcell.
  rewrite nth_error_map, Hcell. simpl option_map.
  rewrite (bin_of_to_Q _ _ Hv), bin_of_age. unfold age_band_spec.
  split.
  - intros H0 H100.
    destruct (Qle_bool 0 a) eqn:B0; destruct (Qle_bool 13 a) eqn:B13;
      destruct (Qle_bool 19 a) eqn:B19; destruct (Qle_bool 60 a) eqn:B60;
      destruct (Qle_bool 100 a) eqn:B100; destruct (Qle_bool a 100) eqn:C100;
      cbn [andb negb];
      try (eexists; split; [reflexivity|]; split; [simpl; tauto | reflexivity]);
      exfalso;
      repeat match goal with
             | H : Qle_bool _ _ = true |- _ => apply Qle_bool_iff in H
             | H : Qle_bool _ _ = false |- _ => apply Qle_bool_false in H
             end; lra.
  - intros Hout.
    destruct (Qle_bool 0 a) eqn:B0; destruct (Qle_bool 13 a) eqn:B13;
      destruct (Qle_bool 19 a) eqn:B19; destruct (Qle_bool 60 a) eqn:B60;
      destruct (Qle_bool 100 a) eqn:B100;
      cbn [andb negb]; try reflexivity;
      exfalso;
      repeat match goal with
             | H : Qle_bool _ _ = true |- _ => apply Qle_bool_iff in H
             | H : Qle_bool _ _ = false |- _ => apply Qle_bool_false in H
             end; lra.
Qed.

Lemma age_group_bands_witness :
  exists df df_after,
    well_formed Samples.passengers = true /\
    App.prepare Samples.passengers = Ok (df, df_after) /\
    cell df "age" 4 = Some (VNum (121 # 2)) /\
    cell df "age_group" 4 = Some (VStr "Senior").
Proof.
  eexists. eexists. split; [reflexivity|].
  split; [vm_compute; reflexivity|].
  split; [reflexivity|].
  destruct (proj1 (age_group_bands Samples.passengers _ _ 4 (VNum (121 # 2))
                     (121 # 2) eq_refl (or_introl eq_refl) eq_refl eq_refl))
    as (l & Hl & _ & Hc); [vm_compute; discriminate | reflexivity |].
  vm_compute in Hl. inversion Hl; subst l. exact Hc.
Defined.

(** C2, the claim as stated fails: the passenger aged exactly 100 falls in
    the band [60,100] of the specification, and the prepared table gives
    that row no age group. *)
Lemma age_100_is_not_senior :
  exists df df_after,
    App.prepare Samples.passengers = Ok (df, df_after) /\
    cell df "age" 2 = Some (VNum 100) /\
    age_band_spec 100 = Some "Senior" /\
    cell df "age_group" 2 = Some NaN /\
    cell df "age_group" 2 <> Some (VStr "Senior").
Proof.
  eexists. eexists. split; [vm_compute; reflexivity|].
  repeat split; try reflexivity. vm_compute. discriminate.
Qed.

(* ================================================================== *)
(** * Sorting permutes *)

Lemma insert_perm {A : Type} (leb : A -> A -> bool) (x : A) (l : list A) :
  Permutation (pd.insert leb x l) (x :: l).
Proof.
  induction l as [|y l IH]; simpl.
  - apply Permutation_refl.
  - destruct (leb x y).
    + apply Permutation_refl.
    + eapply perm_trans; [apply perm_skip, IH | apply perm_swap].
Qed.

Lemma sort_perm {A : Type} (leb : A -> A -> bool) (l : list A) :
  Permutation (pd.sort leb l) l.
Proof.
  induction l as [|x l IH]; simpl.
  - apply perm_nil.
  - eapply perm_trans; [apply insert_perm | apply perm_skip, IH].
Qed.

Lemma in_sort {A : Type} (leb : A -> A -> bool) (l : list A) (x : A) :
  In x (pd.sort leb l) <-> In x l.
Proof.
  split; apply Permutation_in;
    [apply sort_perm | apply Permutation_sym, sort_perm].
Qed.


(* ================================================================== *)
(** * Equality and order of cells *)

Section Cells.

Lemma value_eqb_sym (a b : value) : value_eqb a b = value_eqb b a.
Proof.
  destruct a, b; simpl; try reflexivity.
  - apply eq_true_iff_eq. rewrite !Qeq_bool_iff. split; apply Qeq_sym.
  - apply eq_true_iff_eq. rewrite !Qeq_bool_iff. split; apply Qeq_sym.
  - apply eq_true_iff_eq. rewrite !Qeq_bool_iff. split; apply Qeq_sym.
  - apply eq_true_iff_eq. rewrite !Qeq_bool_iff. split; apply Qeq_sym.
  - apply String.eqb_sym.
Qed.

Lemma value_eqb_refl (a : value) : notna a = true -> value_eqb a a = true.
Proof.
  destruct a; simpl; intros H; try discriminate.
  - apply Qeq_bool_iff. reflexivity.
  - apply Qeq_bool_iff. reflexivity.
  - apply String.eqb_refl.
Qed.

Lemma value_eqb_trans (a b c : value) :
  value_eqb a b = true -> value_eqb b c = true -> value_eqb a c = true.
Proof.
  destruct a, b, c; simpl; try discriminate;
    rewrite ?Qeq_bool_iff, ?String.eqb_eq;
    try (intros H1 H2; rewrite H1; exact H2).
Qed.


Lemma string_leb_trans (s1 s2 s3 : string) :
  String.leb s1 s2 = true -> String.leb s2 s3 = true -> String.leb s1 s3 = true.
Proof.
  unfold String.leb. intros H12 H23.
  destruct (String.compare s1 s2) eqn:C12; try discriminate;
    destruct (String.compare s2 s3) eqn:C23; try discriminate.
  - apply String.compare_eq_iff in C12. subst. rewrite C23. reflexivity.
  - apply String.compare_eq_iff in C12. subst. rewrite C23. reflexivity.
  - apply String.compare_eq_iff in C23. subst. rewrite C12. reflexivity.
  - apply String_as_OT.cmp_lt in C12, C23.
    pose proof (String_as_OT.lt_trans _ _ _ C12 C23) as C13.
    apply String_as_OT.cmp_lt in C13. unfold String_as_OT.cmp in C13.
    rewrite C13. reflexivity.
Qed.

Lemma Qle_bool_total (p q : Q) : Qle_bool p q = true \/ Qle_bool q p = true.
Proof.
  rewrite !Qle_bool_iff. destruct (Qlt_le_dec p q) as [H|H].
  - left. apply Qlt_le_weak. exact H.
  - right. exact H.
Qed.

Lemma value_leb_total (a b : value) :
  value_leb a b = true \/ value_leb b a = true.
Proof.
  destruct a, b; simpl; auto;
    try apply Qle_bool_total.
  apply String.leb_total.
Qed.

Lemma value_leb_trans (a b c : value) :
  value_leb a b = true -> value_leb b c = true -> value_leb a c = true.
Proof.
  destruct a, b, c; simpl; try discriminate; try reflexivity;
    rewrite ?Qle_bool_iff; try apply Qle_trans.
  apply string_leb_trans.
Qed.

Lemma value_leb_eqb (m k v : value) :
  value_leb m k = true -> value_eqb k v = true -> value_leb m v = true.
Proof.
  destruct m, k, v; simpl; try discriminate; try reflexivity;
    rewrite ?Qle_bool_iff, ?Qeq_bool_iff, ?String.eqb_eq;
    try (intros H1 H2; rewrite <- H2; exact H1).
Qed.

(** ** Sorting *)

Variable A : Type.
Variable leb : A -> A -> bool.
Hypothesis leb_total : forall a b, leb a b = true \/ leb b a = true.
Hypothesis leb_trans :
  forall a b c, leb a b = true -> leb b c = true -> leb a c = true.

Lemma insert_sorted (x : A) (l : list A) :
  Sorted (fun a b => leb a b = true) l ->
  Sorted (fun a b => leb a b = true) (pd.insert leb x l).
Proof.
  induction 1 as [|y l Hs IH Hd]; simpl.
  - constructor; constructor.
  - destruct (leb x y) eqn:Hxy.
    + constructor; [constructor; assumption | constructor; exact Hxy].
    + constructor; [exact IH|].
      destruct l as [|z l]; simpl.
      * constructor. destruct (leb_total x y); congruence.
      * destruct (leb x z); constructor.
        -- destruct (leb_total x y); congruence.
        -- inversion Hd; assumption.
Qed.

Lemma sort_sorted (l : list A) :
  Sorted (fun a b => leb a b = true) (pd.sort leb l).
Proof.
  induction l as [|x l IH]; simpl; [constructor | apply insert_sorted, IH].
Qed.

(** The head of a sorted list is below every element of the list. *)
Lemma sort_head_least (l : list A) (m : A) (rest : list A) (k : A) :
  pd.sort leb l = m :: rest -> In k l -> k = m \/ leb m k = true.
Proof.
  intros Hs Hk.
  assert (In k (m :: rest)) as Hin.
  { rewrite <- Hs. apply (Permutation_in k (Permutation_sym (sort_perm leb l))).
    exact Hk. }
  destruct Hin as [->|Hin]; [left; reflexivity | right].
  pose proof (sort_sorted l) as S. rewrite Hs in S.
  apply Sorted_StronglySorted in S.
  - apply StronglySorted_inv in S. destruct S as [_ F].
    rewrite Forall_forall in F. apply F. exact Hin.
  - intros a b c. apply leb_trans.
Qed.

End Cells.

(* ================================================================== *)
(** * Survival rates *)

Section Rates.

Lemma combine_take (ks ys : list value) (idx : list nat) :
  combine (pd.take_values ks idx) (pd.take_values ys idx)
  = map (fun i => (nth i ks NaN, nth i ys NaN)) idx.
Proof.
  unfold pd.take_values. induction idx as [|i idx IH]; simpl;
    [reflexivity | rewrite IH; reflexivity].
Qed.

Lemma combine_map_r {A B : Type} (f : A -> B) (l : list A) :
  combine l (map f l) = map (fun a => (a, f a)) l.
Proof.
  induction l as [|a l IH]; simpl; [reflexivity | rewrite IH; reflexivity].
Qed.

(** Points plotted after reordering the rows of a two-column table are the
    points of the table. *)
Lemma in_reordered (ks : list value) (f : value -> value) (perm : list nat)
    (k y : value) :
  (forall i, In i perm <-> In i (seq 0 (List.length ks))) ->
  In (k, y) (combine (pd.take_values ks perm)
                     (pd.take_values (map f ks) perm))
  <-> In k ks /\ y = f k.
Proof.
  intros Hperm. rewrite combine_take. rewrite in_map_iff. split.
  - intros (i & E & Hi). apply Hperm in Hi. apply in_seq in Hi.
    inversion E; subst. split.
    + apply nth_In. lia.
    + rewrite (nth_indep _ NaN (f NaN)) by (rewrite length_map; lia).
      apply map_nth.
  - intros [Hk ->]. destruct (In_nth _ _ NaN Hk) as (i & Hi & <-).
    exists i. split.
    + f_equal. rewrite (nth_indep _ NaN (f NaN)) by (rewrite length_map; lia).
      apply map_nth.
    + apply Hperm. apply in_seq. lia.
Qed.

Variable df : DataFrame.
Variable feature : string.
Variables keys survived : Series.
Hypothesis Hkeys : lookup_col df feature = Some keys.
Hypothesis Hsurvived : lookup_col df "survived" = Some survived.
Hypothesis Hfeature1 : String.eqb feature "survived" = false.
Hypothesis Hfeature2 : String.eqb feature "survival_rate" = false.

(** The figure of [src/app.py]: one bar per group key of the module-level
    table, carrying the rounded rate of that group. *)
Lemma App_survival_points (observed_default : bool) (data_df : DataFrame)
    (title : string) :
  empty data_df = false ->
  exists fig,
    App.get_survival_fig df observed_default data_df feature title = Ok fig /\
    forall k y,
      In (k, y) (fig_points fig) <->
      In k (pd.group_keys keys observed_default) /\
      y = app_rate (s_values keys) (s_values survived) k.
Proof.
  intros Hne. unfold App.get_survival_fig. rewrite Hne.
  unfold pd.groupby_mean, getitem. rewrite Hkeys, Hsurvived.
  cbn [bind lookup_col]. rewrite Hfeature1. cbn [String.eqb Ascii.eqb Bool.eqb].
  cbn [bind setitem]. rewrite Hfeature2.
  cbn [String.eqb Ascii.eqb Bool.eqb setitem].
  unfold pd.sort_values_desc, getitem.
  cbn [lookup_col]. rewrite Hfeature2.
  cbn [String.eqb Ascii.eqb Bool.eqb bind].
  unfold px.bar, pd.take. cbn [map lookup_col fst snd].
  rewrite String.eqb_refl. rewrite Hfeature2.
  cbn [String.eqb Ascii.eqb Bool.eqb bind].
  eexists. split; [reflexivity|].
  intros k y. unfold fig_points, px.update_traces. cbn [fig_plot s_values].
  unfold pd.round, pd.mul_scalar, plain. cbn [s_values s_dtype].
  rewrite !map_map.
  rewrite !length_map.
  apply (in_reordered (pd.group_keys keys observed_default)
           (fun k => app_rate (s_values keys) (s_values survived) k)).
  intros i. rewrite in_sort. reflexivity.
Qed.

(** The figure of [src/titanic/app.py]: one bar per observed group key of
    the table it is given, carrying the unrounded rate of that group; the
    passenger classes are shown as strings. *)
Lemma TitanicApp_survival_points (title : string) :
  exists fig,
    TitanicApp.get_survival_fig df feature title = Ok fig /\
    fig_points fig
    = map (fun k => (if String.eqb feature "pclass" then vstr k else k,
                     titanic_rate (s_values keys) (s_values survived) k))
          (pd.group_keys keys true).
Proof.
  unfold TitanicApp.get_survival_fig, TitanicApp.calculate_survival_rate.
  unfold pd.groupby_mean, getitem. rewrite Hkeys, Hsurvived.
  cbn [bind lookup_col]. rewrite Hfeature1.
  cbn [String.eqb Ascii.eqb Bool.eqb bind setitem]. rewrite Hfeature1.
  cbn [String.eqb Ascii.eqb Bool.eqb setitem].
  destruct (String.eqb feature "pclass") eqn:Hp.
  - cbn [bind lookup_col]. rewrite String.eqb_refl. cbn [bind setitem].
    unfold px.bar. cbn [lookup_col].
    rewrite String.eqb_refl, Hfeature1.
    cbn [String.eqb Ascii.eqb Bool.eqb bind].
    eexists. split; [reflexivity|].
    unfold fig_points, px.update_traces, pd.astype_str, pd.mul_scalar, plain.
    cbn [fig_plot s_values]. rewrite !map_map.
    generalize (pd.group_keys keys true) as ks.
    induction ks as [|k ks IH]; simpl; [reflexivity | rewrite IH; reflexivity].
  - cbn [bind]. unfold px.bar. cbn [lookup_col].
    rewrite String.eqb_refl, Hfeature1.
    cbn [String.eqb Ascii.eqb Bool.eqb bind].
    eexists. split; [reflexivity|].
    unfold fig_points, px.update_traces, pd.mul_scalar, plain.
    cbn [fig_plot s_values]. rewrite !map_map.
    apply combine_map_r.
Qed.

End Rates.

Lemma App_feature_columns (sel feature title : string) :
  App.options_get App.FEATURE_OPTIONS sel = Some (feature, title) ->
  String.eqb feature "survived" = false /\
  String.eqb feature "survival_rate" = false.
Proof.
  unfold App.FEATURE_OPTIONS. cbn [App.options_get]. intros H.
  repeat match type of H with
         | (if ?b then _ else _) = _ => destruct b
         end;
    inversion H; split; reflexivity.
Qed.

Lemma TitanicApp_feature_columns (sel feature title : string) :
  App.options_get TitanicApp.FEATURE_OPTIONS sel = Some (feature, title) ->
  String.eqb feature "survived" = false.
Proof.
  unfold TitanicApp.FEATURE_OPTIONS. cbn [App.options_get]. intros H.
  repeat match type of H with
         | (if ?b then _ else _) = _ => destruct b
         end;
    inversion H; reflexivity.
Qed.

(** C1 (as amended).  For every feature of the selection set, the rate
    figure shown by the callback of either script is computed from the
    full prepared table [df]: one bar per group of [df] by that feature,
    carrying 100 times the mean of [survived] over the group (rounded to
    two decimals in [src/app.py]).  In [src/app.py] the rate-figure function
    gives this figure whichever non-empty table it is passed.  In
    [src/titanic/app.py] the rate-figure function groups the table it is
    passed, and the callback passes [df]. *)
Theorem rate_is_computed_over_population :
  forall (df df_after : DataFrame) (observed_default : bool)
         (sel feature title : string) (keys survived : Series),
    lookup_col df feature = Some keys ->
    lookup_col df "survived" = Some survived ->
    empty df = false ->
    (App.options_get App.FEATURE_OPTIONS sel = Some (feature, title) ->
     exists fig,
       (forall data_df, empty data_df = false ->
          App.get_survival_fig df observed_default data_df feature title
            = Ok fig) /\
       (forall f1 f2 f3,
          App.update_graphs df observed_default df_after sel = Ok (f1, f2, f3) ->
          f3 = fig) /\
       (forall k y,
          In (k, y) (fig_points fig) <->
          In k (pd.group_keys keys observed_default) /\
          y = app_rate (s_values keys) (s_values survived) k)) /\
    (App.options_get TitanicApp.FEATURE_OPTIONS sel = Some (feature, title) ->
     exists fig,
       TitanicApp.get_survival_fig df feature title = Ok fig /\
       (forall f1 f2 f3,
          TitanicApp.update_graphs df df_after sel = Ok (f1, f2, f3) ->
          f3 = fig) /\
       fig_points fig
       = map (fun k => (if String.eqb feature "pclass" then vstr k else k,
                        titanic_rate (s_values keys) (s_values survived) k))
             (pd.group_keys keys true) /\
       (forall data_df keys' survived',
          lookup_col data_df feature = Some keys' ->
          lookup_col data_df "survived" = Some survived' ->
          exists fig',
            TitanicApp.get_survival_fig data_df feature title = Ok fig' /\
            fig_points fig'
            = map (fun k => (if String.eqb feature "pclass" then vstr k else k,
                             titanic_rate (s_values keys') (s_values survived') k))
                  (pd.group_keys keys' true))).
Proof.
  intros df df_after obs sel feature title keys survived Hk Hs Hne. split.
  - intros Hsel. destruct (App_feature_columns _ _ _ Hsel) as [F1 F2].
    destruct (App_survival_points df feature keys survived Hk Hs F1 F2
                obs df title Hne) as (fig & Hfig & Hpts).
    exists fig. split; [|split].
    + intros data_df Hd.
      unfold App.get_survival_fig in *. rewrite Hd. rewrite Hne in Hfig.
      exact Hfig.
    + intros f1 f2 f3 Hu. unfold App.update_graphs in Hu. rewrite Hsel in Hu.
      inv_bind Hu. inv_bind Hu. inv_bind Hu. inversion Hu; subst.
      rewrite Hfig in Ha1. inversion Ha1. reflexivity.
    + exact Hpts.
  - intros Hsel. pose proof (TitanicApp_feature_columns _ _ _ Hsel) as F1.
    destruct (TitanicApp_survival_points df feature keys survived Hk Hs F1 title)
      as (fig & Hfig & Hpts).
    exists fig. split; [exact Hfig|]. split; [|split].
    + intros f1 f2 f3 Hu. unfold TitanicApp.update_graphs in Hu.
      rewrite Hsel in Hu.
      inv_bind Hu. inv_bind Hu. inv_bind Hu. inversion Hu; subst.
      rewrite Hfig in Ha1. inversion Ha1. reflexivity.
    + exact Hpts.
    + intros data_df keys' survived' Hk' Hs'.
      apply (TitanicApp_survival_points data_df feature keys' survived'
               Hk' Hs' F1 title).
Qed.

Lemma rate_is_computed_over_population_witness :
  exists df df_after fig,
    App.prepare Samples.passengers = Ok (df, df_after) /\
    empty df = false /\
    App.options_get App.FEATURE_OPTIONS "Sex" = Some ("sex_label", "Sex") /\
    App.get_survival_fig df false df_after "sex_label" "Sex" = Ok fig /\
    App.get_survival_fig df false df "sex_label" "Sex" = Ok fig.
Proof.
  eexists. eexists.
  match goal with
  | |- exists fig, App.prepare ?raw = Ok (?df, ?da) /\ _ =>
      assert (P : App.prepare raw = Ok (df, da)) by (vm_compute; reflexivity)
  end.
  match type of P with
  | _ = Ok (?df, ?da) =>
      destruct (proj1 (rate_is_computed_over_population df da false
                         "Sex" "sex_label" "Sex" _ _ eq_refl eq_refl eq_refl)
                      eq_refl) as (fig & Hall & _)
  end.
  exists fig. split; [exact P|]. split; [reflexivity|].
  split; [reflexivity|]. split; apply Hall; reflexivity.
Defined.

(** C1, the claim as stated fails for [src/titanic/app.py]: passed the
    survivors table, its rate-figure function computes the rates over the
    survivors -- 100 for every category -- not over the population. *)
Lemma rate_over_survivors_when_passed :
  exists df df_after fig_population fig_survivors,
    TitanicApp.prepare Samples.passengers = Ok (df, df_after) /\
    TitanicApp.get_survival_fig df "sex_label" "Sex" = Ok fig_population /\
    TitanicApp.get_survival_fig df_after "sex_label" "Sex" = Ok fig_survivors /\
    fig_points fig_population
      = [(VStr "Female", VNum 100); (VStr "Male", VNum (100 # 3))] /\
    fig_points fig_survivors
      = [(VStr "Female", VNum 100); (VStr "Male", VNum 100)] /\
    fig_survivors <> fig_population.
Proof.
  eexists. eexists. eexists. eexists.
  split; [vm_compute; reflexivity|].
  split; [vm_compute; reflexivity|].
  split; [vm_compute; reflexivity|].
  split; [reflexivity|]. split; [reflexivity|]. discriminate.
Qed.

(* ================================================================== *)
(** * The survival pie chart *)

Section Pie.

Lemma dropna_01 (xs : list value) : Forall is_01 xs -> pd.dropna xs = xs.
Proof.
  induction 1 as [|x xs [->| ->] _ IH]; simpl; [reflexivity| |];
    unfold pd.dropna in *; simpl; rewrite IH; reflexivity.
Qed.

(** The distinct cells of a 0/1 column, by which outcomes occur. *)
Lemma uniq_01 (xs : list value) :
  Forall is_01 xs ->
  match pd.count (VInt 0) xs, pd.count (VInt 1) xs with
  | O, O => pd.uniq xs = []
  | S _, O => pd.uniq xs = [VInt 0]
  | O, S _ => pd.uniq xs = [VInt 1]
  | S _, S _ => pd.uniq xs = [VInt 0; VInt 1] \/ pd.uniq xs = [VInt 1; VInt 0]
  end.
Proof.
  induction 1 as [|x xs [->| ->] _ IH]; [reflexivity| |];
    unfold pd.count in *; cbn [filter pd.uniq];
    change (value_eqb (VInt 0) (VInt 0)) with true;
    change (value_eqb (VInt 1) (VInt 1)) with true;
    change (value_eqb (VInt 0) (VInt 1)) with false;
    change (value_eqb (VInt 1) (VInt 0)) with false;
    cbn [List.length];
    destruct (List.length (filter (value_eqb (VInt 0)) xs));
    destruct (List.length (filter (value_eqb (VInt 1)) xs));
    try destruct IH as [IH|IH]; rewrite IH; simpl; auto.
Qed.

End Pie.

(** With a single outcome there is one count for two labels, and the
    chart call raises. *)
Lemma Survival_single_outcome (data_df : DataFrame) (survived : Series) :
  lookup_col data_df "survived" = Some survived ->
  s_dtype survived = Plain ->
  Forall is_01 (s_values survived) ->
  pd.count (VInt 0) (s_values survived) = 0%nat \/
  pd.count (VInt 1) (s_values survived) = 0%nat ->
  Graph.Survival data_df = Raise (ValueError "'label' must be of length 'x'").
Proof.
  intros Hs Hd H01 Hz. pose proof (uniq_01 _ H01) as Hu.
  unfold Graph.Survival, getitem. rewrite Hs. cbn [bind].
  unfold pd.value_counts. rewrite Hd, (dropna_01 _ H01).
  destruct (pd.count (VInt 0) (s_values survived)) as [|m0];
    destruct (pd.count (VInt 1) (s_values survived)) as [|m1];
    try (exfalso; lia); rewrite Hu; reflexivity.
Qed.

(** C10 (as amended).  The pie chart attaches ['Did not survive'] to the
    first of the outcome counts in descending order, that is to the count
    of the more frequent outcome.  For every table of 0/1 outcomes in which
    both outcomes occur, the wedge labelled ['Did not survive'] has the size
    of the number of rows with [survived == 0] if and only if those rows
    are at least as many as the rows with [survived == 1]. *)
Theorem did_not_survive_wedge :
  forall (data_df : DataFrame) (survived : Series),
    lookup_col data_df "survived" = Some survived ->
    s_dtype survived = Plain ->
    Forall is_01 (s_values survived) ->
    let n0 := pd.count (VInt 0) (s_values survived) in
    let n1 := pd.count (VInt 1) (s_values survived) in
    (1 <= n0)%nat -> (1 <= n1)%nat ->
    exists fig,
      Graph.Survival data_df = Ok fig /\
      Graph.wedge fig "Did not survive" = Some (Nat.max n0 n1) /\
      (Graph.wedge fig "Did not survive" = Some n0 <-> (n1 <= n0)%nat).
Proof.
  intros data_df survived Hs Hd H01 n0 n1 P0 P1.
  pose proof (uniq_01 _ H01) as Hu. fold n0 n1 in Hu.
  unfold Graph.Survival, getitem. rewrite Hs. cbn [bind].
  unfold pd.value_counts. rewrite Hd, (dropna_01 _ H01). fold n0 n1.
  destruct n0 as [|m0] eqn:E0; [lia|]. destruct n1 as [|m1] eqn:E1; [lia|].
  destruct Hu as [Hu|Hu]; rewrite Hu; cbn [map pd.sort pd.insert snd];
    unfold n0, n1 in *; rewrite ?E0, ?E1; cbn [snd].
  - destruct (Nat.leb (S m1) (S m0)) eqn:L;
      [apply Nat.leb_le in L | apply Nat.leb_gt in L];
      (eexists; split; [reflexivity|]); cbn; split;
      try (f_equal; lia); split; intros H; try inversion H; try lia;
      try reflexivity.
  - destruct (Nat.leb (S m0) (S m1)) eqn:L;
      [apply Nat.leb_le in L | apply Nat.leb_gt in L];
      (eexists; split; [reflexivity|]); cbn; split;
      try (f_equal; lia); split; intros H; try inversion H; try lia;
      try (f_equal; lia).
Qed.

Lemma did_not_survive_wedge_witness :
  exists fig,
    Graph.Survival Samples.passengers = Ok fig /\
    Graph.wedge fig "Did not survive" = Some 3%nat.
Proof.
  destruct (did_not_survive_wedge Samples.passengers _ eq_refl eq_refl
              ltac:(repeat constructor;
                    (left; reflexivity) || (right; reflexivity)))
    as (fig & Hfig & Hw & _); [vm_compute; lia | vm_compute; lia |].
  exists fig. split; [exact Hfig | exact Hw].
Defined.

(** C10, the claim as stated fails: in a non-empty table where nobody
    survived, the rows with [survived == 0] are at least as many as the
    others, and yet no wedge labelled ['Did not survive'] has their number,
    because the chart call raises. *)
Lemma no_wedge_when_nobody_survived :
  empty Samples.nobody_survived = false /\
  (pd.count (VInt 1) [VInt 0; VInt 0] <= pd.count (VInt 0) [VInt 0; VInt 0])%nat /\
  Graph.Survival Samples.nobody_survived
    = Raise (ValueError "'label' must be of length 'x'") /\
  ~ (exists fig, Graph.Survival Samples.nobody_survived = Ok fig /\
                 Graph.wedge fig "Did not survive" = Some 2%nat).
Proof.
  split; [reflexivity|]. split; [vm_compute; lia|]. split; [reflexivity|].
  intros (fig & H & _). vm_compute in H. discriminate.
Qed.

(* ================================================================== *)
(** * Distinct cells, counts and the mode *)

Section Counting.

Lemma uniq_incl (xs : list value) (k : value) : In k (pd.uniq xs) -> In k xs.
Proof.
  induction xs as [|x xs IH]; simpl; [tauto|].
  intros [->|H]; [left; reflexivity|].
  apply filter_In in H. right. apply IH. tauto.
Qed.

Lemma uniq_cover (xs : list value) (v : value) :
  In v xs -> notna v = true ->
  exists k, In k (pd.uniq xs) /\ value_eqb k v = true.
Proof.
  intros Hin Hv. induction xs as [|x xs IH]; simpl in *; [tauto|].
  destruct Hin as [->|Hin].
  - exists v. split; [left; reflexivity | apply value_eqb_refl, Hv].
  - destruct (IH Hin) as (k & Hk & Hkv).
    destruct (value_eqb x k) eqn:Hxk.
    + exists x. split; [left; reflexivity|].
      eapply value_eqb_trans; eassumption.
    + exists k. split; [|exact Hkv]. right. apply filter_In.
      rewrite Hxk. split; [exact Hk | reflexivity].
Qed.

Lemma count_eqb (xs : list value) (a b : value) :
  value_eqb a b = true -> pd.count a xs = pd.count b xs.
Proof.
  intros Hab. unfold pd.count. f_equal. apply filter_ext. intros y.
  apply eq_true_iff_eq. split; intros H.
  - rewrite value_eqb_sym in Hab. eapply value_eqb_trans; eassumption.
  - eapply value_eqb_trans; eassumption.
Qed.

Lemma maximum_ge (ns : list nat) (n : nat) :
  In n ns -> (n <= pd.maximum ns)%nat.
Proof.
  induction ns as [|x ns IH]; simpl; [tauto|].
  intros [->|H]; [lia | specialize (IH H); lia].
Qed.

Lemma dropna_In (vals : list value) (v : value) :
  In v (pd.dropna vals) <-> In v vals /\ notna v = true.
Proof. unfold pd.dropna. apply filter_In. Qed.

(** What [s.mode()[0]] is, when it does not raise. *)
Lemma mode_at0 (s : Series) (m : value) :
  pd.at0 (pd.mode s) = Ok m -> most_common_least (s_values s) m.
Proof.
  unfold pd.at0, pd.mode. cbn [s_values].
  set (xs := pd.dropna (s_values s)).
  set (ks := pd.uniq xs).
  set (top := pd.maximum (map (fun k => pd.count k xs) ks)).
  set (tops := filter (fun k => Nat.eqb (pd.count k xs) top) ks).
  destruct (pd.sort value_leb tops) as [|m' rest] eqn:Hs; [discriminate|].
  intros H. inversion H; subst m'. clear H.
  assert (Hm : In m tops).
  { apply (Permutation_in m (sort_perm value_leb tops)). rewrite Hs. left.
    reflexivity. }
  apply filter_In in Hm. destruct Hm as [Hmk Hmc]. apply Nat.eqb_eq in Hmc.
  pose proof (uniq_incl _ _ Hmk) as Hmx. apply dropna_In in Hmx.
  destruct Hmx as [Hmv Hmn].
  assert (Hrep : forall v, In v (s_values s) -> notna v = true ->
                   exists k, In k ks /\ value_eqb k v = true /\
                             pd.count k xs = pd.count v xs).
  { intros v Hv Hn.
    destruct (uniq_cover xs v) as (k & Hk & Hkv);
      [apply dropna_In; auto | exact Hn |].
    exists k. repeat split; auto. apply count_eqb. exact Hkv. }
  unfold most_common_least. fold xs.
  split; [exact Hmv|]. split; [exact Hmn|]. split.
  - intros v Hv Hn. destruct (Hrep v Hv Hn) as (k & Hk & _ & Hc).
    rewrite <- Hc, Hmc. apply maximum_ge.
    apply in_map_iff. exists k. auto.
  - intros v Hv Hn Htie. destruct (Hrep v Hv Hn) as (k & Hk & Hkv & Hc).
    assert (Hkt : In k tops).
    { apply filter_In. split; [exact Hk|]. apply Nat.eqb_eq. congruence. }
    destruct (sort_head_least value value_leb value_leb_total value_leb_trans
                tops m rest k Hs Hkt) as [->|Hle].
    + destruct (value_leb_total m v) as [H|H]; [exact H|].
      rewrite value_eqb_sym in Hkv.
      destruct m, v; simpl in *; try discriminate; try reflexivity;
        rewrite ?Qle_bool_iff, ?Qeq_bool_iff in *;
        try (rewrite Hkv; apply Qle_refl).
      apply String.eqb_eq in Hkv. subst. exact H.
    + eapply value_leb_eqb; eassumption.
Qed.

End Counting.

(** C9 (as amended).  In both scripts the missing ports of embarkation of
    a non-empty table are filled with a most frequent non-missing port;
    when several ports are tied for most frequent, the one that sorts first
    is taken, wherever the tied ports stand in the rows. *)
Theorem embarked_filled_with_least_mode :
  forall raw df df_after : DataFrame,
    empty raw = false ->
    App.prepare raw = Ok (df, df_after) \/
    TitanicApp.prepare raw = Ok (df, df_after) ->
    exists embarked m,
      lookup_col raw "embarked" = Some embarked /\
      most_common_least (s_values embarked) m /\
      lookup_col df "embarked" = Some (pd.fillna embarked m) /\
      forall i v, cell raw "embarked" i = Some v ->
                  cell df "embarked" i = Some (if isna v then m else v).
Proof.
  intros raw df df_after Hne Hprep.
  apply prepared_engineering in Hprep. destruct Hprep as [He|[He _]];
    [|congruence].
  apply engineering_columns in He.
  destruct He as (age & emb & ag & m & _ & Hemb & Hm & _ & _ & Hemb' & _ & _).
  exists emb, m. split; [exact Hemb|]. split; [apply mode_at0; exact Hm|].
  split; [exact Hemb'|].
  intros i v. unfold cell. rewrite Hemb, Hemb'. unfold pd.fillna.
  cbn [s_values]. rewrite nth_error_map. intros ->. reflexivity.
Qed.

Lemma embarked_filled_with_least_mode_witness :
  exists df df_after,
    empty Samples.passengers = false /\
    App.prepare Samples.passengers = Ok (df, df_after) /\
    exists embarked m,
      lookup_col Samples.passengers "embarked" = Some embarked /\
      most_common_least (s_values embarked) m /\
      lookup_col df "embarked" = Some (pd.fillna embarked m) /\
      forall i v, cell Samples.passengers "embarked" i = Some v ->
                  cell df "embarked" i = Some (if isna v then m else v).
Proof.
  eexists. eexists. split; [reflexivity|].
  split; [vm_compute; reflexivity|].
  exact (embarked_filled_with_least_mode Samples.passengers _ _ eq_refl
           (or_introl eq_refl)).
Defined.

(** C9, the claim as stated fails: ['S'] and ['C'] both occur twice, ['S']
    is met first in row order, and the missing port is filled with ['C']. *)
Lemma embarked_tie_not_first_encountered :
  exists df df_after,
    App.prepare Samples.passengers = Ok (df, df_after) /\
    cell Samples.passengers "embarked" 0 = Some (VStr "S") /\
    cell Samples.passengers "embarked" 1 = Some (VStr "C") /\
    pd.count (VStr "S") [VStr "S"; VStr "C"; VStr "S"; VStr "C"] = 2%nat /\
    pd.count (VStr "C") [VStr "S"; VStr "C"; VStr "S"; VStr "C"] = 2%nat /\
    cell Samples.passengers "embarked" 2 = Some NaN /\
    cell df "embarked" 2 = Some (VStr "C") /\
    cell df "embarked" 2 <> Some (VStr "S").
Proof.
  eexists. eexists. split; [vm_compute; reflexivity|].
  repeat split; try reflexivity. vm_compute. discriminate.
Qed.

(* ================================================================== *)
(** * The value of a rate *)

Section RateValues.

Lemma group_values_01 (keys survived : list value) (k : value) :
  Forall is_01 survived -> Forall is_01 (pd.group_values keys survived k).
Proof.
  intros H. unfold pd.group_values. apply Forall_forall. intros v Hv.
  apply in_map_iff in Hv. destruct Hv as ([a b] & <- & Hin).
  apply filter_In in Hin. destruct Hin as [Hin _].
  apply in_combine_r in Hin. rewrite Forall_forall in H. apply H. exact Hin.
Qed.

Lemma numeric_01 (xs : list value) :
  Forall is_01 xs ->
  List.length (pd.numeric xs) = List.length xs /\
  (pd.Qsum (pd.numeric xs) == inject_Z (Z.of_nat (ones xs)))%Q.
Proof.
  induction 1 as [|x xs [->| ->] _ [IHl IHs]]; simpl.
  - split; reflexivity.
  - split; [rewrite IHl; reflexivity|].
    unfold pd.Qsum in *. simpl. rewrite IHs. unfold ones. simpl. ring.
  - split; [rewrite IHl; reflexivity|].
    unfold pd.Qsum in *. simpl. rewrite IHs. unfold ones. simpl.
    rewrite Zpos_P_of_succ_nat. unfold Z.succ. rewrite inject_Z_plus. ring.
Qed.

(** On a non-empty group of 0/1 outcomes, 100 times the mean is the rate
    of the specification. *)
Lemma rate_of_group (keys survived : list value) (k : value) :
  Forall is_01 survived ->
  pd.group_values keys survived k <> [] ->
  titanic_rate keys survived k = VNum (rate_spec keys survived k).
Proof.
  intros H01 Hne. unfold titanic_rate, rate_spec, pd.mean_values.
  set (g := pd.group_values keys survived k) in *.
  pose proof (numeric_01 g (group_values_01 keys survived k H01)) as [Hl Hs].
  destruct (pd.numeric g) as [|q qs] eqn:Hn.
  - destruct g; [congruence | discriminate].
  - cbn [vmul to_Q]. f_equal. apply Qred_complete.
    rewrite Qred_correct, Hs, Hl. ring.
Qed.

Lemma rate_of_empty_group (keys survived : list value) (k : value) :
  pd.group_values keys survived k = [] ->
  titanic_rate keys survived k = NaN /\ app_rate keys survived k = NaN.
Proof.
  intros He. unfold app_rate, titanic_rate. rewrite He. split; reflexivity.
Qed.

Lemma app_rate_of_group (keys survived : list value) (k : value) :
  Forall is_01 survived ->
  pd.group_values keys survived k <> [] ->
  app_rate keys survived k
  = VNum (pd.round_decimals 2 (rate_spec keys survived k)).
Proof.
  intros H01 Hne. pose proof (rate_of_group keys survived k H01 Hne) as H.
  unfold app_rate. unfold titanic_rate in H. rewrite H. reflexivity.
Qed.

Lemma calculate_survival_rate_rows (df : DataFrame) (feature : string)
    (keys survived : Series) :
  lookup_col df feature = Some keys ->
  lookup_col df "survived" = Some survived ->
  String.eqb feature "survived" = false ->
  TitanicApp.calculate_survival_rate df feature
  = Ok [ (feature, mkSeries (s_dtype keys) (pd.group_keys keys true));
         ("survived",
          plain (map (titanic_rate (s_values keys) (s_values survived))
                     (pd.group_keys keys true))) ].
Proof.
  intros Hk Hs Hf. unfold TitanicApp.calculate_survival_rate.
  unfold pd.groupby_mean, getitem. rewrite Hk, Hs.
  cbn [bind lookup_col]. rewrite Hf.
  cbn [String.eqb Ascii.eqb Bool.eqb bind setitem]. rewrite Hf.
  cbn [String.eqb Ascii.eqb Bool.eqb setitem].
  unfold pd.mul_scalar, plain. cbn [s_values]. rewrite map_map. reflexivity.
Qed.

(** The nearest integer is at most one half away. *)
Lemma rint_near (y : Q) :
  (inject_Z (pd.rint y) - y <= 1 # 2)%Q /\ (y - inject_Z (pd.rint y) <= 1 # 2)%Q.
Proof.
  unfold pd.rint.
  pose proof (Qfloor_le y) as Hf. pose proof (Qlt_floor y) as Hf'.
  rewrite inject_Z_plus in Hf'. change (inject_Z 1) with 1%Q in Hf'.
  destruct (Qcompare (y - inject_Z (Qfloor y)) (1 # 2)) eqn:C.
  - apply Qeq_alt in C. destruct (Z.even (Qfloor y)).
    + split; lra.
    + rewrite inject_Z_plus. change (inject_Z 1) with 1%Q. split; lra.
  - apply Qlt_alt in C. split; lra.
  - apply Qgt_alt in C. rewrite inject_Z_plus. change (inject_Z 1) with 1%Q.
    split; lra.
Qed.

Lemma Qdiv_100 (x : Q) : (x / 100 == x * (1 # 100))%Q.
Proof. field. Qed.

(** Rounding to two decimals gives a whole number of hundredths at most
    half a hundredth away. *)
Lemma round_2_rounded (x : Q) : rounded_to_hundredths x (pd.round_decimals 2 x).
Proof.
  unfold rounded_to_hundredths, two_decimals, rounding_distance,
    pd.round_decimals.
  change (pd.pow10 2) with 100%Q.
  destruct (rint_near (x * 100)) as [H1 H2].
  set (j := pd.rint (x * 100)) in *.
  split.
  - exists j. rewrite Qred_correct, Qdiv_100.
    unfold Qeq, Qmult, inject_Z. cbn [Qnum Qden]. lia.
  - rewrite Qred_correct, Qdiv_100. split; lra.
Qed.

Lemma app_rate_rounded (keys survived : list value) (k : value) :
  Forall is_01 survived ->
  pd.group_values keys survived k <> [] ->
  exists r, app_rate keys survived k = VNum r /\
            rounded_to_hundredths (rate_spec keys survived k) r.
Proof.
  intros H01 Hne. eexists. split.
  - apply app_rate_of_group; assumption.
  - apply round_2_rounded.
Qed.

(** A row with a known key puts a cell in the group of every key equal to
    its own. *)
Lemma row_in_group (keys survived : list value) (i : nat) (v s k : value) :
  nth_error keys i = Some v ->
  nth_error survived i = Some s ->
  value_eqb k v = true ->
  pd.group_values keys survived k <> [].
Proof.
  intros Hv Hs Hk. unfold pd.group_values.
  pose proof (nth_error_combine _ _ _ _ _ Hv Hs) as Hc.
  apply nth_error_In in Hc.
  assert (Hin : In (v, s) (filter (fun p => value_eqb (fst p) k)
                                  (combine keys survived))).
  { apply filter_In. split; [exact Hc|]. cbn [fst].
    rewrite value_eqb_sym. exact Hk. }
  destruct (filter _ (combine keys survived)); [destruct Hin | discriminate].
Qed.

(** Every known cell of the key column has its group key. *)
Lemma group_keys_cover (keys : Series) (observed : bool) (v : value) :
  (forall cats, s_dtype keys = Categorical cats ->
                categorical_ok cats (s_values keys)) ->
  In v (s_values keys) -> notna v = true ->
  exists k, In k (pd.group_keys keys observed) /\ value_eqb k v = true.
Proof.
  intros Hcat Hv Hn. unfold pd.group_keys.
  destruct (s_dtype keys) as [|cats] eqn:Hd.
  - destruct (uniq_cover (pd.dropna (s_values keys)) v) as (k & Hk & Hkv);
      [apply dropna_In; auto | exact Hn |].
    exists k. split; [apply in_sort; exact Hk | exact Hkv].
  - destruct (Hcat cats eq_refl) as [_ Hcells].
    destruct (Hcells v Hv Hn) as (c & Hc & ->).
    exists (VStr c). split; [|apply String.eqb_refl].
    apply in_map. destruct observed; [|exact Hc].
    apply filter_In. split; [exact Hc|].
    apply existsb_exists. exists (VStr c). split; [exact Hv|].
    apply String.eqb_refl.
Qed.

End RateValues.

(** C4 (as amended).  For every table with 0/1 outcomes and every feature
    column, the rate operation gives every category that has rows a value:
    100 times the mean of [survived] over the rows of the category.
    [src/titanic/app.py] does not round it.  [src/app.py] rounds it to two
    decimals: the value is a whole number of hundredths at most half a
    hundredth (and the rounding error of the doubles) away from the exact
    percentage, so that on a tie of the exact percentage either neighbour
    may come out.  For the rows (Male,0), (Male,1), (Female,1) both give 50
    for Male and 100 for Female. *)
Theorem survival_rate_values :
  forall (df : DataFrame) (feature : string) (keys survived : Series),
    lookup_col df feature = Some keys ->
    lookup_col df "survived" = Some survived ->
    String.eqb feature "survived" = false ->
    String.eqb feature "survival_rate" = false ->
    Forall is_01 (s_values survived) ->
    (forall cats, s_dtype keys = Categorical cats ->
                  categorical_ok cats (s_values keys)) ->
    (forall observed_default data_df title,
       empty data_df = false ->
       exists fig,
         App.get_survival_fig df observed_default data_df feature title = Ok fig /\
         (forall i v s,
            cell df feature i = Some v -> cell df "survived" i = Some s ->
            notna v = true ->
            exists k r,
              In (k, VNum r) (fig_points fig) /\ value_eqb k v = true /\
              rounded_to_hundredths
                (rate_spec (s_values keys) (s_values survived) k) r) /\
         (forall k y,
            In (k, y) (fig_points fig) ->
            pd.group_values (s_values keys) (s_values survived) k <> [] ->
            exists r,
              y = VNum r /\
              rounded_to_hundredths
                (rate_spec (s_values keys) (s_values survived) k) r)) /\
    (exists rates,
       TitanicApp.calculate_survival_rate df feature
         = Ok [ (feature, mkSeries (s_dtype keys) (pd.group_keys keys true));
                ("survived", plain rates) ] /\
       (forall i v s,
          cell df feature i = Some v -> cell df "survived" i = Some s ->
          notna v = true ->
          exists k,
            In (k, VNum (rate_spec (s_values keys) (s_values survived) k))
               (combine (pd.group_keys keys true) rates) /\
            value_eqb k v = true) /\
       (forall k y,
          In (k, y) (combine (pd.group_keys keys true) rates) ->
          pd.group_values (s_values keys) (s_values survived) k <> [] ->
          y = VNum (rate_spec (s_values keys) (s_values survived) k))) /\
    (exists fig,
       App.get_survival_fig Samples.three_rows false Samples.three_rows
         "sex_label" "Sex" = Ok fig /\
       fig_points fig = [(VStr "Female", VNum 100); (VStr "Male", VNum 50)]) /\
    TitanicApp.calculate_survival_rate Samples.three_rows "sex_label"
      = Ok [ ("sex_label", plain [VStr "Female"; VStr "Male"]);
             ("survived", plain [VNum 100; VNum 50]) ].
Proof.
  intros df feature keys survived Hk Hs F1 F2 H01 Hcat.
  unfold cell. rewrite Hk, Hs.
  split; [|split; [|split]].
  - intros obs data_df title Hne.
    destruct (App_survival_points df feature keys survived Hk Hs F1 F2
                obs data_df title Hne) as (fig & Hfig & Hpts).
    exists fig. split; [exact Hfig|]. split.
    + intros i v s Hv Hsv Hn.
      destruct (group_keys_cover keys obs v Hcat
                  (nth_error_In _ _ Hv) Hn) as (k & Hkin & Hkv).
      pose proof (row_in_group _ _ _ _ _ _ Hv Hsv Hkv) as Hg.
      destruct (app_rate_rounded _ _ k H01 Hg) as (r & Hr & Hround).
      exists k, r. split; [|split; [exact Hkv | exact Hround]].
      apply Hpts. split; [exact Hkin | symmetry; exact Hr].
    + intros k y Hin Hg. apply Hpts in Hin. destruct Hin as [_ ->].
      apply app_rate_rounded; assumption.
  - eexists. split; [|split].
    + apply calculate_survival_rate_rows; eassumption.
    + intros i v s Hv Hsv Hn.
      destruct (group_keys_cover keys true v Hcat
                  (nth_error_In _ _ Hv) Hn) as (k & Hkin & Hkv).
      pose proof (row_in_group _ _ _ _ _ _ Hv Hsv Hkv) as Hg.
      exists k. split; [|exact Hkv].
      rewrite combine_map_r. apply in_map_iff. exists k.
      split; [|exact Hkin]. f_equal. apply rate_of_group; assumption.
    + intros k y Hin Hg. rewrite combine_map_r in Hin.
      apply in_map_iff in Hin. destruct Hin as (k' & E & _).
      inversion E; subst. apply rate_of_group; assumption.
  - eexists. split; vm_compute; reflexivity.
  - vm_compute. reflexivity.
Qed.

Lemma survival_rate_values_witness :
  exists fig k r,
    App.get_survival_fig Samples.one_in_three false Samples.one_in_three
      "pclass" "Passenger Class" = Ok fig /\
    In (k, VNum r) (fig_points fig) /\
    value_eqb k (VInt 3) = true /\
    rounded_to_hundredths
      (rate_spec [VInt 3; VInt 3; VInt 3] [VInt 0; VInt 1; VInt 0] k) r.
Proof.
  destruct (proj1 (survival_rate_values Samples.one_in_three "pclass" _ _
                     eq_refl eq_refl eq_refl eq_refl
                     ltac:(repeat constructor;
                           (left; reflexivity) || (right; reflexivity))
                     ltac:(intros cats H; discriminate H))
                  false Samples.one_in_three "Passenger Class" eq_refl)
    as (fig & Hfig & Hrows & _).
  destruct (Hrows 0%nat (VInt 3) (VInt 0) eq_refl eq_refl eq_refl)
    as (k & r & Hin & Hk & Hr).
  exists fig, k, r.
  split; [exact Hfig|]. split; [exact Hin|]. split; [exact Hk | exact Hr].
Defined.

(** C4, the claim as stated fails: for three rows of one category with one
    survivor, the rate to one decimal place is 33.3, while [src/app.py]
    gives 33.33 and [src/titanic/app.py] gives 100/3. *)
Lemma rate_not_rounded_to_one_decimal :
  pd.round_decimals 1 (100 * (1 # 3)) = 333 # 10 /\
  (exists fig,
     App.get_survival_fig Samples.one_in_three false Samples.one_in_three
       "pclass" "Passenger Class" = Ok fig /\
     fig_points fig = [(VInt 3, VNum (3333 # 100))] /\
     fig_points fig <> [(VInt 3, VNum (333 # 10))]) /\
  TitanicApp.calculate_survival_rate Samples.one_in_three "pclass"
    = Ok [ ("pclass", plain [VInt 3]); ("survived", plain [VNum (100 # 3)]) ].
Proof.
  split; [reflexivity|]. split.
  - eexists. split; [vm_compute; reflexivity|]. split; [reflexivity|].
    discriminate.
  - vm_compute. reflexivity.
Qed.

(* ================================================================== *)
(** * Composition counts *)

Section Composition.

Lemma distinct_perm (l l' : list value) :
  Permutation l l' -> distinct l -> distinct l'.
Proof.
  unfold distinct. induction 1 as [|x l l' Hp IH|x y l|l l' l'' _ IH1 _ IH2];
    intros Hd.
  - exact Hd.
  - inversion Hd; subst. constructor.
    + eapply Permutation_Forall; eassumption.
    + apply IH. assumption.
  - inversion Hd as [|a l0 Hy Hd']; subst.
    inversion Hd' as [|a l0 Hx Hd'']; subst.
    inversion Hy as [|a l0 Hyx Hyl]; subst.
    constructor.
    + constructor; [rewrite value_eqb_sym; exact Hyx | exact Hx].
    + constructor; assumption.
  - auto.
Qed.

Lemma distinct_filter (p : value -> bool) (l : list value) :
  distinct l -> distinct (filter p l).
Proof.
  unfold distinct. induction 1 as [|a l Ha Hd IH]; simpl.
  - constructor.
  - destruct (p a); [|exact IH]. constructor; [|exact IH].
    apply Forall_forall. intros y Hy. apply filter_In in Hy.
    rewrite Forall_forall in Ha. apply Ha. tauto.
Qed.

Lemma uniq_distinct (xs : list value) : distinct (pd.uniq xs).
Proof.
  induction xs as [|x xs IH]; simpl.
  - constructor.
  - constructor.
    + apply Forall_forall. intros y Hy. apply filter_In in Hy.
      destruct Hy as [_ Hy]. apply negb_true_iff in Hy. exact Hy.
    + apply distinct_filter. exact IH.
Qed.








Lemma count_pos (k : value) (xs : list value) :
  In k xs -> notna k = true -> (1 <= pd.count k xs)%nat.
Proof.
  intros Hin Hn. unfold pd.count.
  assert (In k (filter (value_eqb k) xs)) as H.
  { apply filter_In. split; [exact Hin | apply value_eqb_refl, Hn]. }
  destruct (filter (value_eqb k) xs); [destruct H | simpl; lia].
Qed.

(** ** The traces of a histogram coloured by its own column *)











End Composition.

Lemma combine_map_map {A B C : Type} (f : A -> B) (g : A -> C) (l : list A) :
  combine (map f l) (map g l) = map (fun a => (f a, g a)) l.
Proof.
  induction l as [|a l IH]; simpl; [reflexivity | rewrite IH; reflexivity].
Qed.

(** The bars of the composition figure of [src/titanic/app.py] are the
    entries of [value_counts] of the feature column. *)
Lemma TitanicApp_composition_points (data_df : DataFrame)
    (feature title subtitle : string) (col : Series) :
  lookup_col data_df feature = Some col ->
  String.eqb feature "Count" = false ->
  exists fig,
    TitanicApp.get_composition_fig data_df feature title subtitle = Ok fig /\
    fig_points fig
    = map (fun kc => (if String.eqb feature "pclass"
                      then vstr (fst kc) else fst kc,
                      VInt (Z.of_nat (snd kc))))
          (pd.value_counts col).
Proof.
  intros Hc Hf. unfold TitanicApp.get_composition_fig, getitem.
  rewrite Hc. cbn [bind]. unfold pd.reset_index_counts.
  destruct (String.eqb feature "pclass") eqn:Hp.
  - cbn [lookup_col]. rewrite String.eqb_refl. cbn [bind setitem].
    rewrite String.eqb_refl. unfold px.bar. cbn [lookup_col].
    rewrite String.eqb_refl, Hf. cbn [String.eqb Ascii.eqb Bool.eqb].
    eexists. split; [reflexivity|].
    unfold fig_points, pd.astype_str, plain. cbn [fig_plot s_values].
    rewrite map_map. apply combine_map_map.
  - cbn [bind]. unfold px.bar. cbn [lookup_col].
    rewrite String.eqb_refl, Hf. cbn [String.eqb Ascii.eqb Bool.eqb].
    eexists. split; [reflexivity|].
    unfold fig_points, plain. cbn [fig_plot s_values].
    apply combine_map_map.
Qed.




(* ================================================================== *)
(** * More on the preparation *)

Section Preparation.

Lemma wrap64_small (z : Z) : - 2 ^ 63 <= z < 2 ^ 63 -> wrap64 z = z.
Proof.
  intros H. unfold wrap64. rewrite Z.mod_small by lia. lia.
Qed.

Lemma wrap64_add_l (a b : Z) : wrap64 (wrap64 a + b) = wrap64 (a + b).
Proof.
  unfold wrap64. f_equal.
  replace ((a + 2 ^ 63) mod 2 ^ 64 - 2 ^ 63 + b + 2 ^ 63)
    with ((a + 2 ^ 63) mod 2 ^ 64 + b) by lia.
  rewrite Zplus_mod_idemp_l. f_equal. lia.
Qed.

(** Every column of the engineered frame, in terms of the raw frame. *)
Lemma engineering_all_columns (df df' : DataFrame) :
  engineering df df' ->
  exists age embarked sex sibsp parch fare age_group fare_group m,
    lookup_col df "age" = Some age /\
    lookup_col df "embarked" = Some embarked /\
    lookup_col df "sex" = Some sex /\
    lookup_col df "sibsp" = Some sibsp /\
    lookup_col df "parch" = Some parch /\
    lookup_col df "fare" = Some fare /\
    pd.at0 (pd.mode embarked) = Ok m /\
    pd.cut (pd.fillna age (pd.mean age)) App.bins App.labels false true true
      = Ok age_group /\
    List.length (s_values fare_group) = List.length (s_values fare) /\
    forall c,
      lookup_col df' c =
      if String.eqb "fare_group" c then Some fare_group
      else if String.eqb "family_size" c
           then Some (pd.add_scalar (pd.add sibsp parch) (VInt 1))
      else if String.eqb "age_group" c then Some age_group
      else if String.eqb "sex_label" c then Some (pd.map_dict sex App.sex_labels)
      else if String.eqb "embarked" c then Some (pd.fillna embarked m)
      else if String.eqb "age" c then Some (pd.fillna age (pd.mean age))
      else lookup_col df c.
Proof.
  intros [age emb sex ag sibsp parch fare fg m
          Hage Hemb Hsex Hsibsp Hparch Hfare Hm Hcut Hfg].
  exists age, emb, sex, sibsp, parch, fare, ag, fg, m.
  repeat (split; [assumption|]).
  intros c. unfold engineered. rewrite !lookup_col_setitem. reflexivity.
Qed.

(** The preparation of a non-empty table runs the engineering steps. *)
Lemma prepared_nonempty (raw df df_after : DataFrame) :
  empty raw = false ->
  App.prepare raw = Ok (df, df_after) \/
  TitanicApp.prepare raw = Ok (df, df_after) ->
  engineering raw df.
Proof.
  intros Hne H. apply prepared_engineering in H.
  destruct H as [H|[H _]]; [exact H | congruence].
Qed.

End Preparation.

(** X1.  Derived columns, row by row, after the preparation of a non-empty
    table by either script: [sex_label] is ['Male'] for ['male'], ['Female']
    for ['female'] and missing for any other cell; [family_size] is
    [sibsp + parch + 1] in 64-bit integer arithmetic -- the sum itself,
    and at least 1, when the two counts are not negative and the sum fits
    in 64 bits. *)
Theorem derived_columns :
  forall (raw df df_after : DataFrame) (i : nat),
    empty raw = false ->
    App.prepare raw = Ok (df, df_after) \/
    TitanicApp.prepare raw = Ok (df, df_after) ->
    (forall v, cell raw "sex" i = Some v ->
       cell df "sex_label" i
       = Some (match v with
               | VStr "male" => VStr "Male"
               | VStr "female" => VStr "Female"
               | _ => NaN
               end)) /\
    (forall s p, cell raw "sibsp" i = Some (VInt s) ->
                 cell raw "parch" i = Some (VInt p) ->
       cell df "family_size" i = Some (VInt (wrap64 (s + p + 1))) /\
       (0 <= s -> 0 <= p -> s + p + 1 < 2 ^ 63 ->
        cell df "family_size" i = Some (VInt (s + p + 1)) /\
        1 <= s + p + 1)).
Proof.
  intros raw df df_after i Hne Hprep.
  apply (prepared_nonempty _ _ _ Hne) in Hprep.
  apply engineering_all_columns in Hprep.
  destruct Hprep as (age & emb & sex & sibsp & parch & fare & ag & fg & m &
                     Hage & Hemb & Hsex & Hsibsp & Hparch & Hfare & _ & _ & _ &
                     Hcols).
  unfold cell. rewrite !Hcols. cbn [String.eqb Ascii.eqb Bool.eqb].
  rewrite Hsex, Hsibsp, Hparch. split.
  - intros v Hv. unfold pd.map_dict, plain. cbn [s_values].
    rewrite nth_error_map, Hv. cbn [option_map]. f_equal.
    destruct v as [| | |s]; try reflexivity.
    unfold App.sex_labels. cbn [pd.dict_get].
    destruct (String.eqb_spec "male" s) as [<-|Hm]; [reflexivity|].
    destruct (String.eqb_spec "female" s) as [<-|Hf]; [reflexivity|].
    repeat match goal with
           | |- context [match ?x with _ => _ end] => destruct x eqn:?
           end; try reflexivity; subst; congruence.
  - intros s p Hs Hp.
    assert (Hcell : nth_error
                      (s_values (pd.add_scalar (pd.add sibsp parch) (VInt 1))) i
                    = Some (VInt (wrap64 (s + p + 1)))).
    { unfold pd.add_scalar, pd.add, plain. cbn [s_values].
      rewrite nth_error_map, nth_error_map.
      rewrite (nth_error_combine _ _ _ _ _ Hs Hp).
      cbn [option_map fst snd vadd]. rewrite wrap64_add_l. reflexivity. }
    split; [exact Hcell|].
    intros H0 H1 Hfit. rewrite Hcell, wrap64_small by lia.
    split; [reflexivity | lia].
Qed.

Lemma derived_columns_witness :
  exists df df_after,
    empty Samples.passengers = false /\
    App.prepare Samples.passengers = Ok (df, df_after) /\
    cell df "sex_label" 1 = Some (VStr "Female") /\
    cell df "family_size" 4 = Some (VInt 5).
Proof.
  eexists. eexists. split; [reflexivity|].
  split; [vm_compute; reflexivity|].
  pose proof (derived_columns Samples.passengers _ _ 1 eq_refl
                (or_introl eq_refl)) as [H1 _].
  pose proof (derived_columns Samples.passengers _ _ 4 eq_refl
                (or_introl eq_refl)) as [_ H2].
  split; [exact (H1 _ eq_refl)|].
  refine (proj1 (proj2 (H2 2 2 eq_refl eq_refl) _ _ _)); lia.
Defined.

Section Imputation.

Lemma fill_with_NaN (xs : list value) :
  map (fun x => if isna x then NaN else x) xs = xs.
Proof.
  induction xs as [|x xs IH]; simpl; [reflexivity|].
  rewrite IH. destruct x; reflexivity.
Qed.

Lemma mean_notna (s : Series) :
  pd.numeric (s_values s) <> [] -> notna (pd.mean s) = true.
Proof.
  unfold pd.mean, pd.mean_values.
  destruct (pd.numeric (s_values s)); [congruence | reflexivity].
Qed.

End Imputation.

(** X2.  Imputation, after the preparation of a non-empty table by either
    script.  A known age is kept and a missing age becomes the mean that
    the script computed from the known ages; when at least one age is
    known, no age is missing afterwards.  No port of embarkation is missing
    afterwards. *)
Theorem imputation_completes_columns :
  forall (raw df df_after : DataFrame),
    empty raw = false ->
    App.prepare raw = Ok (df, df_after) \/
    TitanicApp.prepare raw = Ok (df, df_after) ->
    exists age age',
      lookup_col raw "age" = Some age /\
      lookup_col df "age" = Some age' /\
      (forall i v, cell raw "age" i = Some v ->
                   cell df "age" i = Some (if isna v then pd.mean age else v)) /\
      (pd.numeric (s_values age) <> [] ->
       forall i v, cell df "age" i = Some v -> notna v = true) /\
      (forall i v, cell df "embarked" i = Some v -> notna v = true).
Proof.
  intros raw df df_after Hne Hprep.
  apply (prepared_nonempty _ _ _ Hne) in Hprep.
  apply engineering_all_columns in Hprep.
  destruct Hprep as (age & emb & sex & sibsp & parch & fare & ag & fg & m &
                     Hage & Hemb & _ & _ & _ & _ & Hm & _ & _ & Hcols).
  exists age, (pd.fillna age (pd.mean age)).
  split; [exact Hage|]. split; [rewrite Hcols; reflexivity|].
  unfold cell. rewrite !Hcols. cbn [String.eqb Ascii.eqb Bool.eqb].
  rewrite Hage. unfold pd.fillna at 1 2. cbn [s_values].
  split; [|split].
  - intros i v Hv. rewrite nth_error_map, Hv. reflexivity.
  - intros Hn i v Hv. rewrite nth_error_map in Hv.
    destruct (nth_error (s_values age) i) as [x|]; [|discriminate].
    cbn [option_map] in Hv. inversion Hv; subst.
    destruct (isna x) eqn:Hx; [apply mean_notna, Hn|].
    unfold notna. rewrite Hx. reflexivity.
  - intros i v Hv. unfold pd.fillna in Hv. cbn [s_values] in Hv.
    rewrite nth_error_map in Hv.
    destruct (nth_error (s_values emb) i) as [x|]; [|discriminate].
    cbn [option_map] in Hv. inversion Hv; subst.
    destruct (isna x) eqn:Hx.
    + apply mode_at0 in Hm. destruct Hm as (_ & Hn & _). exact Hn.
    + unfold notna. rewrite Hx. reflexivity.
Qed.

Lemma imputation_completes_columns_witness :
  exists df df_after age age',
    empty Samples.passengers = false /\
    App.prepare Samples.passengers = Ok (df, df_after) /\
    lookup_col Samples.passengers "age" = Some age /\
    lookup_col df "age" = Some age' /\
    cell df "age" 1 = Some (pd.mean age).
Proof.
  eexists. eexists.
  match goal with
  | |- exists age age', _ /\ App.prepare ?raw = Ok (?df, ?da) /\ _ =>
      assert (P : App.prepare raw = Ok (df, da)) by (vm_compute; reflexivity)
  end.
  destruct (imputation_completes_columns Samples.passengers _ _ eq_refl
              (or_introl P))
    as (age & age' & H1 & H2 & H3 & _).
  exists age, age'. split; [reflexivity|].
  split; [exact P|]. split; [exact H1|]. split; [exact H2|].
  exact (H3 1%nat NaN eq_refl).
Defined.

Section Shape.

Lemma well_formed_take (df : DataFrame) (idx : list nat) :
  well_formed (pd.take df idx) = true.
Proof.
  unfold well_formed. destruct df as [|[c s] rest]; [reflexivity|].
  cbn [pd.take map nrows fst snd s_values].
  apply forallb_forall. intros [c' s'] Hin. cbn [snd].
  change ((c, mkSeries (s_dtype s) (pd.take_values (s_values s) idx))
          :: map (fun cs => (fst cs, mkSeries (s_dtype (snd cs))
                                (pd.take_values (s_values (snd cs)) idx))) rest)
    with (pd.take ((c, s) :: rest) idx) in Hin.
  unfold pd.take in Hin. apply in_map_iff in Hin.
  destruct Hin as ([c0 s0] & E & _). inversion E; subst. cbn [s_values snd].
  unfold pd.take_values. rewrite !length_map. apply Nat.eqb_refl.
Qed.

Lemma nonzero_from_length (mask : list bool) (i : nat) :
  (List.length (pd.nonzero_from i mask) <= List.length mask)%nat.
Proof.
  revert i. induction mask as [|b mask IH]; intros i; simpl; [lia|].
  specialize (IH (S i)). destruct b; simpl; lia.
Qed.

Lemma df_after_shape (df after : DataFrame) :
  well_formed df = true -> App.df_after df = Ok after ->
  well_formed after = true /\ (nrows after <= nrows df)%nat /\
  forall c, lookup_col after c = None <-> lookup_col df c = None.
Proof.
  intros Hwf H. unfold App.df_after in H. inv_bind H. apply getitem_ok in Ha.
  inversion H; subst after. clear H. unfold pd.copy, pd.getitem_mask.
  split; [apply well_formed_take|]. split.
  - rewrite nrows_take by (destruct df; [discriminate | congruence]).
    unfold pd.nonzero. etransitivity; [apply nonzero_from_length|].
    unfold pd.eq_scalar. rewrite length_map.
    rewrite (well_formed_lookup _ _ _ Hwf Ha). lia.
  - intros c. rewrite lookup_col_take.
    destruct (lookup_col df c); simpl; split; congruence.
Qed.

End Shape.

(** X3.  What the preparation touches.  For a table whose columns all have
    the same length, the prepared table has the same number of rows and
    columns of that one length; among the columns of the raw table only
    [age] and [embarked] are changed, and none is dropped; the survivors
    table has the columns of the prepared table and at most as many
    rows. *)
Theorem prepare_frames :
  forall (raw df df_after : DataFrame),
    well_formed raw = true ->
    App.prepare raw = Ok (df, df_after) \/
    TitanicApp.prepare raw = Ok (df, df_after) ->
    well_formed df = true /\ nrows df = nrows raw /\
    (forall c, ~ In c ["age"; "embarked"; "sex_label"; "age_group";
                       "family_size"; "fare_group"] ->
               lookup_col df c = lookup_col raw c) /\
    (forall c, lookup_col raw c <> None -> lookup_col df c <> None) /\
    well_formed df_after = true /\ (nrows df_after <= nrows df)%nat /\
    (forall c, lookup_col df_after c = None <-> lookup_col df c = None).
Proof.
  intros raw df df_after Hwf Hprep.
  assert (Hafter : App.df_after df = Ok df_after).
  { destruct Hprep as [H|H];
      [unfold App.prepare in H | unfold TitanicApp.prepare in H];
      inv_bind H; inv_bind H; inversion H; subst; exact Ha0. }
  apply prepared_engineering in Hprep. destruct Hprep as [He|[He ->]].
  - destruct (engineering_shape _ _ He Hwf) as [Hwf' Hn].
    destruct (df_after_shape _ _ Hwf' Hafter) as (Ha1 & Ha2 & Ha3).
    repeat split; try assumption; try apply Ha3.
    + intros c Hc. apply engineering_all_columns in He.
      destruct He as (age & emb & sex & sibsp & parch & fare & ag & fg & m &
                      _ & _ & _ & _ & _ & _ & _ & _ & _ & Hcols).
      rewrite Hcols.
      repeat match goal with
             | |- context [String.eqb ?a c] =>
                 destruct (String.eqb_spec a c) as [<-|?];
                 [exfalso; apply Hc; simpl; tauto|]
             end.
      reflexivity.
    + intros c Hc. apply engineering_all_columns in He.
      destruct He as (age & emb & sex & sibsp & parch & fare & ag & fg & m &
                      _ & _ & _ & _ & _ & _ & _ & _ & _ & Hcols).
      rewrite Hcols.
      repeat match goal with
             | |- context [if ?b then _ else _] => destruct b
             end; congruence.
  - destruct (df_after_shape _ _ Hwf Hafter) as (Ha1 & Ha2 & Ha3).
    repeat split; try assumption; try apply Ha3; auto.
Qed.

Lemma prepare_frames_witness :
  exists df df_after,
    well_formed Samples.passengers = true /\
    TitanicApp.prepare Samples.passengers = Ok (df, df_after) /\
    nrows df = 5%nat /\ (nrows df_after <= nrows df)%nat.
Proof.
  eexists. eexists. split; [reflexivity|].
  match goal with
  | |- TitanicApp.prepare ?raw = Ok (?df, ?da) /\ _ =>
      assert (P : TitanicApp.prepare raw = Ok (df, da))
        by (vm_compute; reflexivity)
  end.
  destruct (prepare_frames Samples.passengers _ _ eq_refl (or_intror P))
    as (_ & H1 & _ & _ & _ & H2 & _).
  split; [exact P|]. split; [exact H1 | exact H2].
Defined.

Section Success.

Lemma maximum_in (ns : list nat) : ns <> [] -> In (pd.maximum ns) ns.
Proof.
  induction ns as [|n ns IH]; [congruence|]. intros _. simpl.
  destruct ns as [|n' ns'].
  - left. simpl. lia.
  - destruct (Nat.max_spec n (pd.maximum (n' :: ns'))) as [[_ E]|[_ E]];
      unfold pd.maximum in *; simpl in *; rewrite E.
    + right. apply IH. discriminate.
    + left. reflexivity.
Qed.

(** A column with a known cell has a mode. *)
Lemma mode_exists (s : Series) :
  (exists v, In v (s_values s) /\ notna v = true) ->
  exists m, pd.at0 (pd.mode s) = Ok m.
Proof.
  intros (v & Hv & Hn). unfold pd.at0, pd.mode. cbn [s_values].
  set (xs := pd.dropna (s_values s)).
  set (ks := pd.uniq xs).
  set (counts := map (fun k => pd.count k xs) ks).
  assert (Hks : ks <> []).
  { destruct (uniq_cover xs v) as (k & Hk & _);
      [apply dropna_In; auto | exact Hn |].
    intros E. unfold ks in Hk. fold ks in Hk. rewrite E in Hk. destruct Hk. }
  assert (Hc : counts <> []).
  { unfold counts. destruct ks; [congruence | discriminate]. }
  pose proof (maximum_in counts Hc) as Hmax. unfold counts in Hmax at 2.
  apply in_map_iff in Hmax. destruct Hmax as (k & Hk & Hkin).
  assert (Hin : In k (filter (fun k => Nat.eqb (pd.count k xs) (pd.maximum counts)) ks)).
  { apply filter_In. split; [exact Hkin | apply Nat.eqb_eq, Hk]. }
  apply (Permutation_in k (Permutation_sym (sort_perm value_leb _))) in Hin.
  destruct (pd.sort value_leb _) as [|m rest]; [destruct Hin|].
  exists m. reflexivity.
Qed.

End Success.

Section Idempotence.

Lemma setitem_same (df : DataFrame) (c : string) (s : Series) :
  lookup_col df c = Some s -> setitem df c s = df.
Proof.
  induction df as [|[k s0] rest IH]; simpl; [discriminate|].
  destruct (String.eqb_spec k c) as [->|Hk].
  - intros H. inversion H. reflexivity.
  - intros H. rewrite IH by exact H. reflexivity.
Qed.

Lemma fillna_fillna (s : Series) (m m' : value) :
  (isna m = true -> isna m' = true) ->
  pd.fillna (pd.fillna s m) m' = pd.fillna s m.
Proof.
  intros Hm. unfold pd.fillna. cbn [s_dtype s_values]. f_equal.
  rewrite map_map. apply map_ext. intros x.
  destruct (isna x) eqn:Hx; [|rewrite Hx; reflexivity].
  destruct (isna m) eqn:E; [|reflexivity].
  specialize (Hm eq_refl). destruct m, m'; try discriminate. reflexivity.
Qed.

Lemma fillna_mean_twice (s : Series) :
  pd.fillna (pd.fillna s (pd.mean s)) (pd.mean (pd.fillna s (pd.mean s)))
  = pd.fillna s (pd.mean s).
Proof.
  apply fillna_fillna. intros Hm.
  destruct (pd.mean s) eqn:E; try discriminate.
  unfold pd.mean, pd.fillna in *. cbn [s_values].
  rewrite fill_with_NaN, E. reflexivity.
Qed.

(** After the ports have been filled, the column still has a mode, and
    filling again changes nothing. *)
Lemma mode_after_fill (s : Series) (m : value) :
  pd.at0 (pd.mode s) = Ok m ->
  exists m', pd.at0 (pd.mode (pd.fillna s m)) = Ok m' /\
             pd.fillna (pd.fillna s m) m' = pd.fillna s m.
Proof.
  intros Hm. apply mode_at0 in Hm. destruct Hm as (Hin & Hn & _).
  destruct (mode_exists (pd.fillna s m)) as [m' Hm'].
  - exists m. split; [|exact Hn]. unfold pd.fillna. cbn [s_values].
    apply in_map_iff. exists m. split; [|exact Hin].
    unfold notna in Hn. apply negb_true_iff in Hn. rewrite Hn. reflexivity.
  - exists m'. split; [exact Hm'|]. apply fillna_fillna.
    unfold notna in Hn. apply negb_true_iff in Hn. congruence.
Qed.

Lemma fare_group_ext (d d' : DataFrame) :
  lookup_col d "fare" = lookup_col d' "fare" ->
  App.fare_group d = App.fare_group d'.
Proof.
  intros H. unfold App.fare_group, getitem. rewrite H. reflexivity.
Qed.

End Idempotence.

Section IdempotenceRuns.

Ltac second_run F LA LE LS LSL LAG Lsib Lpar LFS LFG E2 Hm' Hag :=
  repeat first
    [ progress cbn [bind]
    | rewrite LA | rewrite LE | rewrite LS | rewrite Lsib | rewrite Lpar
    | rewrite fillna_mean_twice
    | rewrite Hm' | rewrite E2 | rewrite Hag
    | rewrite (setitem_same F "age" _ LA)
    | rewrite (setitem_same F "embarked" _ LE)
    | rewrite (setitem_same F "sex_label" _ LSL)
    | rewrite (setitem_same F "age_group" _ LAG)
    | rewrite (setitem_same F "family_size" _ LFS) ].

Lemma App_clean_and_engineer_again (raw df : DataFrame) :
  App.clean_and_engineer raw = Ok df -> App.clean_and_engineer df = Ok df.
Proof.
  unfold App.clean_and_engineer at 1. intros H.
  inv_bind H. rename a into age, Ha into Hage.
  inv_bind H. rename a into emb, Ha into Hemb.
  inv_bind H. rename a into m, Ha into Hm.
  inv_bind H. rename a into sex, Ha into Hsex.
  inv_bind H. rename a into age', Ha into Hage'.
  inv_bind H. rename a into ag, Ha into Hag.
  inv_bind H. rename a into sibsp, Ha into Hsibsp.
  inv_bind H. rename a into parch, Ha into Hparch.
  inv_bind H. rename a into fg, Ha into Hfg.
  apply getitem_ok in Hage, Hemb, Hsex, Hage', Hsibsp, Hparch.
  lookup_through.
  inversion Hage'; subst age'. clear Hage'.
  destruct (mode_after_fill _ _ Hm) as (m' & Hm' & E2).
  inversion H; subst df; clear H.
  match goal with
  | |- App.clean_and_engineer ?F0 = _ => remember F0 as F eqn:HF
  end.
  assert (LA : lookup_col F "age" = Some (pd.fillna age (pd.mean age)))
    by (subst F; lookup_through; reflexivity).
  assert (LE : lookup_col F "embarked" = Some (pd.fillna emb m))
    by (subst F; lookup_through; reflexivity).
  assert (LS : lookup_col F "sex" = Some sex)
    by (subst F; lookup_through; exact Hsex).
  assert (LSL : lookup_col F "sex_label" = Some (pd.map_dict sex App.sex_labels))
    by (subst F; lookup_through; reflexivity).
  assert (LAG : lookup_col F "age_group" = Some ag)
    by (subst F; lookup_through; reflexivity).
  assert (Lsib : lookup_col F "sibsp" = Some sibsp)
    by (subst F; lookup_through; exact Hsibsp).
  assert (Lpar : lookup_col F "parch" = Some parch)
    by (subst F; lookup_through; exact Hparch).
  assert (LFS : lookup_col F "family_size"
                = Some (pd.add_scalar (pd.add sibsp parch) (VInt 1)))
    by (subst F; lookup_through; reflexivity).
  assert (LFG : lookup_col F "fare_group" = Some fg)
    by (subst F; lookup_through; reflexivity).
  assert (EF : App.fare_group F = Ok fg).
  { rewrite <- Hfg. apply fare_group_ext. subst F. lookup_through.
    reflexivity. }
  clear HF. unfold App.clean_and_engineer, getitem.
  second_run F LA LE LS LSL LAG Lsib Lpar LFS LFG E2 Hm' Hag.
  rewrite EF. cbn [bind]. rewrite (setitem_same F "fare_group" _ LFG).
  reflexivity.
Qed.

Lemma TitanicApp_clean_and_engineer_again (raw df : DataFrame) :
  TitanicApp.clean_and_engineer raw = Ok df ->
  TitanicApp.clean_and_engineer df = Ok df.
Proof.
  unfold TitanicApp.clean_and_engineer at 1. intros H.
  inv_bind H. rename a into age, Ha into Hage.
  inv_bind H. rename a into emb, Ha into Hemb.
  inv_bind H. rename a into m, Ha into Hm.
  inv_bind H. rename a into sex, Ha into Hsex.
  inv_bind H. rename a into age', Ha into Hage'.
  inv_bind H. rename a into ag, Ha into Hag.
  inv_bind H. rename a into sibsp, Ha into Hsibsp.
  inv_bind H. rename a into parch, Ha into Hparch.
  inv_bind H. rename a into fare, Ha into Hfare.
  inv_bind H. rename a into fg, Ha into Hfg.
  apply getitem_ok in Hage, Hemb, Hsex, Hage', Hsibsp, Hparch, Hfare.
  lookup_through.
  inversion Hage'; subst age'. clear Hage'.
  destruct (mode_after_fill _ _ Hm) as (m' & Hm' & E2).
  inversion H; subst df; clear H.
  match goal with
  | |- TitanicApp.clean_and_engineer ?F0 = _ => remember F0 as F eqn:HF
  end.
  assert (LA : lookup_col F "age" = Some (pd.fillna age (pd.mean age)))
    by (subst F; lookup_through; reflexivity).
  assert (LE : lookup_col F "embarked" = Some (pd.fillna emb m))
    by (subst F; lookup_through; reflexivity).
  assert (LS : lookup_col F "sex" = Some sex)
    by (subst F; lookup_through; exact Hsex).
  assert (LSL : lookup_col F "sex_label"
                = Some (pd.map_dict sex TitanicApp.sex_labels))
    by (subst F; lookup_through; reflexivity).
  assert (LAG : lookup_col F "age_group" = Some ag)
    by (subst F; lookup_through; reflexivity).
  assert (Lsib : lookup_col F "sibsp" = Some sibsp)
    by (subst F; lookup_through; exact Hsibsp).
  assert (Lpar : lookup_col F "parch" = Some parch)
    by (subst F; lookup_through; exact Hparch).
  assert (LFS : lookup_col F "family_size"
                = Some (pd.add_scalar (pd.add sibsp parch) (VInt 1)))
    by (subst F; lookup_through; reflexivity).
  assert (LFG : lookup_col F "fare_group" = Some fg)
    by (subst F; lookup_through; reflexivity).
  assert (LF : lookup_col F "fare" = Some fare)
    by (subst F; lookup_through; exact Hfare).
  clear HF. unfold TitanicApp.clean_and_engineer, getitem.
  second_run F LA LE LS LSL LAG Lsib Lpar LFS LFG E2 Hm' Hag.
  rewrite LF. cbn [bind]. rewrite Hfg. cbn [bind].
  rewrite (setitem_same F "fare_group" _ LFG). reflexivity.
Qed.

End IdempotenceRuns.

(** X5.  Preparing a prepared table changes nothing: run on its own
    output, the preparation of either script succeeds and returns the same
    prepared table and the same survivors table. *)
Theorem prepare_idempotent :
  forall (raw df df_after : DataFrame),
    well_formed raw = true ->
    (App.prepare raw = Ok (df, df_after) ->
     App.prepare df = Ok (df, df_after)) /\
    (TitanicApp.prepare raw = Ok (df, df_after) ->
     TitanicApp.prepare df = Ok (df, df_after)).
Proof.
  intros raw df df_after Hwf. split; intros H.
  - unfold App.prepare in H. inv_bind H. inv_bind H. inversion H; subst.
    clear H. unfold App.prepare.
    destruct (empty raw) eqn:He; cbn [negb] in Ha.
    + inversion Ha; subst. rewrite He. cbn [negb bind]. rewrite Ha0.
      reflexivity.
    + pose proof (App_clean_and_engineer_engineering _ _ Ha) as Heng.
      destruct (engineering_shape _ _ Heng Hwf) as [_ Hn].
      assert (He' : empty df = false).
      { destruct (empty df) eqn:E; [|reflexivity].
        apply empty_nrows in E. rewrite Hn in E. apply empty_nrows in E.
        congruence. }
      rewrite He'. cbn [negb].
      rewrite (App_clean_and_engineer_again _ _ Ha). cbn [bind].
      rewrite Ha0. reflexivity.
  - unfold TitanicApp.prepare in H. inv_bind H. inv_bind H.
    inversion H; subst. clear H. unfold TitanicApp.prepare.
    rewrite (TitanicApp_clean_and_engineer_again _ _ Ha). cbn [bind].
    rewrite Ha0. reflexivity.
Qed.

Lemma prepare_idempotent_witness :
  exists df df_after,
    well_formed Samples.passengers = true /\
    App.prepare Samples.passengers = Ok (df, df_after) /\
    App.prepare df = Ok (df, df_after).
Proof.
  eexists. eexists. split; [reflexivity|].
  match goal with
  | |- App.prepare ?raw = Ok (?df, ?da) /\ _ =>
      assert (P : App.prepare raw = Ok (df, da)) by (vm_compute; reflexivity)
  end.
  split; [exact P|].
  exact (proj1 (prepare_idempotent Samples.passengers _ _ eq_refl) P).
Defined.

(* ================================================================== *)
(** * The three panes of the dashboards *)

Section Panes.

Lemma nonzero_from_ge (mask : list bool) (i j : nat) :
  In j (pd.nonzero_from i mask) -> (i <= j)%nat.
Proof.
  revert i. induction mask as [|b mask IH]; intros i; simpl; [tauto|].
  destruct b; simpl; [intros [<-|H]; [lia|] | intros H];
    apply IH in H; lia.
Qed.

(** Selecting by a mask keeps the cells at the positions where the mask
    holds. *)
Lemma take_nonzero_from (mask : list bool) (vs : list value) (i : nat) :
  List.length mask = List.length vs ->
  map (fun j => nth (j - i) vs NaN) (pd.nonzero_from i mask)
  = map snd (filter fst (combine mask vs)).
Proof.
  revert vs i. induction mask as [|b mask IH]; intros [|v vs] i Hl;
    try discriminate; [reflexivity|].
  cbn [List.length] in Hl. cbn [pd.nonzero_from combine].
  assert (E : map (fun j => nth (j - i) (v :: vs) NaN)
                  (pd.nonzero_from (S i) mask)
              = map snd (filter fst (combine mask vs))).
  { rewrite <- (IH vs (S i)) by lia. apply map_ext_in. intros j Hj.
    apply nonzero_from_ge in Hj.
    replace (j - i)%nat with (S (j - S i)) by lia. reflexivity. }
  destruct b; cbn [filter fst snd map].
  - rewrite E, Nat.sub_diag. reflexivity.
  - exact E.
Qed.

Lemma take_nonzero (mask : list bool) (vs : list value) :
  List.length mask = List.length vs ->
  pd.take_values vs (pd.nonzero mask) = map snd (filter fst (combine mask vs)).
Proof.
  intros Hl. unfold pd.take_values, pd.nonzero.
  rewrite <- (take_nonzero_from mask vs 0 Hl).
  apply map_ext. intros j. rewrite Nat.sub_0_r. reflexivity.
Qed.

Lemma group_values_length (keys survived : list value) (k : value) :
  List.length keys = List.length survived ->
  List.length (pd.group_values keys survived k) = pd.count k keys.
Proof.
  unfold pd.group_values, pd.count. rewrite length_map.
  revert survived. induction keys as [|x keys IH]; intros [|s survived] Hl;
    simpl in *; try discriminate; [reflexivity|].
  rewrite (value_eqb_sym x k).
  destruct (value_eqb k x); simpl; rewrite IH by lia; reflexivity.
Qed.

Lemma survivors_in_group (keys survived : list value) (k : value) :
  List.length keys = List.length survived ->
  pd.count k (map snd (filter fst
                 (combine (map (fun x => value_eqb x (VInt 1)) survived) keys)))
  = ones (pd.group_values keys survived k).
Proof.
  unfold pd.group_values, pd.count, ones.
  revert survived. induction keys as [|x keys IH]; intros [|s survived] Hl;
    simpl in *; try discriminate; [reflexivity|].
  rewrite (value_eqb_sym x k).
  destruct (value_eqb s (VInt 1)) eqn:Hs; destruct (value_eqb k x) eqn:Hk;
    simpl; rewrite ?Hs, ?Hk; simpl; rewrite IH by lia; reflexivity.
Qed.

Lemma ones_le_length (vs : list value) : (ones vs <= List.length vs)%nat.
Proof. unfold ones. apply filter_length_le. Qed.

End Panes.

(** X6.  The three panes agree.  For a prepared table with 0/1 outcomes
    and any feature column, let [n] be the number of rows of a category in
    the full table (pane 1) and [m] the number of rows of that category in
    the survivors table (pane 2).  Then [m <= n], and when the category has
    rows the rate plotted in pane 3 is [100 * m / n] -- as it is in
    [src/titanic/app.py], and rounded to two decimals in [src/app.py]: a
    whole number of hundredths at most half a hundredth (and the rounding
    error of the doubles) away from it. *)
Theorem panes_agree :
  forall (df after : DataFrame) (feature : string) (col survived : Series),
    well_formed df = true ->
    lookup_col df feature = Some col ->
    lookup_col df "survived" = Some survived ->
    Forall is_01 (s_values survived) ->
    App.df_after df = Ok after ->
    exists col',
      lookup_col after feature = Some col' /\
      forall k,
        let n := pd.count k (s_values col) in
        let m := pd.count k (s_values col') in
        let rate := Qred (100 * (inject_Z (Z.of_nat m) / inject_Z (Z.of_nat n))) in
        (m <= n)%nat /\
        ((1 <= n)%nat ->
         titanic_rate (s_values col) (s_values survived) k = VNum rate /\
         exists r,
           app_rate (s_values col) (s_values survived) k = VNum r /\
           rounded_to_hundredths rate r).
Proof.
  intros df after feature col surv Hwf Hc Hs H01 Ha.
  unfold App.df_after, getitem in Ha. rewrite Hs in Ha. cbn [bind] in Ha.
  inversion Ha; subst after; clear Ha.
  unfold pd.copy, pd.getitem_mask. rewrite lookup_col_take, Hc.
  cbn [option_map]. eexists. split; [reflexivity|].
  cbn [s_values]. intros k.
  pose proof (well_formed_lookup _ _ _ Hwf Hc) as Lc.
  pose proof (well_formed_lookup _ _ _ Hwf Hs) as Ls.
  assert (Hl : List.length (s_values col) = List.length (s_values surv))
    by congruence.
  rewrite take_nonzero
    by (unfold pd.eq_scalar; rewrite length_map; congruence).
  unfold pd.eq_scalar. rewrite (survivors_in_group _ _ k Hl).
  rewrite <- (group_values_length _ _ k Hl).
  split; [apply ones_le_length|].
  intros Hn.
  assert (Hne : pd.group_values (s_values col) (s_values surv) k <> []).
  { intros E. rewrite E in Hn. simpl in Hn. lia. }
  split.
  - apply (rate_of_group _ _ _ H01 Hne).
  - apply (app_rate_rounded _ _ _ H01 Hne).
Qed.

Lemma panes_agree_witness :
  exists after,
    App.df_after Samples.one_in_three = Ok after /\
    lookup_col after "pclass" = Some (plain [VInt 3]) /\
    titanic_rate [VInt 3; VInt 3; VInt 3] [VInt 0; VInt 1; VInt 0] (VInt 3)
      = VNum (100 # 3) /\
    exists r,
      app_rate [VInt 3; VInt 3; VInt 3] [VInt 0; VInt 1; VInt 0] (VInt 3)
        = VNum r /\
      rounded_to_hundredths (100 # 3) r.
Proof.
  eexists. split; [reflexivity|].
  destruct (panes_agree Samples.one_in_three _ "pclass" _ _
              eq_refl eq_refl eq_refl
              ltac:(repeat constructor;
                    (left; reflexivity) || (right; reflexivity))
              eq_refl) as (col' & Hc & Hk).
  cbn in Hc. inversion Hc; subst col'. split; [reflexivity|].
  destruct (Hk (VInt 3)) as [_ Hr].
  destruct Hr as [H1 H2]; [vm_compute; lia|].
  split; [exact H1 | exact H2].
Defined.

Section BarOrder.

Lemma sort_strongly_sorted {A : Type} (leb : A -> A -> bool) (l : list A) :
  (forall a b, leb a b = true \/ leb b a = true) ->
  (forall a b c, leb a b = true -> leb b c = true -> leb a c = true) ->
  StronglySorted (fun a b => leb a b = true) (pd.sort leb l).
Proof.
  intros Htot Htrans. apply Sorted_StronglySorted.
  - intros a b c. apply Htrans.
  - apply sort_sorted. exact Htot.
Qed.

Lemma StronglySorted_map {A B : Type} (f : A -> B) (R : B -> B -> Prop)
    (l : list A) :
  StronglySorted (fun a b => R (f a) (f b)) l -> StronglySorted R (map f l).
Proof.
  induction 1 as [|a l Hs IH Ha]; simpl; constructor; [exact IH|].
  apply Forall_map. exact Ha.
Qed.

Lemma desc_leb_total (a b : value) :
  pd.desc_leb a b = true \/ pd.desc_leb b a = true.
Proof.
  destruct a, b; simpl; auto; try apply Qle_bool_total.
  apply String.leb_total.
Qed.

Lemma desc_leb_trans (a b c : value) :
  pd.desc_leb a b = true -> pd.desc_leb b c = true -> pd.desc_leb a c = true.
Proof.
  destruct a, b, c; simpl; try discriminate; try reflexivity;
    rewrite ?Qle_bool_iff; try (intros H1 H2; eapply Qle_trans; eassumption).
  intros H1 H2. eapply string_leb_trans; eassumption.
Qed.

End BarOrder.

(** X7.  The rate bars of [src/app.py] are ordered by descending rate,
    bars without a rate last: every bar's rate is at least the rate of
    every bar after it. *)
Theorem App_rate_bars_descending :
  forall (df data_df : DataFrame) (observed_default : bool)
         (feature title : string) (keys survived : Series),
    lookup_col df feature = Some keys ->
    lookup_col df "survived" = Some survived ->
    String.eqb feature "survived" = false ->
    String.eqb feature "survival_rate" = false ->
    empty data_df = false ->
    exists fig,
      App.get_survival_fig df observed_default data_df feature title = Ok fig /\
      StronglySorted (fun p q => pd.desc_leb (snd p) (snd q) = true)
                     (fig_points fig).
Proof.
  intros df data_df obs feature title keys survived Hkeys Hsurvived
         Hfeature1 Hfeature2 Hne.
  unfold App.get_survival_fig. rewrite Hne.
  unfold pd.groupby_mean, getitem. rewrite Hkeys, Hsurvived.
  cbn [bind lookup_col]. rewrite Hfeature1. cbn [String.eqb Ascii.eqb Bool.eqb].
  cbn [bind setitem]. rewrite Hfeature2.
  cbn [String.eqb Ascii.eqb Bool.eqb setitem].
  unfold pd.sort_values_desc, getitem.
  cbn [lookup_col]. rewrite Hfeature2.
  cbn [String.eqb Ascii.eqb Bool.eqb bind].
  unfold px.bar, pd.take. cbn [map lookup_col fst snd].
  rewrite String.eqb_refl. rewrite Hfeature2.
  cbn [String.eqb Ascii.eqb Bool.eqb bind].
  eexists. split; [reflexivity|].
  unfold fig_points, px.update_traces. cbn [fig_plot s_values].
  rewrite combine_take. apply StronglySorted_map. cbn [snd].
  apply (sort_strongly_sorted
           (fun i j => pd.desc_leb (nth i _ NaN) (nth j _ NaN))).
  - intros a b. apply desc_leb_total.
  - intros a b c. apply desc_leb_trans.
Qed.

Lemma App_rate_bars_descending_witness :
  exists fig,
    App.get_survival_fig Samples.three_rows false Samples.three_rows
      "sex_label" "Sex" = Ok fig /\
    StronglySorted (fun p q => pd.desc_leb (snd p) (snd q) = true)
                   (fig_points fig).
Proof.
  exact (App_rate_bars_descending Samples.three_rows Samples.three_rows false
           "sex_label" "Sex" _ _ eq_refl eq_refl eq_refl eq_refl eq_refl).
Defined.

Lemma StronglySorted_impl {A : Type} (R R' : A -> A -> Prop) (l : list A) :
  (forall a b, R a b -> R' a b) -> StronglySorted R l -> StronglySorted R' l.
Proof.
  intros HR. induction 1 as [|a l Hs IH Ha]; constructor; [exact IH|].
  eapply Forall_impl; [|exact Ha]. intros b. apply HR.
Qed.

(** X8.  The composition bars of [src/titanic/app.py] come in order of
    descending count: every bar is at least as high as every bar after
    it. *)
Theorem composition_bars_descending :
  forall (data_df : DataFrame) (feature title subtitle : string) (col : Series),
    lookup_col data_df feature = Some col ->
    String.eqb feature "Count" = false ->
    exists fig,
      TitanicApp.get_composition_fig data_df feature title subtitle = Ok fig /\
      StronglySorted (fun p q => value_leb (snd q) (snd p) = true)
                     (fig_points fig).
Proof.
  intros data_df feature title subtitle col Hc Hf.
  destruct (TitanicApp_composition_points data_df feature title subtitle col
              Hc Hf) as (fig & Hfig & Hpts).
  exists fig. split; [exact Hfig|]. rewrite Hpts.
  apply StronglySorted_map. cbn [snd].
  apply (StronglySorted_impl
           (fun a b : value * nat => Nat.leb (snd b) (snd a) = true)).
  - intros a b H. apply Nat.leb_le in H. simpl.
    apply Qle_bool_iff. unfold Qle. simpl. lia.
  - unfold pd.value_counts. apply sort_strongly_sorted.
    + intros a b. rewrite !Nat.leb_le. lia.
    + intros a b c. rewrite !Nat.leb_le. lia.
Qed.

Lemma composition_bars_descending_witness :
  exists fig,
    TitanicApp.get_composition_fig Samples.passengers "sex" "Sex"
      "1. Total Population" = Ok fig /\
    StronglySorted (fun p q => value_leb (snd q) (snd p) = true)
                   (fig_points fig).
Proof.
  exact (composition_bars_descending Samples.passengers "sex" "Sex"
           "1. Total Population" _ eq_refl eq_refl).
Defined.

Section Percentages.

Lemma rate_spec_bounds (keys survived : list value) (k : value) :
  pd.group_values keys survived k <> [] ->
  (0 <= rate_spec keys survived k <= 100)%Q.
Proof.
  intros Hne. unfold rate_spec.
  set (g := pd.group_values keys survived k) in *.
  pose proof (ones_le_length g) as Hle.
  assert (Hpos : (0 < List.length g)%nat)
    by (destruct g; [congruence | simpl; lia]).
  rewrite Qred_correct.
  assert (Hl : (0 < inject_Z (Z.of_nat (List.length g)))%Q)
    by (unfold Qlt; simpl; lia).
  assert (Ho : (0 <= inject_Z (Z.of_nat (ones g)))%Q)
    by (unfold Qle; simpl; lia).
  assert (Hol : (inject_Z (Z.of_nat (ones g))
                 <= inject_Z (Z.of_nat (List.length g)))%Q)
    by (unfold Qle; simpl; lia).
  split.
  - apply Qmult_le_0_compat; [lra|].
    apply Qle_shift_div_l; [exact Hl | lra].
  - assert (H1 : (inject_Z (Z.of_nat (ones g))
                  / inject_Z (Z.of_nat (List.length g)) <= 1)%Q).
    { apply Qle_shift_div_r; [exact Hl | lra]. }
    lra.
Qed.

Lemma rint_bounds (x : Q) (n : Z) :
  (0 <= x)%Q -> (x <= inject_Z n)%Q -> 0 <= pd.rint x <= n.
Proof.
  intros H0 Hn. unfold pd.rint.
  pose proof (Qfloor_le x) as Hf. pose proof (Qlt_floor x) as Hf'.
  assert (F0 : 0 <= Qfloor x).
  { change 0 with (Qfloor 0). apply Qfloor_resp_le. exact H0. }
  assert (Fn : Qfloor x <= n).
  { rewrite <- (Qfloor_Z n). apply Qfloor_resp_le. exact Hn. }
  destruct (Qcompare (x - inject_Z (Qfloor x)) (1 # 2)) eqn:C.
  - destruct (Z.even (Qfloor x)); [lia|].
    apply Qeq_alt in C.
    destruct (Z.eq_dec (Qfloor x) n) as [E|E]; [|lia].
    rewrite E in C. lra.
  - lia.
  - apply Qgt_alt in C.
    destruct (Z.eq_dec (Qfloor x) n) as [E|E]; [|lia].
    rewrite E in C. lra.
Qed.

Lemma round_2_bounds (x : Q) :
  (0 <= x <= 100)%Q -> (0 <= pd.round_decimals 2 x <= 100)%Q.
Proof.
  intros [H0 H100]. unfold pd.round_decimals. rewrite Qred_correct.
  change (pd.pow10 2) with (inject_Z 100).
  destruct (rint_bounds (x * inject_Z 100) 10000) as [R0 R1].
  - change (inject_Z 100) with 100%Q. lra.
  - change (inject_Z 100) with 100%Q. change (inject_Z 10000) with 10000%Q.
    lra.
  - set (r := pd.rint (x * inject_Z 100)) in *.
    assert (Q0 : (0 <= inject_Z r)%Q) by (unfold Qle; simpl; lia).
    assert (Q1 : (inject_Z r <= 10000)%Q) by (unfold Qle; simpl; lia).
    change (inject_Z 100) with 100%Q. split.
    + apply Qle_shift_div_l; lra.
    + apply Qle_shift_div_r; lra.
Qed.

(** A category that the grouping observes has rows. *)
Lemma observed_group_has_rows (keys : Series) (survived : list value) (k : value) :
  List.length (s_values keys) = List.length survived ->
  In k (pd.group_keys keys true) ->
  pd.group_values (s_values keys) survived k <> [].
Proof.
  intros Hl Hk.
  assert (Hc : (1 <= pd.count k (s_values keys))%nat).
  { unfold pd.group_keys in Hk. destruct (s_dtype keys) as [|cats].
    - apply in_sort, uniq_incl, dropna_In in Hk. destruct Hk as [Hin Hn].
      apply count_pos; assumption.
    - apply in_map_iff in Hk. destruct Hk as (c & <- & Hc).
      apply filter_In in Hc. destruct Hc as [_ Hc].
      apply existsb_exists in Hc. destruct Hc as (x & Hx & Hxc).
      unfold pd.count.
      assert (In x (filter (value_eqb (VStr c)) (s_values keys)))
        by (apply filter_In; auto).
      destruct (filter (value_eqb (VStr c)) (s_values keys));
        [contradiction | simpl; lia]. }
  rewrite <- (group_values_length _ _ k Hl) in Hc.
  intros E. rewrite E in Hc. simpl in Hc. lia.
Qed.

End Percentages.

(** X9.  Every plotted rate is a percentage.  For a table with 0/1
    outcomes, each bar of the rate figure of [src/titanic/app.py] carries a
    number between 0 and 100 -- the fixed range of its vertical axis -- and
    never a missing value; each bar of the rate figure of [src/app.py]
    carries a number between 0 and 100 or, for a category without rows, no
    value. *)
Theorem rates_are_percentages :
  forall (df : DataFrame) (feature title : string) (keys survived : Series),
    well_formed df = true ->
    lookup_col df feature = Some keys ->
    lookup_col df "survived" = Some survived ->
    String.eqb feature "survived" = false ->
    String.eqb feature "survival_rate" = false ->
    Forall is_01 (s_values survived) ->
    (exists fig,
       TitanicApp.get_survival_fig df feature title = Ok fig /\
       forall k y, In (k, y) (fig_points fig) ->
                   exists r, y = VNum r /\ (0 <= r <= 100)%Q) /\
    (forall observed_default data_df,
       empty data_df = false ->
       exists fig,
         App.get_survival_fig df observed_default data_df feature title
           = Ok fig /\
         forall k y, In (k, y) (fig_points fig) ->
                     y = NaN \/ exists r, y = VNum r /\ (0 <= r <= 100)%Q).
Proof.
  intros df feature title keys surv Hwf Hk Hs F1 F2 H01.
  assert (Hl : List.length (s_values keys) = List.length (s_values surv)).
  { rewrite (well_formed_lookup _ _ _ Hwf Hk).
    rewrite (well_formed_lookup _ _ _ Hwf Hs). reflexivity. }
  split.
  - destruct (TitanicApp_survival_points df feature keys surv Hk Hs F1 title)
      as (fig & Hfig & Hpts).
    exists fig. split; [exact Hfig|]. intros k y Hin. rewrite Hpts in Hin.
    apply in_map_iff in Hin. destruct Hin as (k0 & E & Hk0).
    inversion E; subst. clear E.
    pose proof (observed_group_has_rows keys (s_values surv) k0 Hl Hk0) as Hne.
    rewrite (rate_of_group _ _ _ H01 Hne).
    eexists. split; [reflexivity|]. apply rate_spec_bounds. exact Hne.
  - intros obs data_df Hne.
    destruct (App_survival_points df feature keys surv Hk Hs F1 F2
                obs data_df title Hne) as (fig & Hfig & Hpts).
    exists fig. split; [exact Hfig|]. intros k y Hin.
    apply Hpts in Hin. destruct Hin as [_ ->].
    destruct (pd.group_values (s_values keys) (s_values surv) k) eqn:Hg.
    + left. apply rate_of_empty_group. exact Hg.
    + right. rewrite app_rate_of_group; [|exact H01|congruence].
      eexists. split; [reflexivity|].
      apply round_2_bounds, rate_spec_bounds. congruence.
Qed.

Lemma rates_are_percentages_witness :
  exists fig,
    TitanicApp.get_survival_fig Samples.three_rows "sex_label" "Sex" = Ok fig /\
    forall k y, In (k, y) (fig_points fig) ->
                exists r, y = VNum r /\ (0 <= r <= 100)%Q.
Proof.
  exact (proj1 (rates_are_percentages Samples.three_rows "sex_label" "Sex" _ _
                  eq_refl eq_refl eq_refl eq_refl eq_refl
                  ltac:(repeat constructor;
                        (left; reflexivity) || (right; reflexivity)))).
Defined.

Section Callbacks.

Lemma options_get_none (d : list (string * (string * string))) (k : string) :
  ~ In k (map fst d) -> App.options_get d k = None.
Proof.
  induction d as [|[k' v] d IH]; simpl; [reflexivity|].
  intros H. destruct (String.eqb_spec k' k) as [->|Hk]; [tauto|].
  apply IH. tauto.
Qed.

Lemma TitanicApp_composition_ok (data_df : DataFrame)
    (feature title subtitle : string) :
  lookup_col data_df feature <> None ->
  String.eqb feature "Count" = false ->
  exists fig,
    TitanicApp.get_composition_fig data_df feature title subtitle = Ok fig.
Proof.
  intros Hc Hf. destruct (lookup_col data_df feature) as [col|] eqn:E;
    [|congruence].
  destruct (TitanicApp_composition_points data_df feature title subtitle col
              E Hf) as (fig & Hfig & _).
  exists fig. exact Hfig.
Qed.

Lemma App_composition_ok (data_df : DataFrame) (feature title : string) :
  (empty data_df = false -> lookup_col data_df feature <> None) ->
  exists fig, App.get_composition_fig data_df feature title = Ok fig.
Proof.
  intros Hc. unfold App.get_composition_fig, px.histogram.
  destruct (empty data_df); [eexists; reflexivity|].
  destruct (lookup_col data_df feature); [eexists; reflexivity|].
  exfalso. apply Hc; reflexivity.
Qed.

(** The columns that the dropdown options name are columns of the
    prepared table and of the survivors table. *)
Lemma option_columns (raw df after : DataFrame) (c : string) :
  engineering raw df -> App.df_after df = Ok after ->
  lookup_col raw "pclass" <> None ->
  In c ["pclass"; "sex_label"; "age_group"; "embarked"; "family_size";
        "fare_group"; "survived"] ->
  lookup_col df c <> None /\ lookup_col after c <> None.
Proof.
  intros He Ha Hp Hc.
  assert (Hdf : lookup_col df c <> None).
  { unfold App.df_after in Ha. inv_bind Ha. apply getitem_ok in Ha0.
    apply engineering_all_columns in He.
    destruct He as (age & emb & sex & sibsp & parch & fare & ag & fg & m &
                    _ & _ & _ & _ & _ & _ & _ & _ & _ & Hcols).
    simpl in Hc.
    repeat (destruct Hc as [<-|Hc]; [try congruence;
              rewrite Hcols; cbn [String.eqb Ascii.eqb Bool.eqb];
              congruence|]).
    destruct Hc. }
  split; [exact Hdf|].
  unfold App.df_after in Ha. inv_bind Ha. inversion Ha; subst after.
  unfold pd.copy, pd.getitem_mask. rewrite lookup_col_take.
  destruct (lookup_col df c); [discriminate | congruence].
Qed.

End Callbacks.

Section CallbackFigures.

Lemma TitanicApp_survival_ok (df : DataFrame) (feature title : string) :
  lookup_col df feature <> None -> lookup_col df "survived" <> None ->
  String.eqb feature "survived" = false ->
  exists fig, TitanicApp.get_survival_fig df feature title = Ok fig.
Proof.
  intros Hk Hs F1.
  destruct (lookup_col df feature) as [keys|] eqn:Ek; [|congruence].
  destruct (lookup_col df "survived") as [surv|] eqn:Es; [|congruence].
  destruct (TitanicApp_survival_points df feature keys surv Ek Es F1 title)
    as (fig & Hfig & _).
  exists fig. exact Hfig.
Qed.

Lemma App_survival_ok (df data_df : DataFrame) (observed_default : bool)
    (feature title : string) :
  lookup_col df feature <> None -> lookup_col df "survived" <> None ->
  String.eqb feature "survived" = false ->
  String.eqb feature "survival_rate" = false ->
  exists fig,
    App.get_survival_fig df observed_default data_df feature title = Ok fig.
Proof.
  intros Hk Hs F1 F2.
  destruct (empty data_df) eqn:He.
  - unfold App.get_survival_fig. rewrite He. eexists. reflexivity.
  - destruct (lookup_col df feature) as [keys|] eqn:Ek; [|congruence].
    destruct (lookup_col df "survived") as [surv|] eqn:Es; [|congruence].
    destruct (App_survival_points df feature keys surv Ek Es F1 F2
                observed_default data_df title He) as (fig & Hfig & _).
    exists fig. exact Hfig.
Qed.

End CallbackFigures.

(** X10.  The dropdown and the tables fit together.  After a successful
    preparation of a table that has a [pclass] column, the callback of
    either script returns its three figures for every option of its
    dropdown -- every option names a column that the preparation leaves in
    both tables -- and raises [TypeError] for any other selection. *)
Theorem update_graphs_on_options :
  forall (raw df df_after : DataFrame) (sel : string),
    well_formed raw = true ->
    lookup_col raw "pclass" <> None ->
    (TitanicApp.prepare raw = Ok (df, df_after) ->
     (In sel (map fst TitanicApp.FEATURE_OPTIONS) ->
      exists figs, TitanicApp.update_graphs df df_after sel = Ok figs) /\
     (~ In sel (map fst TitanicApp.FEATURE_OPTIONS) ->
      TitanicApp.update_graphs df df_after sel
        = Raise (TypeError "cannot unpack non-iterable NoneType object"))) /\
    (forall observed_default,
       App.prepare raw = Ok (df, df_after) ->
       (In sel (map fst App.FEATURE_OPTIONS) ->
        exists figs,
          App.update_graphs df observed_default df_after sel = Ok figs) /\
       (~ In sel (map fst App.FEATURE_OPTIONS) ->
        App.update_graphs df observed_default df_after sel
          = Raise (TypeError "cannot unpack non-iterable NoneType object"))).
Proof.
  intros raw df df_after sel Hwf Hp. split.
  - intros H. split.
    + intros Hsel.
      unfold TitanicApp.prepare in H. inv_bind H. inv_bind H.
      inversion H; subst. clear H.
      apply TitanicApp_clean_and_engineer_engineering in Ha.
      pose proof (fun c => option_columns raw df df_after c Ha Ha0 Hp) as Hc.
      destruct (Hc "survived") as [Hs _]; [simpl; tauto|].
      unfold TitanicApp.update_graphs.
      simpl in Hsel.
      repeat (destruct Hsel as [<-|Hsel];
        [ cbn [App.options_get TitanicApp.FEATURE_OPTIONS
               String.eqb Ascii.eqb Bool.eqb];
          match goal with
          | |- context [TitanicApp.get_survival_fig df ?f ?t] =>
              destruct (Hc f) as [H1 H2]; [simpl; tauto|];
              destruct (TitanicApp_composition_ok df f t
                          "1. Total Population" H1 eq_refl) as [g1 ->];
              destruct (TitanicApp_composition_ok df_after f t
                          "2. Survivors Only" H2 eq_refl) as [g2 ->];
              destruct (TitanicApp_survival_ok df f t H1 Hs eq_refl)
                as [g3 ->]
          end; cbn [bind]; eexists; reflexivity |]).
      destruct Hsel.
    + intros Hsel. unfold TitanicApp.update_graphs.
      rewrite (options_get_none _ _ Hsel). reflexivity.
  - intros obs H. split.
    + intros Hsel.
      assert (Hafter : App.df_after df = Ok df_after).
      { unfold App.prepare in H. inv_bind H. inv_bind H.
        inversion H; subst; exact Ha0. }
      assert (Hcases : engineering raw df \/
                       (empty df = true /\ empty df_after = true)).
      { pose proof (prepared_engineering raw df df_after (or_introl H)) as [E|[E ->]];
          [left; exact E | right].
        split; [exact E|].
        destruct (df_after_shape _ _ Hwf Hafter) as (_ & Hn & _).
        apply empty_nrows in E. apply empty_nrows. lia. }
      unfold App.update_graphs.
      destruct Hcases as [He|[E1 E2]].
      * pose proof (fun c => option_columns raw df df_after c He Hafter Hp)
          as Hc.
        destruct (Hc "survived") as [Hs _]; [simpl; tauto|].
        simpl in Hsel.
        repeat (destruct Hsel as [<-|Hsel];
          [ cbn [App.options_get App.FEATURE_OPTIONS
                 String.eqb Ascii.eqb Bool.eqb];
            match goal with
            | |- context [App.get_survival_fig df obs df ?f ?t] =>
                destruct (Hc f) as [H1 H2]; [simpl; tauto|];
                destruct (App_composition_ok df f t (fun _ => H1)) as [g1 ->];
                destruct (App_composition_ok df_after f t (fun _ => H2))
                  as [g2 ->];
                destruct (App_survival_ok df df obs f t H1 Hs eq_refl eq_refl)
                  as [g3 ->]
            end; cbn [bind]; eexists; reflexivity |]).
        destruct Hsel.
      * unfold App.get_composition_fig, App.get_survival_fig.
        rewrite E1, E2. simpl in Hsel.
        repeat (destruct Hsel as [<-|Hsel];
                [cbn; eexists; reflexivity|]).
        destruct Hsel.
    + intros Hsel. unfold App.update_graphs.
      rewrite (options_get_none _ _ Hsel). reflexivity.
Qed.

Lemma update_graphs_on_options_witness :
  exists df df_after figs,
    well_formed Samples.passengers = true /\
    TitanicApp.prepare Samples.passengers = Ok (df, df_after) /\
    TitanicApp.update_graphs df df_after "Age Group" = Ok figs.
Proof.
  eexists. eexists.
  match goal with
  | |- exists figs, _ /\ TitanicApp.prepare ?raw = Ok (?df, ?da) /\ _ =>
      assert (P : TitanicApp.prepare raw = Ok (df, da))
        by (vm_compute; reflexivity)
  end.
  destruct (proj1 (proj1 (update_graphs_on_options Samples.passengers _ _
                            "Age Group" eq_refl
                            ltac:(vm_compute; discriminate)) P))
    as [figs Hf]; [simpl; tauto|].
  exists figs. split; [reflexivity|]. split; [exact P | exact Hf].
Defined.

(** X11.  One rate bar per observed category.  For a plain feature column
    the rate figure of [src/titanic/app.py] has its bars in ascending order
    of category, no two bars for the same category, a bar only for a
    category that some row has, and a bar for every non-missing cell of the
    column; rows whose feature is missing have no bar. *)
Theorem rate_bars_are_the_categories :
  forall (df : DataFrame) (feature title : string) (keys survived : Series),
    lookup_col df feature = Some keys ->
    lookup_col df "survived" = Some survived ->
    String.eqb feature "survived" = false ->
    s_dtype keys = Plain ->
    exists fig ks,
      TitanicApp.get_survival_fig df feature title = Ok fig /\
      map fst (fig_points fig)
        = map (fun k => if String.eqb feature "pclass" then vstr k else k) ks /\
      StronglySorted (fun a b => value_leb a b = true) ks /\
      distinct ks /\
      (forall k, In k ks -> In k (s_values keys) /\ notna k = true) /\
      (forall v, In v (s_values keys) -> notna v = true ->
                 exists k, In k ks /\ value_eqb k v = true).
Proof.
  intros df feature title keys surv Hk Hs F1 Hd.
  destruct (TitanicApp_survival_points df feature keys surv Hk Hs F1 title)
    as (fig & Hfig & Hpts).
  exists fig, (pd.group_keys keys true). split; [exact Hfig|].
  split; [rewrite Hpts, map_map; reflexivity|].
  unfold pd.group_keys. rewrite Hd.
  split; [|split; [|split]].
  - apply sort_strongly_sorted; [apply value_leb_total | apply value_leb_trans].
  - apply (distinct_perm _ _ (Permutation_sym (sort_perm value_leb _))).
    apply uniq_distinct.
  - intros k Hin. apply in_sort, uniq_incl, dropna_In in Hin. exact Hin.
  - intros v Hv Hn.
    destruct (uniq_cover (pd.dropna (s_values keys)) v) as (k & Hkin & Hkv);
      [apply dropna_In; auto | exact Hn |].
    exists k. split; [apply in_sort; exact Hkin | exact Hkv].
Qed.

Lemma rate_bars_are_the_categories_witness :
  exists fig,
    TitanicApp.get_survival_fig Samples.three_rows "sex_label" "Sex" = Ok fig /\
    map fst (fig_points fig) = [VStr "Female"; VStr "Male"].
Proof.
  destruct (rate_bars_are_the_categories Samples.three_rows "sex_label" "Sex"
              _ _ eq_refl eq_refl eq_refl eq_refl)
    as (fig & ks & Hfig & _).
  exists fig. split; [exact Hfig|].
  vm_compute in Hfig. inversion Hfig. reflexivity.
Defined.

(* ================================================================== *)
(** * The single-chart dashboard, [src/titanic/app1.py] *)

Section App1Charts.

Lemma App1_rate_inv (data : DataFrame) (c : string) (g : DataFrame) :
  App1.calculate_survival_rate data c = Ok g ->
  String.eqb c "survived" = false ->
  exists keys survived,
    lookup_col data c = Some keys /\
    lookup_col data "survived" = Some survived /\
    g = [ (c, mkSeries (s_dtype keys) (pd.group_keys keys true));
          ("survived",
           plain (map (titanic_rate (s_values keys) (s_values survived))
                      (pd.group_keys keys true))) ].
Proof.
  intros H Hc. unfold App1.calculate_survival_rate in H.
  inv_bind H. unfold pd.groupby_mean in Ha.
  inv_bind Ha. inv_bind Ha. apply getitem_ok in Ha0, Ha1.
  inversion Ha; subst a. clear Ha.
  exists a0, a1. split; [exact Ha0|]. split; [exact Ha1|].
  unfold getitem in H. cbn [lookup_col] in H. rewrite Hc in H.
  cbn [String.eqb Ascii.eqb Bool.eqb bind setitem] in H. rewrite Hc in H.
  cbn [String.eqb Ascii.eqb Bool.eqb setitem] in H.
  inversion H. unfold pd.mul_scalar, plain. cbn [s_values].
  rewrite map_map. reflexivity.
Qed.

(** A bar chart of a pre-calculated table over its own grouping column. *)
Lemma bar_of_rates (c title : string) (d : dtype) (ks rates : list value) :
  String.eqb c "survived" = false ->
  exists fig,
    (fig0 <- px.bar [(c, mkSeries d ks); ("survived", plain rates)]
               c "survived" title ;;
     Ok (px.update_traces fig0 "%{y:.1f}%")) = Ok fig /\
    fig_points fig = combine ks rates.
Proof.
  intros Hc. unfold px.bar. cbn [lookup_col]. rewrite String.eqb_refl, Hc.
  cbn [String.eqb Ascii.eqb Bool.eqb bind]. eexists. split; reflexivity.
Qed.

End App1Charts.

(** X12.  The dispatch table of [src/titanic/app1.py] is consistent.  When
    the module has loaded, [update_graph] returns a figure for each of its
    six titles: the chart function paired with a title reads the column
    that the paired table was grouped by, and the bars are the survival
    rates of that column's categories over the table the chart is about --
    the prepared table, or its female rows for the chart about women.  Any
    other selection raises [TypeError]. *)
Theorem update_graph_on_options :
  forall (raw : DataFrame) (p : App1.Precalculated) (title : string),
    App1.startup raw = Ok p ->
    (In title (map fst (App1.GRAPH_OPTIONS p)) ->
     exists df table keys survived fig,
       App1.clean_and_engineer raw = Ok df /\
       graph_table df title = Ok table /\
       lookup_col table (graph_column title) = Some keys /\
       lookup_col table "survived" = Some survived /\
       App1.update_graph p title = Ok fig /\
       fig_points fig
       = map (fun k => (k, titanic_rate (s_values keys) (s_values survived) k))
             (pd.group_keys keys true)) /\
    (~ In title (map fst (App1.GRAPH_OPTIONS p)) ->
     App1.update_graph p title
       = Raise (TypeError "cannot unpack non-iterable NoneType object")).
Proof.
  intros raw p title H. split.
  - intros Hin. unfold App1.startup in H. inv_bind H. rename a into df.
    unfold App1.precalculate in H.
    inv_bind H. rename Ha0 into Hsex.
    inv_bind H. rename Ha0 into Hage.
    inv_bind H. rename Ha0 into Hpclass.
    inv_bind H. rename Ha0 into Hfare.
    inv_bind H. rename Ha0 into Hfamily.
    inv_bind H. rename Ha0 into Hwomen.
    inv_bind H. rename Ha0 into Hwc.
    inversion H; subst p. clear H.
    exists df. unfold App1.update_graph.
    cbn [App1.GRAPH_OPTIONS map fst In] in Hin.
    repeat (destruct Hin as [<-|Hin];
      [ cbn [App1.graph_options_get App1.GRAPH_OPTIONS
             String.eqb Ascii.eqb Bool.eqb
             App1.sex_df App1.age_df App1.pclass_df App1.fare_df
             App1.family_df App1.women_class_df];
        unfold graph_table, graph_column;
        cbn [String.eqb Ascii.eqb Bool.eqb];
        match goal with
        | Hr : App1.calculate_survival_rate ?t ?c = Ok ?g
          |- context [_ ?g = Ok _] =>
            destruct (App1_rate_inv t c g Hr eq_refl)
              as (keys & surv & Hk & Hs & ->);
            exists t, keys, surv
        end;
        match goal with
        | |- exists fig, _ /\ _ /\ _ /\ _ /\ ?f _ = Ok fig /\ _ =>
            unfold f
        end;
        match goal with
        | |- context [px.bar [(?c, mkSeries ?d ?ks); ("survived", plain ?rs)]
                             ?c "survived" ?t] =>
            destruct (bar_of_rates c t d ks rs eq_refl) as (fig & Hfig & Hpts);
            exists fig; rewrite Hpts, combine_map_r;
            repeat (split; [first [reflexivity | eassumption]|]);
            reflexivity
        end |]).
    destruct Hin.
  - intros Hn. unfold App1.update_graph.
    assert (E : App1.graph_options_get (App1.GRAPH_OPTIONS p) title = None).
    { revert Hn. generalize (App1.GRAPH_OPTIONS p) as d.
      induction d as [|[k v] d IH]; simpl; [reflexivity|].
      intros Hn. destruct (String.eqb_spec k title) as [->|Hk]; [tauto|].
      apply IH. tauto. }
    rewrite E. reflexivity.
Qed.

Lemma update_graph_on_options_witness :
  exists p fig,
    App1.startup Samples.passengers = Ok p /\
    App1.update_graph p "Women Survival by Passenger Class" = Ok fig /\
    fig_points fig = [(VInt 1, VNum 100); (VInt 3, VNum 100)].
Proof.
  eexists.
  match goal with
  | |- exists fig, App1.startup ?raw = Ok ?p /\ _ =>
      assert (P : App1.startup raw = Ok p) by (vm_compute; reflexivity)
  end.
  destruct (proj1 (update_graph_on_options Samples.passengers _
                     "Women Survival by Passenger Class" P))
    as (df & table & keys & surv & fig & _ & _ & _ & _ & Hfig & _);
    [simpl; tauto|].
  exists fig. split; [exact P|]. split; [exact Hfig|].
  vm_compute in Hfig. inversion Hfig. reflexivity.
Defined.

Section Women.

Lemma women_groups (sex pclass survived : list value) (k : value) :
  List.length sex = List.length pclass ->
  List.length sex = List.length survived ->
  let mask := map (fun x => value_eqb x (VStr "female")) sex in
  pd.group_values (map snd (filter fst (combine mask pclass)))
                  (map snd (filter fst (combine mask survived))) k
  = women_of_class sex pclass survived k.
Proof.
  unfold pd.group_values, women_of_class.
  revert pclass survived.
  induction sex as [|s sex IH]; intros [|c pclass] [|v survived] H1 H2;
    simpl in *; try discriminate; [reflexivity|].
  destruct (value_eqb s (VStr "female")); simpl.
  - destruct (value_eqb c k); simpl; rewrite IH by lia; reflexivity.
  - apply IH; lia.
Qed.

Lemma compress_01 (mask : list bool) (vs : list value) :
  Forall is_01 vs -> Forall is_01 (map snd (filter fst (combine mask vs))).
Proof.
  intros H. apply Forall_forall. intros v Hv.
  apply in_map_iff in Hv. destruct Hv as ([b x] & <- & Hin).
  apply filter_In in Hin. destruct Hin as [Hin _].
  apply in_combine_r in Hin. rewrite Forall_forall in H. apply H. exact Hin.
Qed.

End Women.

(** X13.  The chart about women counts women only.  In
    [src/titanic/app1.py] the table behind 'Women Survival by Passenger
    Class' is grouped over the rows with [sex == 'female']: for every class
    the outcomes averaged are those of the women of that class, and with
    0/1 outcomes the rate of a class that has women is 100 times the share
    of survivors among them. *)
Theorem women_chart_counts_women :
  forall (df women : DataFrame) (sex pclass survived : Series),
    well_formed df = true ->
    lookup_col df "sex" = Some sex ->
    lookup_col df "pclass" = Some pclass ->
    lookup_col df "survived" = Some survived ->
    Forall is_01 (s_values survived) ->
    App1.women df = Ok women ->
    exists keys' survived' rates,
      lookup_col women "pclass" = Some keys' /\
      lookup_col women "survived" = Some survived' /\
      App1.calculate_survival_rate women "pclass"
        = Ok [ ("pclass", mkSeries (s_dtype keys') (pd.group_keys keys' true));
               ("survived", plain rates) ] /\
      rates = map (titanic_rate (s_values keys') (s_values survived'))
                  (pd.group_keys keys' true) /\
      forall k,
        let w := women_of_class (s_values sex) (s_values pclass)
                                (s_values survived) k in
        pd.group_values (s_values keys') (s_values survived') k = w /\
        (w <> [] ->
         titanic_rate (s_values keys') (s_values survived') k
         = VNum (Qred (100 * (inject_Z (Z.of_nat (ones w))
                              / inject_Z (Z.of_nat (List.length w)))))).
Proof.
  intros df women sex pclass surv Hwf Hsex Hp Hs H01 Hw.
  unfold App1.women, getitem in Hw. rewrite Hsex in Hw. cbn [bind] in Hw.
  inversion Hw; subst women; clear Hw.
  pose proof (well_formed_lookup _ _ _ Hwf Hsex) as Lsex.
  pose proof (well_formed_lookup _ _ _ Hwf Hp) as Lp.
  pose proof (well_formed_lookup _ _ _ Hwf Hs) as Ls.
  unfold pd.getitem_mask.
  set (mask := pd.eq_scalar sex (VStr "female")).
  assert (Lm : List.length mask = nrows df)
    by (unfold mask, pd.eq_scalar; rewrite length_map; exact Lsex).
  eexists. eexists. eexists.
  split; [rewrite lookup_col_take, Hp; reflexivity|].
  split; [rewrite lookup_col_take, Hs; reflexivity|].
  split.
  { change App1.calculate_survival_rate
      with TitanicApp.calculate_survival_rate.
    apply calculate_survival_rate_rows;
      [rewrite lookup_col_take, Hp | rewrite lookup_col_take, Hs | ];
      reflexivity. }
  split; [reflexivity|].
  intros k. cbn [s_values].
  rewrite !take_nonzero by congruence.
  unfold mask, pd.eq_scalar.
  rewrite women_groups by congruence.
  split; [reflexivity|]. intros Hne.
  unfold titanic_rate.
  rewrite women_groups by congruence.
  pose proof (rate_of_group
                (map snd (filter fst (combine
                   (map (fun x => value_eqb x (VStr "female")) (s_values sex))
                   (s_values pclass))))
                (map snd (filter fst (combine
                   (map (fun x => value_eqb x (VStr "female")) (s_values sex))
                   (s_values surv))))
                k (compress_01 _ _ H01)) as R.
  unfold titanic_rate, rate_spec in R.
  rewrite women_groups in R by congruence.
  apply R. exact Hne.
Qed.

Lemma women_chart_counts_women_witness :
  exists women keys' survived',
    App1.women Samples.passengers = Ok women /\
    lookup_col women "pclass" = Some keys' /\
    lookup_col women "survived" = Some survived' /\
    pd.group_values (s_values keys') (s_values survived') (VInt 3) = [VInt 1].
Proof.
  eexists.
  destruct (women_chart_counts_women Samples.passengers _ _ _ _
              eq_refl eq_refl eq_refl eq_refl
              ltac:(repeat constructor;
                    (left; reflexivity) || (right; reflexivity))
              eq_refl) as (k' & s' & r & Hk' & Hs' & _ & _ & Hk).
  exists k', s'. split; [reflexivity|]. split; [exact Hk'|].
  split; [exact Hs'|]. exact (proj1 (Hk (VInt 3))).
Defined.

(* ================================================================== *)
(** * The age chart of [src/titanic/survival.py] *)

Section AgeChart.

Lemma violin_of_drawn (df : DataFrame) (status : Z) (survived age : Series) :
  well_formed df = true ->
  lookup_col df "survived" = Some survived ->
  lookup_col df "age" = Some age ->
  exists vs,
    SurvivalPy.violin_of df status = Ok vs /\
    (List.length vs <= 1)%nat /\
    Forall (fun v => SurvivalPy.violin_x v <> []) vs /\
    drawn vs
    = pd.dropna (map snd (filter fst
                   (combine (map (fun x => value_eqb x (VInt status))
                                 (s_values survived))
                            (s_values age)))).
Proof.
  intros Hwf Hs Ha. unfold SurvivalPy.violin_of, getitem.
  rewrite Hs. cbn [bind]. unfold pd.getitem_mask.
  rewrite lookup_col_take, Ha. cbn [option_map bind s_values].
  rewrite take_nonzero.
  2:{ unfold pd.eq_scalar. rewrite length_map.
      rewrite (well_formed_lookup _ _ _ Hwf Hs).
      rewrite (well_formed_lookup _ _ _ Hwf Ha). reflexivity. }
  unfold pd.eq_scalar.
  set (subset := pd.dropna _).
  destruct subset as [|a subset'] eqn:E; cbn [List.length Nat.eqb].
  - exists []. repeat split; auto.
  - eexists. split; [reflexivity|]. split; [simpl; lia|].
    split; [constructor; [discriminate | constructor]|].
    unfold drawn. simpl. rewrite app_nil_r. reflexivity.
Qed.

(** The known ages of the two outcomes together are the known ages. *)
Lemma ages_split (survived age : list value) :
  Forall is_01 survived ->
  List.length survived = List.length age ->
  Permutation
    (pd.dropna (map snd (filter fst
        (combine (map (fun x => value_eqb x (VInt 0)) survived) age)))
     ++ pd.dropna (map snd (filter fst
        (combine (map (fun x => value_eqb x (VInt 1)) survived) age))))
    (pd.dropna age).
Proof.
  intros H01. revert age.
  induction H01 as [|s survived [->| ->] _ IH]; intros [|a age] Hl;
    simpl in *; try discriminate; try apply perm_nil.
  - change (value_eqb (VInt 0) (VInt 0)) with true.
    change (value_eqb (VInt 0) (VInt 1)) with false.
    cbn [filter fst map snd]. unfold pd.dropna in *. cbn [filter].
    destruct (notna a); [apply perm_skip|]; apply IH; lia.
  - change (value_eqb (VInt 1) (VInt 0)) with false.
    change (value_eqb (VInt 1) (VInt 1)) with true.
    cbn [filter fst map snd]. unfold pd.dropna in *. cbn [filter].
    destruct (notna a).
    + apply Permutation_sym, Permutation_cons_app, Permutation_sym.
      apply IH; lia.
    + apply IH; lia.
Qed.

End AgeChart.

(** X14.  The age chart of [src/titanic/survival.py].  On a table with
    the columns [survived] and [age] the function does not raise.  It adds
    the column [survived_label] to the table it is given -- ['Not survived
    (0)'] for 0, ['Survived (1)'] for 1, missing otherwise -- and leaves
    every other column as it was.  The figure has at most two violins, none
    of them empty, and with 0/1 outcomes the ages drawn are exactly the
    known ages of the table, each once; a missing age is never drawn. *)
Theorem age_distribution_violins :
  forall (df : DataFrame) (survived age : Series),
    well_formed df = true ->
    lookup_col df "survived" = Some survived ->
    lookup_col df "age" = Some age ->
    exists violins df',
      SurvivalPy.get_age_distribution_fig df = Ok (violins, df') /\
      (forall c, lookup_col df' c
                 = if String.eqb "survived_label" c
                   then Some (SurvivalPy.map_survived survived)
                   else lookup_col df c) /\
      (forall i v, cell df "survived" i = Some v ->
         cell df' "survived_label" i
         = Some (if value_eqb v (VInt 0) then VStr "Not survived (0)"
                 else if value_eqb v (VInt 1) then VStr "Survived (1)"
                 else NaN)) /\
      (List.length violins <= 2)%nat /\
      Forall (fun v => SurvivalPy.violin_x v <> []) violins /\
      Forall (fun a => notna a = true) (drawn violins) /\
      (Forall is_01 (s_values survived) ->
       Permutation (drawn violins) (pd.dropna (s_values age))).
Proof.
  intros df surv age Hwf Hs Ha.
  unfold SurvivalPy.get_age_distribution_fig, getitem. rewrite Hs.
  cbn [bind].
  set (df' := setitem df "survived_label" (SurvivalPy.map_survived surv)).
  assert (Hwf' : well_formed df' = true).
  { apply well_formed_setitem; [exact Hwf|].
    unfold SurvivalPy.map_survived, plain. cbn [s_values].
    rewrite length_map. apply (well_formed_lookup _ _ _ Hwf Hs). }
  assert (Hcols : forall c, lookup_col df' c
                     = if String.eqb "survived_label" c
                       then Some (SurvivalPy.map_survived surv)
                       else lookup_col df c)
    by (intros c; apply lookup_col_setitem).
  assert (Hs' : lookup_col df' "survived" = Some surv)
    by (rewrite Hcols; exact Hs).
  assert (Ha' : lookup_col df' "age" = Some age)
    by (rewrite Hcols; exact Ha).
  destruct (violin_of_drawn df' 0 surv age Hwf' Hs' Ha')
    as (v0 & -> & L0 & N0 & D0).
  destruct (violin_of_drawn df' 1 surv age Hwf' Hs' Ha')
    as (v1 & -> & L1 & N1 & D1).
  cbn [bind]. exists (v0 ++ v1)%list, df'.
  split; [reflexivity|]. split; [exact Hcols|].
  assert (Hdrawn : drawn (v0 ++ v1) = (drawn v0 ++ drawn v1)%list).
  { unfold drawn. rewrite map_app, concat_app. reflexivity. }
  split; [|split; [|split; [|split]]].
  - intros i v Hv. unfold cell in *. rewrite Hcols. rewrite Hs in Hv.
    cbn [String.eqb Ascii.eqb Bool.eqb].
    unfold SurvivalPy.map_survived, plain. cbn [s_values].
    rewrite nth_error_map, Hv. cbn [option_map].
    unfold SurvivalPy.survived_map. cbn [SurvivalPy.survived_map_get].
    destruct (value_eqb v (VInt 0)); [reflexivity|].
    destruct (value_eqb v (VInt 1)); reflexivity.
  - rewrite length_app. lia.
  - apply Forall_app. split; assumption.
  - rewrite Hdrawn, D0, D1. apply Forall_app.
    split; apply Forall_forall; intros a Hin; apply dropna_In in Hin; tauto.
  - intros H01. rewrite Hdrawn, D0, D1. apply ages_split; [exact H01|].
    rewrite (well_formed_lookup _ _ _ Hwf Hs).
    rewrite (well_formed_lookup _ _ _ Hwf Ha). reflexivity.
Qed.

Lemma age_distribution_violins_witness :
  exists violins df',
    SurvivalPy.get_age_distribution_fig Samples.passengers = Ok (violins, df') /\
    drawn violins = [VNum 22; VNum 4; VNum 100; VNum (121 # 2)].
Proof.
  destruct (age_distribution_violins Samples.passengers _ _
              eq_refl eq_refl eq_refl)
    as (violins & df' & Hfig & _).
  exists violins, df'. split; [exact Hfig|].
  vm_compute in Hfig. inversion Hfig. reflexivity.
Defined.

(* ================================================================== *)
(** * Every fare has a fare group *)

Section Covering.

Lemma Qle_bool_trans (a b c : Q) :
  Qle_bool a b = true -> Qle_bool b c = true -> Qle_bool a c = true.
Proof. rewrite !Qle_bool_iff. apply Qle_trans. Qed.

Lemma numeric_In (vs : list value) (v : value) (x : Q) :
  In v vs -> to_Q v = Some x -> In x (pd.numeric vs).
Proof.
  intros Hin Hx. induction vs as [|a vs IH]; [destruct Hin|].
  simpl. destruct Hin as [->|Hin].
  - rewrite Hx. left. reflexivity.
  - destruct (to_Q a); [right|]; apply IH; exact Hin.
Qed.

(** Counting the edges below a cell. *)
Lemma below_at_least_1 (b0 : Q) (bins : list Q) (x : Q) :
  (b0 < x)%Q ->
  (1 <= pd.searchsorted (b0 :: bins) x false)%nat.
Proof.
  intros H. unfold pd.searchsorted. cbn [filter].
  destruct (Qle_bool x b0) eqn:E.
  - apply Qle_bool_iff in E. lra.
  - simpl. lia.
Qed.

Lemma below_less_than_all (bins : list Q) (x : Q) :
  (exists b, In b bins /\ (x <= b)%Q) ->
  (pd.searchsorted bins x false < List.length bins)%nat.
Proof.
  intros (b & Hb & Hx). unfold pd.searchsorted.
  induction bins as [|a bins IH]; [destruct Hb|].
  cbn [filter List.length]. destruct Hb as [->|Hb].
  - apply Qle_bool_iff in Hx. rewrite Hx. cbn [negb].
    pose proof (filter_length_le (fun b0 => negb (Qle_bool x b0)) bins). lia.
  - specialize (IH Hb). destruct (negb (Qle_bool x a)); simpl; lia.
Qed.

Lemma uniqQ_head (a : Q) (l : list Q) :
  exists t, pd.uniqQ (a :: l) = a :: t.
Proof. simpl. eexists. reflexivity. Qed.

Lemma uniqQ_cover (l : list Q) (e : Q) :
  In e l -> exists b, In b (pd.uniqQ l) /\ (b == e)%Q.
Proof.
  induction l as [|a l IH]; [intros []|]. intros [->|Hin].
  - exists e. split; [left; reflexivity | reflexivity].
  - destruct (IH Hin) as (b & Hb & Hbe). simpl.
    destruct (Qeq_bool a b) eqn:E.
    + exists a. split; [left; reflexivity|].
      apply Qeq_bool_iff in E. rewrite E. exact Hbe.
    + exists b. split; [|exact Hbe]. right. apply filter_In.
      rewrite E. split; [exact Hb | reflexivity].
Qed.

(** The bin of a cell that lies between the first edge and some edge. *)
Lemma bin_of_covered (b0 : Q) (bins : list Q) (right_closed lowest : bool)
    (labels : list string) (v : value) (x : Q) :
  to_Q v = Some x ->
  List.length labels = List.length bins ->
  (1 <= List.length bins)%nat ->
  (if lowest then (b0 <= x)%Q else (b0 < x)%Q) ->
  (exists b, In b (b0 :: bins) /\ (x <= b)%Q) ->
  exists l, pd.bin_of (b0 :: bins) true lowest labels v = VStr l /\ In l labels.
Proof.
  intros Hx Hl Hlen H0 Hb. unfold pd.bin_of. rewrite Hx. cbn [negb].
  pose proof (below_less_than_all (b0 :: bins) x Hb) as Hlt.
  cbn [List.length] in Hlt.
  assert (Hlab : forall id, (1 <= id)%nat -> (id < S (List.length bins))%nat ->
            exists l,
              (if Nat.eqb id 0 || Nat.eqb id (List.length (b0 :: bins))
               then NaN
               else match nth_error labels (id - 1) with
                    | Some l => VStr l
                    | None => NaN
                    end) = VStr l /\ In l labels).
  { intros id H1 H2. cbn [List.length].
    replace (Nat.eqb id 0) with false by (symmetry; apply Nat.eqb_neq; lia).
    replace (Nat.eqb id (S (List.length bins))) with false
      by (symmetry; apply Nat.eqb_neq; lia).
    cbn [orb].
    destruct (nth_error labels (id - 1)) as [l|] eqn:E.
    - exists l. split; [reflexivity|]. eapply nth_error_In; eassumption.
    - apply nth_error_None in E. lia. }
  destruct lowest; cbn [andb].
  - destruct (Qeq_bool x b0) eqn:E.
    + apply Hlab; lia.
    + apply Hlab; [|exact Hlt]. apply below_at_least_1.
      apply Qeq_bool_neq in E.
      destruct (Qle_lt_or_eq _ _ H0) as [H|H]; [exact H|].
      exfalso. apply E. symmetry. exact H.
  - apply Hlab; [|exact Hlt]. apply below_at_least_1. exact H0.
Qed.

End Covering.

Section Quantiles.

Lemma quantile_0 (a : Q) (r : list Q) : (pd.quantile (a :: r) 0 == a)%Q.
Proof.
  unfold pd.quantile.
  set (z := inject_Z (Z.of_nat (List.length (a :: r) - 1))).
  assert (Hp : (0 * z == 0)%Q) by ring.
  rewrite Qred_correct. rewrite (Qfloor_comp _ _ Hp).
  change (Qfloor 0) with 0. cbn [Z.to_nat nth]. rewrite Hp. ring.
Qed.

Lemma quantile_1 (xs : list Q) :
  (pd.quantile xs 1 == nth (List.length xs - 1) xs 0)%Q.
Proof.
  unfold pd.quantile.
  set (n := (List.length xs - 1)%nat).
  assert (Hp : (1 * inject_Z (Z.of_nat n) == inject_Z (Z.of_nat n))%Q) by ring.
  rewrite Qred_correct. rewrite (Qfloor_comp _ _ Hp), Qfloor_Z, Nat2Z.id.
  rewrite Hp. ring.
Qed.

Lemma sorted_below_last (xs : list Q) (x : Q) :
  StronglySorted (fun a b => Qle_bool a b = true) xs ->
  In x xs -> (x <= nth (List.length xs - 1) xs 0)%Q.
Proof.
  induction 1 as [|a l Hs IH Ha]; [intros []|].
  intros Hin. cbn [List.length]. rewrite Nat.sub_succ, Nat.sub_0_r.
  destruct l as [|b l'].
  - destruct Hin as [->|[]]. apply Qle_refl.
  - cbn [List.length] in *. rewrite Nat.sub_succ, Nat.sub_0_r in IH.
    change (nth (S (List.length l')) (a :: b :: l') 0%Q)
      with (nth (List.length l') (b :: l') 0%Q).
    destruct Hin as [->|Hin]; [|apply IH; exact Hin].
    rewrite Forall_forall in Ha.
    apply Qle_bool_iff, Ha, nth_In. simpl. lia.
Qed.

Lemma sorted_above_head (a : Q) (l : list Q) (x : Q) :
  StronglySorted (fun a b => Qle_bool a b = true) (a :: l) ->
  In x (a :: l) -> (a <= x)%Q.
Proof.
  intros Hs [->|Hin]; [apply Qle_refl|].
  apply StronglySorted_inv in Hs. destruct Hs as [_ Ha].
  rewrite Forall_forall in Ha. apply Qle_bool_iff, Ha. exact Hin.
Qed.

Lemma quartile_edges (xs : list Q) :
  map (pd.quantile xs) (pd.linspace 0 1 (4 + 1))
  = [pd.quantile xs 0; pd.quantile xs (1 # 4); pd.quantile xs (1 # 2);
     pd.quantile xs (3 # 4); pd.quantile xs 1].
Proof. reflexivity. Qed.

(** What a successful binning tells about the edges in use. *)
Lemma bins_to_cuts_inv (x : list value) (bins : list Q) (r il : bool)
    (labels : list string) (dd ord : bool) (s : Series) :
  pd.bins_to_cuts x bins r il labels dd ord = Ok s ->
  exists bins',
    (bins' = bins \/ bins' = pd.uniqQ bins) /\
    List.length labels = (List.length bins' - 1)%nat /\
    s = mkSeries (Categorical labels) (map (pd.bin_of bins' r il labels) x).
Proof.
  unfold pd.bins_to_cuts. intros H. inv_bind H.
  destruct (ord && negb (pd.nodup_labels labels)); [discriminate|].
  destruct (Nat.eqb (List.length labels) (List.length a - 1)) eqn:E;
    [|discriminate].
  cbn [negb] in H. inversion H. apply Nat.eqb_eq in E.
  exists a. split; [|split; [exact E | reflexivity]].
  destruct (Nat.ltb (List.length (pd.uniqQ bins)) (List.length bins)
            && negb (Nat.eqb (List.length bins) 2)).
  - destruct dd; [|discriminate]. inversion Ha. right. reflexivity.
  - inversion Ha. left. reflexivity.
Qed.

(** Quartile binning, when it succeeds, gives every numeric cell a
    quartile. *)
Lemma qcut_covers (fare fg : Series) (labels : list string) :
  (1 <= List.length labels)%nat ->
  pd.qcut fare 4 labels true = Ok fg ->
  forall i v x,
    nth_error (s_values fare) i = Some v -> to_Q v = Some x ->
    exists l, nth_error (s_values fg) i = Some (VStr l) /\ In l labels.
Proof.
  unfold pd.qcut. intros Hlab H i v x Hv Hx.
  destruct (pd.sort Qle_bool (pd.numeric (s_values fare))) as [|a r] eqn:Hxs;
    [discriminate|].
  assert (Hsorted : StronglySorted (fun a b => Qle_bool a b = true) (a :: r)).
  { rewrite <- Hxs. apply sort_strongly_sorted;
      [apply Qle_bool_total | apply Qle_bool_trans]. }
  assert (Hin : In x (a :: r)).
  { rewrite <- Hxs. apply in_sort. eapply numeric_In; [|exact Hx].
    eapply nth_error_In; eassumption. }
  apply bins_to_cuts_inv in H. destruct H as (bins' & Hb & Hl & ->).
  rewrite quartile_edges in Hb. cbn [s_values].
  rewrite nth_error_map, Hv. cbn [option_map].
  assert (Hshape : exists t, bins' = pd.quantile (a :: r) 0 :: t /\
             exists b, In b bins' /\ (b == pd.quantile (a :: r) 1)%Q).
  { destruct Hb as [->| ->].
    - eexists. split; [reflexivity|]. eexists. split; [|reflexivity].
      simpl. tauto.
    - destruct (uniqQ_head (pd.quantile (a :: r) 0)
                  [pd.quantile (a :: r) (1 # 4); pd.quantile (a :: r) (1 # 2);
                   pd.quantile (a :: r) (3 # 4); pd.quantile (a :: r) 1])
        as [t Ht].
      exists t. split; [exact Ht|].
      apply uniqQ_cover. simpl. tauto. }
  destruct Hshape as (t & -> & b & Hbin & Hbq).
  cbn [List.length] in Hl. rewrite Nat.sub_succ, Nat.sub_0_r in Hl.
  destruct (bin_of_covered (pd.quantile (a :: r) 0) t true true labels v x Hx Hl)
    as (l & Hbin' & Hlin).
  - lia.
  - rewrite quantile_0. apply (sorted_above_head a r x Hsorted Hin).
  - exists b. split; [exact Hbin|]. rewrite Hbq, quantile_1.
    apply (sorted_below_last (a :: r) x Hsorted Hin).
  - exists l. split; [f_equal; exact Hbin' | exact Hlin].
Qed.

End Quantiles.

Section FareGroupColumn.

(** In [src/app.py] a fare group column with the quartile categories comes
    from the quartile binning, not from the fallback. *)
Lemma App_fare_group_quartiles (d : DataFrame) (fare fg : Series) :
  lookup_col d "fare" = Some fare ->
  App.fare_group d = Ok fg ->
  s_dtype fg = Categorical App.quartile_labels ->
  pd.qcut fare 4 App.quartile_labels true = Ok fg.
Proof.
  intros Hf H Hd. unfold App.fare_group, getitem in H.
  rewrite Hf in H. cbn [bind] in H.
  destruct (pd.qcut fare 4 App.quartile_labels true) as [s|[k|m|m]] eqn:Hq;
    cbn [try_except_ValueError] in H; try discriminate.
  - exact H.
  - exfalso. unfold pd.cut_nbins in H. cbn [Nat.ltb Nat.leb] in H.
    destruct (s_values fare); [discriminate|].
    destruct (pd.numeric (v :: l)); [discriminate|].
    apply bins_to_cuts_values in H. destruct H as [b ->].
    cbn [s_dtype] in Hd. discriminate.
Qed.

Lemma App_clean_fare (raw df : DataFrame) :
  App.clean_and_engineer raw = Ok df ->
  exists fare fg d,
    lookup_col raw "fare" = Some fare /\
    lookup_col d "fare" = Some fare /\
    App.fare_group d = Ok fg /\
    lookup_col df "fare_group" = Some fg.
Proof.
  unfold App.clean_and_engineer. intros H.
  inv_bind H. inv_bind H. inv_bind H. inv_bind H. inv_bind H.
  inv_bind H. inv_bind H. inv_bind H. inv_bind H.
  inversion H; subst df. clear H.
  destruct (fare_group_fare _ _ Ha7) as (fare & Hfare & _).
  exists fare, a7. eexists. split; [|split; [exact Hfare|split; [exact Ha7|]]].
  - lookup_through. exact Hfare.
  - rewrite lookup_col_setitem. reflexivity.
Qed.

Lemma TitanicApp_clean_fare (raw df : DataFrame) :
  TitanicApp.clean_and_engineer raw = Ok df ->
  exists fare fg,
    lookup_col raw "fare" = Some fare /\
    pd.qcut fare 4 App.quartile_labels true = Ok fg /\
    lookup_col df "fare_group" = Some fg.
Proof.
  unfold TitanicApp.clean_and_engineer. intros H.
  inv_bind H. inv_bind H. inv_bind H. inv_bind H. inv_bind H.
  inv_bind H. inv_bind H. inv_bind H. inv_bind H. inv_bind H.
  inversion H; subst df. clear H. apply getitem_ok in Ha7.
  exists a7, a8. split; [|split; [exact Ha8|]].
  - lookup_through. exact Ha7.
  - rewrite lookup_col_setitem. reflexivity.
Qed.

End FareGroupColumn.

(** X15.  Every fare has a quartile.  After a successful preparation of a
    non-empty table in which the quartile binning was the one that
    succeeded -- the fare group column carries the four quartile
    categories, as it always does in [src/titanic/app.py] and does in
    [src/app.py] unless the fallback ran -- a row whose fare is a number
    has one of the four quartile labels; only a row without a fare has
    none. *)
Theorem fare_group_of_every_fare :
  forall (raw df df_after : DataFrame) (fg : Series)
         (i : nat) (v : value) (x : Q),
    empty raw = false ->
    App.prepare raw = Ok (df, df_after) \/
    TitanicApp.prepare raw = Ok (df, df_after) ->
    lookup_col df "fare_group" = Some fg ->
    s_dtype fg = Categorical App.quartile_labels ->
    cell raw "fare" i = Some v ->
    to_Q v = Some x ->
    exists l,
      cell df "fare_group" i = Some (VStr l) /\
      In l ["Q1 (Low)"; "Q2"; "Q3"; "Q4 (High)"].
Proof.
  intros raw df df_after fg i v x Hne Hprep Hfg Hdt Hv Hx. unfold cell in *.
  assert (Hq : exists fare, lookup_col raw "fare" = Some fare /\
                 pd.qcut fare 4 App.quartile_labels true = Ok fg).
  { destruct Hprep as [H|H].
    - unfold App.prepare in H. rewrite Hne in H. cbn [negb] in H.
      inv_bind H. inv_bind H. inversion H; subst. clear H.
      apply App_clean_fare in Ha.
      destruct Ha as (fare & fg' & d & Hraw & Hd & Hfg' & Hdf).
      rewrite Hdf in Hfg. inversion Hfg; subst fg'.
      exists fare. split; [exact Hraw|].
      eapply App_fare_group_quartiles; eassumption.
    - unfold TitanicApp.prepare in H. inv_bind H. inv_bind H.
      inversion H; subst. clear H.
      apply TitanicApp_clean_fare in Ha.
      destruct Ha as (fare & fg' & Hraw & Hq & Hdf).
      rewrite Hdf in Hfg. inversion Hfg; subst fg'.
      exists fare. split; assumption. }
  destruct Hq as (fare & Hraw & Hq).
  rewrite Hraw in Hv. rewrite Hfg.
  destruct (qcut_covers fare fg App.quartile_labels) with (i := i) (v := v)
    (x := x) as (l & Hl & Hin); auto; [simpl; lia|].
  exists l. split; [exact Hl | exact Hin].
Qed.

Lemma fare_group_of_every_fare_witness :
  exists df df_after l,
    empty Samples.passengers = false /\
    App.prepare Samples.passengers = Ok (df, df_after) /\
    cell df "fare_group" 1 = Some (VStr l).
Proof.
  eexists. eexists.
  match goal with
  | |- exists l, _ /\ App.prepare ?raw = Ok (?df, ?da) /\ _ =>
      assert (P : App.prepare raw = Ok (df, da)) by (vm_compute; reflexivity)
  end.
  match type of P with
  | _ = Ok (?df, _) =>
      let column := eval vm_compute in (lookup_col df "fare_group") in
      match column with
      | Some ?fg =>
          destruct (fare_group_of_every_fare Samples.passengers df _ fg
                      1 (VNum 71) 71
                      eq_refl (or_introl P) eq_refl eq_refl eq_refl eq_refl)
            as (l & Hl & _)
      end
  end.
  exists l. split; [reflexivity|]. split; [exact P | exact Hl].
Defined.

Section Quartiles.


End Quartiles.



(* ================================================================== *)
(** * The scripts prepare alike *)

Section Variants.

(** With right-open bins the flag [include_lowest] changes nothing. *)
Lemma bin_of_lowest_irrelevant (v : value) :
  pd.bin_of App.bins false false App.labels v
  = pd.bin_of App.bins false true App.labels v.
Proof.
  unfold pd.bin_of. destruct (to_Q v) as [a|]; [|reflexivity].
  unfold pd.searchsorted, App.bins, App.labels.
  cbn [negb filter andb].
  destruct (Qeq_bool a 0) eqn:Hz; [|reflexivity].
  apply Qeq_bool_iff in Hz.
  destruct (Qle_bool 0 a) eqn:H0; destruct (Qle_bool 13 a) eqn:H13;
    destruct (Qle_bool 19 a) eqn:H19; destruct (Qle_bool 60 a) eqn:H60;
    destruct (Qle_bool 100 a) eqn:H100;
    try reflexivity;
    exfalso;
    repeat match goal with
           | H : Qle_bool _ _ = true |- _ => apply Qle_bool_iff in H
           | H : Qle_bool _ _ = false |- _ => apply Qle_bool_false in H
           end; lra.
Qed.

Lemma cut_lowest_irrelevant (x : Series) :
  pd.cut x App.bins App.labels false true false
  = pd.cut x App.bins App.labels false true true.
Proof.
  rewrite cut_ages.
  change (pd.cut x App.bins App.labels false true false)
    with (Ok (mkSeries (Categorical App.labels)
                (map (pd.bin_of App.bins false false App.labels) (s_values x)))).
  f_equal. f_equal. apply map_ext. intros v. apply bin_of_lowest_irrelevant.
Qed.

Ltac step_both :=
  match goal with
  | |- bind ?c _ = bind ?c _ => destruct c; cbn [bind]; [|reflexivity]
  end.

Lemma App1_clean_and_engineer_same (raw : DataFrame) :
  App1.clean_and_engineer raw = TitanicApp.clean_and_engineer raw.
Proof.
  unfold App1.clean_and_engineer, TitanicApp.clean_and_engineer,
    TitanicApp.sex_labels, TitanicApp.bins, TitanicApp.labels,
    TitanicApp.quartile_labels.
  cbv zeta.
  repeat step_both.
  rewrite cut_lowest_irrelevant.
  repeat step_both. reflexivity.
Qed.

Ltac step_ok H :=
  match type of H with
  | bind ?c _ = Ok _ =>
      let E := fresh "E" in
      destruct c eqn:E; cbn [bind] in H; [|discriminate]
  end.

Lemma TitanicApp_then_App (raw df : DataFrame) :
  TitanicApp.clean_and_engineer raw = Ok df ->
  App.clean_and_engineer raw = Ok df.
Proof.
  unfold App.clean_and_engineer, App.fare_group,
    TitanicApp.clean_and_engineer, TitanicApp.sex_labels, TitanicApp.bins, TitanicApp.labels,
    TitanicApp.quartile_labels.
  cbv zeta. intros H.
  repeat (step_ok H; cbn [bind]).
  cbn [bind try_except_ValueError]. exact H.
Qed.

End Variants.

(** X17.  The scripts prepare alike.  [src/titanic/app1.py] cleans and
    engineers every table exactly as [src/titanic/app.py] does (the flag
    [include_lowest] that only the latter passes changes no age group), and
    whenever the preparation of [src/titanic/app.py] succeeds on a
    non-empty table, the preparation of [src/app.py] succeeds with the same
    prepared table and the same survivors table. *)
Theorem scripts_prepare_alike :
  forall (raw : DataFrame),
    App1.clean_and_engineer raw = TitanicApp.clean_and_engineer raw /\
    forall df df_after,
      empty raw = false ->
      TitanicApp.prepare raw = Ok (df, df_after) ->
      App.prepare raw = Ok (df, df_after).
Proof.
  intros raw. split; [apply App1_clean_and_engineer_same|].
  intros df df_after Hne H. unfold TitanicApp.prepare in H.
  inv_bind H. inv_bind H. inversion H; subst. clear H.
  unfold App.prepare. rewrite Hne. cbn [negb].
  rewrite (TitanicApp_then_App _ _ Ha). cbn [bind].
  change App.df_after with TitanicApp.df_after. rewrite Ha0. reflexivity.
Qed.

Lemma scripts_prepare_alike_witness :
  exists df df_after,
    empty Samples.passengers = false /\
    TitanicApp.prepare Samples.passengers = Ok (df, df_after) /\
    App.prepare Samples.passengers = Ok (df, df_after).
Proof.
  eexists. eexists. split; [reflexivity|].
  match goal with
  | |- TitanicApp.prepare ?raw = Ok (?df, ?da) /\ _ =>
      assert (P : TitanicApp.prepare raw = Ok (df, da))
        by (vm_compute; reflexivity)
  end.
  split; [exact P|].
  exact (proj2 (scripts_prepare_alike Samples.passengers) _ _ eq_refl P).
Defined.
